(** * Order-flow signal engine, alert analyzer and watcher registry

    A shallow embedding of the Python backend (signals.py, bingx_client.py,
    analyzer.py, server_v2.py, config.py, exchanges.py) together with the
    properties its specification states about it.

    Conventions of the embedding.
    - Python [float] values are idealised as exact rationals [Q]; numeric
      comparisons are the decidable comparisons of [Q] and [x == y] on floats
      is [Qeq_bool].  Rounding error, infinities and NaN are outside the model.
    - A division whose divisor the source does not guard is [py_div], which
      raises [ZeroDivisionError]; a division the source guards is written [/]
      under the same guard.
    - [math.exp] is [math_exp]: above [exp_overflow], the largest float
      whose exponential is a float, it raises [OverflowError]; up to it,
      it is a parameter [exp] of the engine's section.
    - [time.time()] is an explicit argument [now] of every handler that
      reads the clock.
    - Mutable objects are threaded explicitly: a method of an object with
      state [s] returns the new state next to its result.
    - Formatted messages are kept as a template with the numbers that fill
      it ([Fmt]); literal messages are kept as they are ([Text]). *)

From Stdlib Require Import QArith Qround Qminmax Lqa Lia ZArith List String Bool.
From stdpp Require Import base gmap strings.
Import ListNotations.
Local Open Scope Q_scope.

(** ** Python primitives used by the backend *)

Module Py.

(** The exceptions the modelled code can raise. *)
Inductive PyError : Type :=
| ZeroDivisionError
| AttributeError
| OverflowError
| JSONDecodeError.

(** Outcome of a computation that may raise. *)
Inductive Exn (A : Type) : Type :=
| Ok (a : A)
| Raise (e : PyError).
Arguments Ok {A} a.
Arguments Raise {A} e.

Definition bind {A B} (c : Exn A) (k : A -> Exn B) : Exn B :=
  match c with
  | Ok a => k a
  | Raise e => Raise e
  end.

Definition Qlt_bool (x y : Q) : bool := negb (Qle_bool y x).

(** [x / y] on floats. *)
Definition py_div (x y : Q) : Exn Q :=
  if Qeq_bool y 0 then Raise ZeroDivisionError else Ok (x / y).

(** [min(a, b)] and [max(a, b)]: the first argument wins a tie. *)
Definition py_min (a b : Q) : Q := if Qlt_bool b a then b else a.
Definition py_max (a b : Q) : Q := if Qlt_bool a b then b else a.

(** [abs(x)]. *)
Definition py_abs (x : Q) : Q := if Qlt_bool x 0 then - x else x.

(** [sum(xs)]: left to right from the integer 0. *)
Definition py_sum (xs : list Q) : Q := fold_left Qplus xs 0.

(** [round(x)] with one argument: nearest integer, ties to even. *)
Definition py_round (x : Q) : Z :=
  let f := Qfloor x in
  let d := x - inject_Z f in
  if Qlt_bool d (1 # 2) then f
  else if Qlt_bool (1 # 2) d then (f + 1)%Z
  else if Z.even f then f else (f + 1)%Z.

(** [max(xs, key=key)] on a non-empty list: the first maximal element. *)
Fixpoint max_by_from {A} (key : A -> Q) (best : A) (xs : list A) : A :=
  match xs with
  | [] => best
  | x :: xs' =>
      if Qlt_bool (key best) (key x) then max_by_from key x xs'
      else max_by_from key best xs'
  end.

Definition py_max_by {A} (key : A -> Q) (xs : list A) : option A :=
  match xs with
  | [] => None
  | x :: xs' => Some (max_by_from key x xs')
  end.

(** [d.append(x)] on a [deque(maxlen=n)]: the oldest entries fall off. *)
Definition deque_append {A} (maxlen : nat) (d : list A) (x : A) : list A :=
  let d' := d ++ [x] in
  skipn (length d' - maxlen) d'.

(** [xs[-n:]]. *)
Definition last_n {A} (n : nat) (xs : list A) : list A :=
  skipn (length xs - n) xs.

(** [xs.sort(key=key, reverse=True)]: stable, largest key first. *)
Fixpoint insert_desc {A} (key : A -> Q) (x : A) (xs : list A) : list A :=
  match xs with
  | [] => [x]
  | y :: ys =>
      if Qlt_bool (key x) (key y) then y :: insert_desc key x ys
      else x :: y :: ys
  end.

Definition sort_desc {A} (key : A -> Q) (xs : list A) : list A :=
  fold_right (insert_desc key) [] xs.

(** A message: a literal, or an f-string kept as template and arguments
    (numbers, or strings followed by numbers). *)
Inductive Message : Type :=
| Text (s : string)
| Fmt (template : string) (args : list Q)
| FmtS (template : string) (sargs : list string) (args : list Q).

(** [s.upper()] on ASCII text. *)
Definition upper_ascii (c : Ascii.ascii) : Ascii.ascii :=
  let n := Ascii.nat_of_ascii c in
  if Nat.leb 97 n && Nat.leb n 122 then Ascii.ascii_of_nat (n - 32) else c.

Fixpoint py_upper (s : string) : string :=
  match s with
  | EmptyString => EmptyString
  | String c rest => String (upper_ascii c) (py_upper rest)
  end.

End Py.

Import Py.

Declare Scope exn_scope.
Notation "x <- c ;; k" := (bind c (fun x => k))
  (at level 100, c at next level, right associativity) : exn_scope.
Local Open Scope exn_scope.

(** ** signals.py *)

Module Signals.

Inductive Signal : Type := STRONG_BUY | BUY | NEUTRAL | SELL | STRONG_SELL.

Record LiquidityZone : Type := {
  price : Q;
  total_volume_usd : Q;
  side : string;
  distance_pct : Q;
  order_count : nat;
  is_major : bool
}.

Record TradeSuggestion : Type := {
  action : string;
  mode : string;
  entry_price : Q;
  target_price : Q;
  stop_price : Q;
  ts_confidence : Q;
  reason : Message
}.

Record OrderBookLevel : Type := {
  lvl_price : Q;
  quantity : Q
}.

Definition value_usd (l : OrderBookLevel) : Q := lvl_price l * quantity l.

Record SignalResult : Type := {
  signal : Signal;
  confidence : Q;
  score : Q;
  imbalance_score : Q;
  weighted_pressure_score : Q;
  wall_score : Q;
  spread_score : Q;
  flow_score : Q;
  momentum_score : Q;
  bid_volume : Q;
  ask_volume : Q;
  imbalance_ratio : Q;
  spread_bps : Q;
  largest_bid_usd : Q;
  largest_ask_usd : Q;
  mid_price : Q;
  support_zones : list LiquidityZone;
  resistance_zones : list LiquidityZone;
  scalp_suggestion : option TradeSuggestion;
  reversal_suggestion : option TradeSuggestion;
  reasons : list Message
}.

(** [SignalResult(signal=Signal.NEUTRAL, confidence=0, score=0)] with the
    dataclass defaults, and [reasons] as given. *)
Definition default_result (rs : list Message) : SignalResult := {|
  signal := NEUTRAL; confidence := 0; score := 0;
  imbalance_score := 0; weighted_pressure_score := 0; wall_score := 0;
  spread_score := 0; flow_score := 0; momentum_score := 0;
  bid_volume := 0; ask_volume := 0; imbalance_ratio := 1;
  spread_bps := 0; largest_bid_usd := 0; largest_ask_usd := 0;
  mid_price := 0;
  support_zones := []; resistance_zones := [];
  scalp_suggestion := None; reversal_suggestion := None;
  reasons := rs
|}.

(** The mutable fields of a [SignalEngine]. *)
Record SignalEngine : Type := {
  symbol : string;
  imbalance_history : list Q;   (* deque(maxlen=60) *)
  trade_deltas : list Q;        (* deque(maxlen=100), never written *)
  cumulative_delta : Q
}.

(** [SignalEngine(symbol)]. *)
Definition new_engine (sym : string) : SignalEngine := {|
  symbol := sym; imbalance_history := []; trade_deltas := [];
  cumulative_delta := 0
|}.

(** [self.weights]. *)
Definition w_imbalance : Q := 0.25.
Definition w_weighted_pressure : Q := 0.20.
Definition w_walls : Q := 0.15.
Definition w_spread : Q := 0.10.
Definition w_flow : Q := 0.20.
Definition w_momentum : Q := 0.10.

(** [_calc_imbalance] with [depth = 20]:
    returns (score, bid_volume, ask_volume, ratio). *)
Definition _calc_imbalance (bids asks : list OrderBookLevel)
  : Q * Q * Q * Q :=
  let bid_volume := py_sum (map value_usd (firstn 20 bids)) in
  let ask_volume := py_sum (map value_usd (firstn 20 asks)) in
  let ratio :=
    if Qeq_bool ask_volume 0 then 2
    else if Qeq_bool bid_volume 0 then 0.5
    else bid_volume / ask_volume in
  let score :=
    if Qle_bool 1 ratio then py_min 100 ((ratio - 1) * 50)
    else py_max (-100) ((ratio - 1) * 100) in
  (score, bid_volume, ask_volume, ratio).

Section WithExp.

(** The value of [math.exp] where it has one. *)
Variable exp : Q -> Q.

(** The largest float whose exponential is still a float; the next float
    is 709.7827128933841. *)
Definition exp_overflow : Q := 709.782712893384.

(** [math.exp(x)]: "OverflowError: math range error" above
    [exp_overflow]. *)
Definition math_exp (x : Q) : Exn Q :=
  if Qlt_bool exp_overflow x then Raise OverflowError else Ok (exp x).

(** One side of the loop of [_calc_weighted_pressure]; [dist] gives the
    numerator of the distance of a level from the mid price. *)
Fixpoint pressure_loop (dist : Q -> Q) (mid_price decay_rate acc : Q)
    (levels : list OrderBookLevel) : Exn Q :=
  match levels with
  | [] => Ok acc
  | l :: rest =>
      distance_pct <- py_div (dist (lvl_price l)) mid_price ;;
      weight <- math_exp (- decay_rate * distance_pct * 100) ;;
      pressure_loop dist mid_price decay_rate (acc + value_usd l * weight) rest
  end.

(** [_calc_weighted_pressure] with [decay_rate = 0.1]. *)
Definition _calc_weighted_pressure (bids asks : list OrderBookLevel)
    (mid_price : Q) : Exn Q :=
  let decay_rate := 0.1 in
  bid_pressure <-
    pressure_loop (fun p => mid_price - p) mid_price decay_rate 0
      (firstn 30 bids) ;;
  ask_pressure <-
    pressure_loop (fun p => p - mid_price) mid_price decay_rate 0
      (firstn 30 asks) ;;
  let total := bid_pressure + ask_pressure in
  if Qeq_bool total 0 then Ok 0
  else
    let imbalance := (bid_pressure - ask_pressure) / total in
    Ok (imbalance * 100).

End WithExp.

(** [_calc_wall_score]: returns (score, largest_bid_usd, largest_ask_usd). *)
Definition _calc_wall_score (bids asks : list OrderBookLevel)
    (total_bid total_ask : Q) : Q * Q * Q :=
  let largest_bid := py_max_by value_usd (firstn 20 bids) in
  let largest_ask := py_max_by value_usd (firstn 20 asks) in
  let largest_bid_usd :=
    match largest_bid with Some l => value_usd l | None => 0 end in
  let largest_ask_usd :=
    match largest_ask with Some l => value_usd l | None => 0 end in
  let bid_wall_pct :=
    if Qlt_bool 0 total_bid then largest_bid_usd / total_bid * 100 else 0 in
  let ask_wall_pct :=
    if Qlt_bool 0 total_ask then largest_ask_usd / total_ask * 100 else 0 in
  let score := 0 in
  let score :=
    if Qlt_bool 15 bid_wall_pct then score + py_min 50 bid_wall_pct
    else score in
  let score :=
    if Qlt_bool 15 ask_wall_pct then score - py_min 50 ask_wall_pct
    else score in
  let score := if Qlt_bool 100000 largest_bid_usd then score + 20 else score in
  let score := if Qlt_bool 100000 largest_ask_usd then score - 20 else score in
  (py_max (-100) (py_min 100 score), largest_bid_usd, largest_ask_usd).

(** [_calc_spread_score]: returns (score, spread_bps). *)
Definition _calc_spread_score (bids asks : list OrderBookLevel)
  : Exn (Q * Q) :=
  match bids, asks with
  | b0 :: _, a0 :: _ =>
      let spread := lvl_price a0 - lvl_price b0 in
      let mid := (lvl_price a0 + lvl_price b0) / 2 in
      q <- py_div spread mid ;;
      let spread_bps := q * 10000 in
      let score :=
        if Qlt_bool spread_bps 5 then 10
        else if Qlt_bool 50 spread_bps then -10
        else 0 in
      Ok (score, spread_bps)
  | _, _ => Ok (0, 0)
  end.

(** [_calc_flow_score]: the new engine state and the score. *)
Definition _calc_flow_score (self : SignalEngine)
    (recent_trades : list (Q * string)) : SignalEngine * Q :=
  let buy_volume :=
    py_sum (map fst (List.filter (fun t => String.eqb (snd t) "buy") recent_trades)) in
  let sell_volume :=
    py_sum (map fst (List.filter (fun t => String.eqb (snd t) "sell") recent_trades)) in
  let total := buy_volume + sell_volume in
  if Qeq_bool total 0 then (self, 0)
  else
    let delta := buy_volume - sell_volume in
    let self' := {|
      symbol := symbol self;
      imbalance_history := imbalance_history self;
      trade_deltas := trade_deltas self;
      cumulative_delta := cumulative_delta self + delta |} in
    let imbalance := delta / total in
    (self', imbalance * 100).

(** [_calc_momentum]. *)
Definition _calc_momentum (self : SignalEngine) : Q :=
  let history := imbalance_history self in
  if Nat.ltb (length history) 10 then 0
  else
    let recent := py_sum (last_n 10 history) / 10 in
    let older :=
      if Nat.leb 20 (length history) then py_sum (firstn 10 history) / 10
      else recent in
    if Qeq_bool older 0 then 0
    else
      let roc := (recent - older) / older in
      py_max (-100) (py_min 100 (roc * 300)).

(** [_score_to_signal]. *)
Definition _score_to_signal (score : Q) : Signal * Q :=
  let abs_score := py_abs score in
  let confidence := py_min 100 (abs_score * 2) in
  if Qle_bool 40 score then (STRONG_BUY, confidence)
  else if Qle_bool 20 score then (BUY, confidence)
  else if Qle_bool score (-40) then (STRONG_SELL, confidence)
  else if Qle_bool score (-20) then (SELL, confidence)
  else (NEUTRAL, confidence).

(** [_generate_reasons]. *)
Definition _generate_reasons (result : SignalResult) : Exn (list Message) :=
  let reasons := [] in
  reasons <-
    (if Qlt_bool 1.3 (imbalance_ratio result) then
       Ok (reasons ++
           [Fmt "Strong bid imbalance ({:.2f}x more bids)"
                [imbalance_ratio result]])
     else if Qlt_bool (imbalance_ratio result) 0.7 then
       inv <- py_div 1 (imbalance_ratio result) ;;
       Ok (reasons ++ [Fmt "Strong ask imbalance ({:.2f}x more asks)" [inv]])
     else Ok reasons) ;;
  let reasons :=
    if Qlt_bool 50000 (largest_bid_usd result)
    then reasons ++ [Fmt "Large bid wall: ${:,.0f}" [largest_bid_usd result]]
    else reasons in
  let reasons :=
    if Qlt_bool 50000 (largest_ask_usd result)
    then reasons ++ [Fmt "Large ask wall: ${:,.0f}" [largest_ask_usd result]]
    else reasons in
  let reasons :=
    if Qlt_bool 30 (momentum_score result)
    then reasons ++ [Text "Bullish momentum building"]
    else if Qlt_bool (momentum_score result) (-30)
    then reasons ++ [Text "Bearish momentum building"]
    else reasons in
  let reasons :=
    if Qlt_bool 30 (spread_bps result)
    then reasons ++
         [Fmt "Wide spread ({:.0f} bps) - low liquidity" [spread_bps result]]
    else reasons in
  let reasons :=
    if Qlt_bool 40 (flow_score result)
    then reasons ++ [Text "Heavy buy flow detected"]
    else if Qlt_bool (flow_score result) (-40)
    then reasons ++ [Text "Heavy sell flow detected"]
    else reasons in
  match reasons with
  | [] => Ok [Text "No strong signals detected"]
  | _ => Ok reasons
  end.

(** The value of one key of [bid_clusters] / [ask_clusters]. *)
Record Cluster : Type := {
  volume : Q;
  count : nat;
  prices : list Q
}.

(** The body of the [if] inside the clustering loop: create the entry when
    the key is new, then add the level to it.  A Python dict keeps its keys
    in insertion order, so the clusters are an association list. *)
Fixpoint cluster_add (cluster_price : Q) (l : OrderBookLevel)
    (clusters : list (Q * Cluster)) : list (Q * Cluster) :=
  match clusters with
  | [] =>
      [(cluster_price,
        {| volume := 0 + value_usd l; count := 0 + 1;
           prices := [] ++ [lvl_price l] |})]
  | (k, c) :: rest =>
      if Qeq_bool k cluster_price then
        (k, {| volume := volume c + value_usd l; count := count c + 1;
               prices := prices c ++ [lvl_price l] |}) :: rest
      else (k, c) :: cluster_add cluster_price l rest
  end.

(** The clustering loop over one side, with [min_distance_pct = 0.0],
    [max_distance_pct = 50.0] and [cluster_threshold_pct = 0.15].  It runs
    under the guard [mid_price != 0] of [_find_liquidity_zones]. *)
Definition collect_clusters (dist : Q -> Q) (mid_price : Q)
    (levels : list OrderBookLevel) : list (Q * Cluster) :=
  fold_left
    (fun clusters l =>
       let distance_pct := dist (lvl_price l) / mid_price * 100 in
       if Qle_bool 0 distance_pct && Qle_bool distance_pct 50 then
         let width := mid_price * 0.15 / 100 in
         let cluster_price :=
           inject_Z (py_round (lvl_price l / width)) * width in
         cluster_add cluster_price l clusters
       else clusters)
    levels [].

(** The loop that turns the clusters of one side into zones. *)
Definition zones_of (zone_side : string) (dist : Q -> Q) (mid_price : Q)
    (clusters : list (Q * Cluster)) : list LiquidityZone :=
  let total_volume :=
    match clusters with
    | [] => 1
    | _ => py_sum (map (fun kc => volume (snd kc)) clusters)
    end in
  map
    (fun kc =>
       let cluster_price := fst kc in
       let data := snd kc in
       let avg_price :=
         match prices data with
         | [] => cluster_price
         | _ => py_sum (prices data)
                / inject_Z (Z.of_nat (length (prices data)))
         end in
       let distance := dist avg_price / mid_price * 100 in
       let major :=
         Qlt_bool (total_volume * 0.2) (volume data)
         || Qlt_bool 100000 (volume data) in
       {| price := avg_price;
          total_volume_usd := volume data;
          side := zone_side;
          distance_pct := distance;
          order_count := count data;
          is_major := major |})
    clusters.

(** [_find_liquidity_zones] with its default keyword arguments. *)
Definition _find_liquidity_zones (bids asks : list OrderBookLevel)
    (mid_price : Q) : list LiquidityZone * list LiquidityZone :=
  if Qeq_bool mid_price 0 then ([], [])
  else
    let bid_dist := fun p => mid_price - p in
    let ask_dist := fun p => p - mid_price in
    let bid_clusters := collect_clusters bid_dist mid_price bids in
    let support_zones := zones_of "bid" bid_dist mid_price bid_clusters in
    let ask_clusters := collect_clusters ask_dist mid_price asks in
    let resistance_zones := zones_of "ask" ask_dist mid_price ask_clusters in
    (sort_desc total_volume_usd support_zones,
     sort_desc total_volume_usd resistance_zones).

(** The scalp half of [_generate_suggestions]. *)
Definition scalp_of (result : SignalResult) : Exn (option TradeSuggestion) :=
  let mid_price := mid_price result in
  if Qle_bool 20 (score result) then
    let stop_distance := py_max (spread_bps result * 3 / 10000) 0.005 in
    let target_distance := stop_distance * 2 in
    Ok (Some {|
      action := "LONG"; mode := "scalp";
      entry_price := mid_price;
      target_price := mid_price * (1 + target_distance);
      stop_price := mid_price * (1 - stop_distance);
      ts_confidence := py_min (confidence result) 80;
      reason := Fmt "Near-price buying pressure ({:.2f}x bid imbalance)"
                    [imbalance_ratio result] |})
  else if Qle_bool (score result) (-20) then
    let stop_distance := py_max (spread_bps result * 3 / 10000) 0.005 in
    let target_distance := stop_distance * 2 in
    inv <- py_div 1 (imbalance_ratio result) ;;
    Ok (Some {|
      action := "SHORT"; mode := "scalp";
      entry_price := mid_price;
      target_price := mid_price * (1 - target_distance);
      stop_price := mid_price * (1 + stop_distance);
      ts_confidence := py_min (confidence result) 80;
      reason := Fmt "Near-price selling pressure ({:.2f}x ask imbalance)"
                    [inv] |})
  else Ok None.

(** The reversal half of [_generate_suggestions]. *)
Definition reversal_of (result : SignalResult) : option TradeSuggestion :=
  let mid_price := mid_price result in
  let major_supports := List.filter is_major (support_zones result) in
  let major_resistances := List.filter is_major (resistance_zones result) in
  let reversal :=
    match major_supports with
    | best_support :: _ =>
        if Qlt_bool (distance_pct best_support) 10 then
          let target_price :=
            match major_resistances with
            | r0 :: _ => price r0
            | [] => mid_price * (1 + distance_pct best_support / 100)
            end in
          Some {|
            action := "LONG"; mode := "reversal";
            entry_price := price best_support;
            target_price := target_price;
            stop_price := price best_support * 0.97;
            ts_confidence :=
              py_min 70 (total_volume_usd best_support / 10000);
            reason := Fmt "Major support zone at ${:.6f} (${:,.0f} in bids)"
                          [price best_support;
                           total_volume_usd best_support] |}
        else None
    | [] => None
    end in
  match major_resistances, reversal with
  | best_resistance :: _, None =>
      if Qlt_bool (distance_pct best_resistance) 10 then
        let target_price :=
          match major_supports with
          | s0 :: _ => price s0
          | [] => mid_price * (1 - distance_pct best_resistance / 100)
          end in
        Some {|
          action := "SHORT"; mode := "reversal";
          entry_price := price best_resistance;
          target_price := target_price;
          stop_price := price best_resistance * 1.03;
          ts_confidence :=
            py_min 70 (total_volume_usd best_resistance / 10000);
          reason := Fmt "Major resistance zone at ${:.6f} (${:,.0f} in asks)"
                        [price best_resistance;
                         total_volume_usd best_resistance] |}
      else reversal
  | _, _ => reversal
  end.

(** [_generate_suggestions]: returns (scalp, reversal).  The book arguments
    are unused by the source. *)
Definition _generate_suggestions (result : SignalResult)
    (bids asks : list OrderBookLevel)
  : Exn (option TradeSuggestion * option TradeSuggestion) :=
  if Qeq_bool (mid_price result) 0 then Ok (None, None)
  else
    scalp <- scalp_of result ;;
    Ok (scalp, reversal_of result).

Definition with_suggestions (r : SignalResult)
    (scalp reversal : option TradeSuggestion) : SignalResult := {|
  signal := signal r; confidence := confidence r; score := score r;
  imbalance_score := imbalance_score r;
  weighted_pressure_score := weighted_pressure_score r;
  wall_score := wall_score r; spread_score := spread_score r;
  flow_score := flow_score r; momentum_score := momentum_score r;
  bid_volume := bid_volume r; ask_volume := ask_volume r;
  imbalance_ratio := imbalance_ratio r; spread_bps := spread_bps r;
  largest_bid_usd := largest_bid_usd r; largest_ask_usd := largest_ask_usd r;
  mid_price := mid_price r;
  support_zones := support_zones r; resistance_zones := resistance_zones r;
  scalp_suggestion := scalp; reversal_suggestion := reversal;
  reasons := reasons r
|}.

Definition with_reasons (r : SignalResult) (rs : list Message)
  : SignalResult := {|
  signal := signal r; confidence := confidence r; score := score r;
  imbalance_score := imbalance_score r;
  weighted_pressure_score := weighted_pressure_score r;
  wall_score := wall_score r; spread_score := spread_score r;
  flow_score := flow_score r; momentum_score := momentum_score r;
  bid_volume := bid_volume r; ask_volume := ask_volume r;
  imbalance_ratio := imbalance_ratio r; spread_bps := spread_bps r;
  largest_bid_usd := largest_bid_usd r; largest_ask_usd := largest_ask_usd r;
  mid_price := mid_price r;
  support_zones := support_zones r; resistance_zones := resistance_zones r;
  scalp_suggestion := scalp_suggestion r;
  reversal_suggestion := reversal_suggestion r;
  reasons := rs
|}.

(** [self.imbalance_history.append(ratio)]. *)
Definition push_history (self : SignalEngine) (ratio : Q) : SignalEngine := {|
  symbol := symbol self;
  imbalance_history := deque_append 60 (imbalance_history self) ratio;
  trade_deltas := trade_deltas self;
  cumulative_delta := cumulative_delta self
|}.

(** The two reasons [analyze] appends for the leading zones. *)
Definition zone_reasons (result : SignalResult) : list Message :=
  (match support_zones result with
   | z :: _ =>
       if is_major z
       then [Fmt "Major support at ${:.6f} ({:.1f}% below)"
                 [price z; distance_pct z]]
       else []
   | [] => []
   end)
  ++
  (match resistance_zones result with
   | z :: _ =>
       if is_major z
       then [Fmt "Major resistance at ${:.6f} ({:.1f}% above)"
                 [price z; distance_pct z]]
       else []
   | [] => []
   end).

Section Analyze.

Variable exp : Q -> Q.

(** [SignalEngine.analyze]: the engine after the call, and the result or
    the exception the call ends with.  [recent_trades] is [None] for the
    Python default. *)
Definition analyze (self : SignalEngine) (bids asks : list OrderBookLevel)
    (recent_trades : option (list (Q * string)))
  : SignalEngine * Exn SignalResult :=
  match bids, asks with
  | [], _ | _, [] => (self, Ok (default_result [Text "Insufficient data"]))
  | b0 :: _, a0 :: _ =>
      let mid := (lvl_price b0 + lvl_price a0) / 2 in
      let '(imb_score, bid_vol, ask_vol, ratio) := _calc_imbalance bids asks in
      match _calc_weighted_pressure exp bids asks mid with
      | Raise e => (self, Raise e)
      | Ok pressure =>
      let '(wall, largest_bid, largest_ask) :=
        _calc_wall_score bids asks bid_vol ask_vol in
      match _calc_spread_score bids asks with
      | Raise e => (self, Raise e)
      | Ok (spread, bps) =>
      let '(self, flow) :=
        match recent_trades with
        | Some (t :: ts) => _calc_flow_score self (t :: ts)
        | _ => (self, 0)
        end in
      let self := push_history self ratio in
      let momentum := _calc_momentum self in
      let total :=
        imb_score * w_imbalance +
        pressure * w_weighted_pressure +
        wall * w_walls +
        spread * w_spread +
        flow * w_flow +
        momentum * w_momentum in
      let '(sig, conf) := _score_to_signal total in
      let '(supports, resistances) := _find_liquidity_zones bids asks mid in
      let result := {|
        signal := sig; confidence := conf; score := total;
        imbalance_score := imb_score;
        weighted_pressure_score := pressure;
        wall_score := wall; spread_score := spread;
        flow_score := flow; momentum_score := momentum;
        bid_volume := bid_vol; ask_volume := ask_vol;
        imbalance_ratio := ratio; spread_bps := bps;
        largest_bid_usd := largest_bid; largest_ask_usd := largest_ask;
        mid_price := mid;
        support_zones := supports; resistance_zones := resistances;
        scalp_suggestion := None; reversal_suggestion := None;
        reasons := [] |} in
      match _generate_suggestions result bids asks with
      | Raise e => (self, Raise e)
      | Ok (scalp, reversal) =>
      let result := with_suggestions result scalp reversal in
      match _generate_reasons result with
      | Raise e => (self, Raise e)
      | Ok rs =>
      let result := with_reasons result rs in
      (self, Ok (with_reasons result (reasons result ++ zone_reasons result)))
      end end end end
  end.

End Analyze.

(** A rational stand-in for [math.exp], positive everywhere, for running
    the engine on concrete books: 1 + x + x^2/2 for x >= 0 and its
    reciprocal at -x for x < 0. *)
Definition exp_approx (x : Q) : Q :=
  if Qle_bool 0 x then 1 + x + x * x / 2
  else 1 / (1 - x + x * x / 2).

End Signals.

(** ** bingx_client.py: the book and trade records of the adapters

    hyperliquid_client.py declares the same records with the same derived
    properties, and blofin_client.py imports these; one copy serves all
    three adapters. *)

Module BingX.

Record OrderBookLevel : Type := {
  price : Q;
  quantity : Q
}.

Definition value_usd (l : OrderBookLevel) : Q := price l * quantity l.

Record OrderBook : Type := {
  symbol : string;
  bids : list OrderBookLevel;
  asks : list OrderBookLevel;
  timestamp : Q
}.

Definition bid_total_usd (ob : OrderBook) : Q :=
  py_sum (map value_usd (firstn 20 (bids ob))).

Definition ask_total_usd (ob : OrderBook) : Q :=
  py_sum (map value_usd (firstn 20 (asks ob))).

Definition imbalance_ratio (ob : OrderBook) : Q :=
  if Qeq_bool (ask_total_usd ob) 0 then 1
  else bid_total_usd ob / ask_total_usd ob.

Definition spread_pct (ob : OrderBook) : Exn Q :=
  match bids ob, asks ob with
  | b0 :: _, a0 :: _ =>
      q <- py_div (price a0 - price b0) (price b0) ;;
      Ok (q * 100)
  | _, _ => Ok 0
  end.

Record Trade : Type := {
  t_symbol : string;
  t_price : Q;
  t_quantity : Q;
  t_side : string;
  t_timestamp : Q
}.

Definition t_value_usd (t : Trade) : Q := t_price t * t_quantity t.

End BingX.

(** ** config.py *)

Module Config.

Definition MEME_COINS : list string := [
  "WIF-USDT"; "1000PEPE-USDT"; "1000BONK-USDT"; "DOGE-USDT"; "SHIB-USDT";
  "FLOKI-USDT"; "MEME-USDT"; "BRETT-USDT"; "POPCAT-USDT"; "GOAT-USDT";
  "PNUT-USDT"; "FARTCOIN-USDT"; "SPX-USDT"; "1000000MOG-USDT";
  "NEIROCTO-USDT"
]%string.

Record WhaleThresholds : Type := {
  large_order_usd : Q;
  whale_order_usd : Q;
  imbalance_ratio : Q
}.

Definition THRESHOLDS : WhaleThresholds := {|
  large_order_usd := 10000;
  whale_order_usd := 50000;
  imbalance_ratio := 1.5
|}.

End Config.

(** ** analyzer.py *)

Module Analyzer.

Import Config.

Record WhaleAlert : Type := {
  symbol : string;
  alert_type : string;
  side : string;
  value_usd : Q;
  price : Q;
  timestamp : Q;
  details : Message
}.

Record SymbolStats : Type := {
  s_symbol : string;
  last_price : Q;
  bid_volume_usd : Q;
  ask_volume_usd : Q;
  imbalance_ratio : Q;
  spread_pct : Q;
  buy_volume_1m : Q;
  sell_volume_1m : Q;
  largest_bid : option BingX.OrderBookLevel;
  largest_ask : option BingX.OrderBookLevel;
  last_update : Q
}.

(** [SymbolStats(symbol=s)]. *)
Definition new_stats (s : string) : SymbolStats := {|
  s_symbol := s; last_price := 0; bid_volume_usd := 0; ask_volume_usd := 0;
  imbalance_ratio := 1; spread_pct := 0;
  buy_volume_1m := 0; sell_volume_1m := 0;
  largest_bid := None; largest_ask := None; last_update := 0
|}.

(** The ["pressure"] entry of [SymbolStats.to_dict] (and of
    [CoinWatcher.get_stats]). *)
Definition pressure (st : SymbolStats) : string :=
  if Qlt_bool 1.2 (imbalance_ratio st) then "BUY"
  else if Qlt_bool (imbalance_ratio st) 0.8 then "SELL"
  else "NEUTRAL".

(** The mutable fields of an [OrderFlowAnalyzer]. *)
Record OrderFlowAnalyzer : Type := {
  stats : gmap string SymbolStats;
  alerts : list WhaleAlert;                   (* deque(maxlen=500) *)
  recent_trades : gmap string (list BingX.Trade)  (* deque(maxlen=100) each *)
}.

(** [OrderFlowAnalyzer(symbols)]: an empty list stands for the default
    list of coins.  The adapter the constructor creates is the source of
    the events of [run] below. *)
Definition new_analyzer (symbols : list string) : OrderFlowAnalyzer :=
  let symbols := match symbols with [] => MEME_COINS | _ => symbols end in
  {| stats := list_to_map (map (fun s => (s, new_stats s)) symbols);
     alerts := [];
     recent_trades := list_to_map (map (fun s => (s, [])) symbols) |}.

Definition set_alerts (self : OrderFlowAnalyzer) (al : list WhaleAlert)
  : OrderFlowAnalyzer :=
  {| stats := stats self; alerts := al; recent_trades := recent_trades self |}.

Definition set_stats (self : OrderFlowAnalyzer) (sym : string)
    (st : SymbolStats) : OrderFlowAnalyzer :=
  {| stats := <[sym := st]> (stats self); alerts := alerts self;
     recent_trades := recent_trades self |}.

(** The dedup test of [_emit_alert]. *)
Definition is_duplicate (now : Q) (last alert : WhaleAlert) : bool :=
  String.eqb (symbol last) (symbol alert)
  && String.eqb (alert_type last) (alert_type alert)
  && String.eqb (side last) (side alert)
  && Qlt_bool (now - timestamp last) 5.

(** [_emit_alert]: the analyzer after the call and the alerts handed to
    the listener ([on_alert]), none when the alert is suppressed. *)
Definition _emit_alert (now : Q) (alert : WhaleAlert)
    (self : OrderFlowAnalyzer) : OrderFlowAnalyzer * list WhaleAlert :=
  match last (alerts self) with
  | Some l =>
      if is_duplicate now l alert then (self, [])
      else (set_alerts self (deque_append 500 (alerts self) alert), [alert])
  | None =>
      (set_alerts self (deque_append 500 (alerts self) alert), [alert])
  end.

(** What a handler leaves behind: the analyzer, the alerts handed to the
    listener in order, and the exception that ended the handler, if any. *)
Definition Outcome : Type :=
  (OrderFlowAnalyzer * list WhaleAlert * option PyError)%type.

(** Sequencing of two steps of a handler. *)
Definition and_then (first : Outcome) (next : OrderFlowAnalyzer -> Outcome)
  : Outcome :=
  match first with
  | (self, out, Some e) => (self, out, Some e)
  | (self, out, None) =>
      let '(self', out', err) := next self in (self', out ++ out', err)
  end.

Definition emit (now : Q) (alert : WhaleAlert) (self : OrderFlowAnalyzer)
  : Outcome :=
  let '(self', out) := _emit_alert now alert self in (self', out, None).

Definition skip (self : OrderFlowAnalyzer) : Outcome := (self, [], None).

(** [_update_volume_stats]. *)
Definition _update_volume_stats (now : Q) (sym : string)
    (self : OrderFlowAnalyzer) : OrderFlowAnalyzer :=
  match recent_trades self !! sym with
  | None => self
  | Some trades =>
      let cutoff := now - 60 in
      let vol (sd : string) :=
        py_sum (map BingX.t_value_usd
          (List.filter (fun t => Qlt_bool cutoff (BingX.t_timestamp t)
                            && String.eqb (BingX.t_side t) sd) trades)) in
      let buy_vol := vol "buy" in
      let sell_vol := vol "sell" in
      match stats self !! sym with
      | None => self
      | Some st =>
          set_stats self sym {|
            s_symbol := s_symbol st; last_price := last_price st;
            bid_volume_usd := bid_volume_usd st;
            ask_volume_usd := ask_volume_usd st;
            imbalance_ratio := imbalance_ratio st;
            spread_pct := spread_pct st;
            buy_volume_1m := buy_vol; sell_volume_1m := sell_vol;
            largest_bid := largest_bid st; largest_ask := largest_ask st;
            last_update := last_update st |}
      end
  end.

(** [_handle_trade]. *)
Definition _handle_trade (now : Q) (trade : BingX.Trade)
    (self : OrderFlowAnalyzer) : Outcome :=
  let sym := BingX.t_symbol trade in
  let self :=
    match recent_trades self !! sym with
    | Some d =>
        {| stats := stats self; alerts := alerts self;
           recent_trades :=
             <[sym := deque_append 100 d trade]> (recent_trades self) |}
    | None => self
    end in
  let self := _update_volume_stats now sym self in
  let value := BingX.t_value_usd trade in
  if Qle_bool (whale_order_usd THRESHOLDS) value then
    emit now {|
      symbol := sym; alert_type := "whale_trade";
      side := BingX.t_side trade; value_usd := value;
      price := BingX.t_price trade; timestamp := BingX.t_timestamp trade;
      details := FmtS "WHALE {}: ${:,.0f}"
                      [py_upper (BingX.t_side trade)] [value] |} self
  else if Qle_bool (large_order_usd THRESHOLDS) value then
    emit now {|
      symbol := sym; alert_type := "large_trade";
      side := BingX.t_side trade; value_usd := value;
      price := BingX.t_price trade; timestamp := BingX.t_timestamp trade;
      details := FmtS "Large {}: ${:,.0f}" [BingX.t_side trade] [value] |} self
  else skip self.

(** [_detect_walls]. *)
Definition _detect_walls (now : Q) (sym : string) (st : SymbolStats)
    (self : OrderFlowAnalyzer) : Outcome :=
  and_then
    (match largest_bid st with
     | Some l =>
         if Qle_bool (whale_order_usd THRESHOLDS) (BingX.value_usd l) then
           emit now {|
             symbol := sym; alert_type := "wall_detected"; side := "buy";
             value_usd := BingX.value_usd l; price := BingX.price l;
             timestamp := now;
             details := Fmt "BUY WALL: ${:,.0f} @ {}"
                            [BingX.value_usd l; BingX.price l] |} self
         else skip self
     | None => skip self
     end)
    (fun self =>
       match largest_ask st with
       | Some l =>
           if Qle_bool (whale_order_usd THRESHOLDS) (BingX.value_usd l) then
             emit now {|
               symbol := sym; alert_type := "wall_detected"; side := "sell";
               value_usd := BingX.value_usd l; price := BingX.price l;
               timestamp := now;
               details := Fmt "SELL WALL: ${:,.0f} @ {}"
                              [BingX.value_usd l; BingX.price l] |} self
           else skip self
       | None => skip self
       end).

(** [_detect_imbalance]. *)
Definition _detect_imbalance (now : Q) (sym : string) (st : SymbolStats)
    (self : OrderFlowAnalyzer) : Outcome :=
  if Qle_bool (Config.imbalance_ratio THRESHOLDS) (imbalance_ratio st) then
    emit now {|
      symbol := sym; alert_type := "imbalance"; side := "buy";
      value_usd := bid_volume_usd st; price := last_price st;
      timestamp := now;
      details := Fmt "BUY PRESSURE: {:.1f}x more bids than asks"
                     [imbalance_ratio st] |} self
  else if Qle_bool (imbalance_ratio st)
                   (1 / Config.imbalance_ratio THRESHOLDS) then
    match py_div 1 (imbalance_ratio st) with
    | Raise e => (self, [], Some e)
    | Ok inv =>
        emit now {|
          symbol := sym; alert_type := "imbalance"; side := "sell";
          value_usd := ask_volume_usd st; price := last_price st;
          timestamp := now;
          details := Fmt "SELL PRESSURE: {:.1f}x more asks than bids"
                         [inv] |} self
    end
  else skip self.

(** The first three assignments of [_handle_orderbook]. *)
Definition with_totals (st : SymbolStats) (ob : BingX.OrderBook)
  : SymbolStats := {|
  s_symbol := s_symbol st; last_price := last_price st;
  bid_volume_usd := BingX.bid_total_usd ob;
  ask_volume_usd := BingX.ask_total_usd ob;
  imbalance_ratio := BingX.imbalance_ratio ob;
  spread_pct := spread_pct st;
  buy_volume_1m := buy_volume_1m st; sell_volume_1m := sell_volume_1m st;
  largest_bid := largest_bid st; largest_ask := largest_ask st;
  last_update := last_update st
|}.

(** The remaining assignments to the stats, up to the wall detection. *)
Definition with_book (st : SymbolStats) (ob : BingX.OrderBook)
    (spread now : Q) : SymbolStats := {|
  s_symbol := s_symbol st;
  last_price :=
    match BingX.bids ob with b0 :: _ => BingX.price b0 | [] => last_price st end;
  bid_volume_usd := bid_volume_usd st;
  ask_volume_usd := ask_volume_usd st;
  imbalance_ratio := imbalance_ratio st;
  spread_pct := spread;
  buy_volume_1m := buy_volume_1m st; sell_volume_1m := sell_volume_1m st;
  largest_bid :=
    match py_max_by BingX.value_usd (BingX.bids ob) with
    | Some l => Some l
    | None => largest_bid st
    end;
  largest_ask :=
    match py_max_by BingX.value_usd (BingX.asks ob) with
    | Some l => Some l
    | None => largest_ask st
    end;
  last_update := now
|}.

(** [_handle_orderbook].  The stats object is updated in place, so an
    exception leaves the assignments made before it.  The call of the
    stats listener at the end is output only and is left out. *)
Definition _handle_orderbook (now : Q) (ob : BingX.OrderBook)
    (self : OrderFlowAnalyzer) : Outcome :=
  let sym := BingX.symbol ob in
  match stats self !! sym with
  | None => skip self
  | Some st =>
      let st := with_totals st ob in
      match BingX.spread_pct ob with
      | Raise e => (set_stats self sym st, [], Some e)
      | Ok spread =>
          let st := with_book st ob spread now in
          let self := set_stats self sym st in
          and_then (_detect_walls now sym st self)
                   (_detect_imbalance now sym st)
      end
  end.

(** The events an adapter delivers, and the analyzer run over a timed
    sequence of them.  The adapter's [_call_handler] catches whatever a
    handler raises, so the run goes on with the state the handler left. *)
Inductive Event : Type :=
| BookEvent (ob : BingX.OrderBook)
| TradeEvent (t : BingX.Trade).

Definition handle (now : Q) (ev : Event) (self : OrderFlowAnalyzer)
  : Outcome :=
  match ev with
  | BookEvent ob => _handle_orderbook now ob self
  | TradeEvent t => _handle_trade now t self
  end.

(** The alerts emitted over a run, each with the clock of its emission. *)
Fixpoint run (events : list (Q * Event)) (self : OrderFlowAnalyzer)
  : OrderFlowAnalyzer * list (Q * WhaleAlert) :=
  match events with
  | [] => (self, [])
  | (now, ev) :: rest =>
      let '(self', out, _) := handle now ev self in
      let '(self'', trace) := run rest self' in
      (self'', map (fun a => (now, a)) out ++ trace)
  end.

Definition same_triple (a b : WhaleAlert) : bool :=
  String.eqb (symbol a) (symbol b)
  && String.eqb (alert_type a) (alert_type b)
  && String.eqb (side a) (side b).

End Analyzer.

(** ** exchanges.py: the contract catalog *)

Module Exchanges.

Record PerpContract : Type := {
  symbol : string;
  base_coin : string;
  quote_coin : string;
  exchange : string;
  list_time : Z;
  max_leverage : Z;
  min_size : Q;
  api_enabled : bool
}.

(** [ExchangeDiscovery.contracts], keyed by ["exchange:symbol"]. *)
Definition Catalog : Type := gmap string PerpContract.

(** [ExchangeDiscovery.get_contract]. *)
Definition get_contract (contracts : Catalog) (exch sym : string)
  : option PerpContract :=
  contracts !! (exch +:+ ":" +:+ sym).

End Exchanges.

(** ** server_v2.py: the per-coin watcher and the watch endpoints *)

Module Server.

(** The adapter a watcher holds. *)
Inductive Client : Type :=
| BingXWebSocket (symbols : list string)
| HyperliquidWebSocket (symbols : list string).

Record CoinWatcher : Type := {
  exchange : string;
  symbol : string;
  key : string;
  client : option Client;
  stats : option Analyzer.SymbolStats;
  signal_engine : option Signals.SignalEngine;
  last_signal : option Signals.SignalResult;
  recent_trades : list (Q * string * Q);   (* (value_usd, side, time) *)
  running : bool;
  last_update : Q;
  last_orderbook_bids : list Signals.OrderBookLevel;
  last_orderbook_asks : list Signals.OrderBookLevel
}.

(** [CoinWatcher(exchange, symbol)]. *)
Definition new_watcher (exch sym : string) : CoinWatcher := {|
  exchange := exch; symbol := sym; key := exch +:+ ":" +:+ sym;
  client := None; stats := None; signal_engine := None;
  last_signal := None; recent_trades := []; running := false;
  last_update := 0; last_orderbook_bids := []; last_orderbook_asks := []
|}.

(** [CoinWatcher.start]: the fields it assigns.  The task it creates runs
    [_run_client] below. *)
Definition start (w : CoinWatcher) : CoinWatcher :=
  if running w then w
  else {|
    exchange := exchange w; symbol := symbol w; key := key w;
    client :=
      if String.eqb (exchange w) "bingx"
      then Some (BingXWebSocket [symbol w])
      else if String.eqb (exchange w) "hyperliquid"
      then Some (HyperliquidWebSocket [symbol w])
      else client w;
    stats := Some (Analyzer.new_stats (symbol w));
    signal_engine := Some (Signals.new_engine (symbol w));
    last_signal := last_signal w;
    recent_trades := [];
    running := true;
    last_update := last_update w;
    last_orderbook_bids := last_orderbook_bids w;
    last_orderbook_asks := last_orderbook_asks w
  |}.

(** [CoinWatcher.stop]. *)
Definition stop (w : CoinWatcher) : CoinWatcher := {|
  exchange := exchange w; symbol := symbol w; key := key w;
  client := client w; stats := stats w; signal_engine := signal_engine w;
  last_signal := last_signal w; recent_trades := recent_trades w;
  running := false;
  last_update := last_update w;
  last_orderbook_bids := last_orderbook_bids w;
  last_orderbook_asks := last_orderbook_asks w
|}.

(** The assignments of [_on_orderbook] before the signal analysis. *)
Definition store_book (w : CoinWatcher) (st : Analyzer.SymbolStats)
    (ob : BingX.OrderBook) : CoinWatcher := {|
  exchange := exchange w; symbol := symbol w; key := key w;
  client := client w; stats := Some st; signal_engine := signal_engine w;
  last_signal := last_signal w; recent_trades := recent_trades w;
  running := running w; last_update := last_update w;
  last_orderbook_bids :=
    map (fun b => {| Signals.lvl_price := BingX.price b;
                     Signals.quantity := BingX.quantity b |}) (BingX.bids ob);
  last_orderbook_asks :=
    map (fun a => {| Signals.lvl_price := BingX.price a;
                     Signals.quantity := BingX.quantity a |}) (BingX.asks ob)
|}.

(** The assignments of the signal analysis block and the one after it. *)
Definition store_analysis (w : CoinWatcher) (trades : list (Q * string * Q))
    (engine : Signals.SignalEngine) (sig : option Signals.SignalResult)
    (updated : Q) : CoinWatcher := {|
  exchange := exchange w; symbol := symbol w; key := key w;
  client := client w; stats := stats w; signal_engine := Some engine;
  last_signal := sig; recent_trades := trades;
  running := running w; last_update := updated;
  last_orderbook_bids := last_orderbook_bids w;
  last_orderbook_asks := last_orderbook_asks w
|}.

Definition set_last_update (w : CoinWatcher) (updated : Q) : CoinWatcher := {|
  exchange := exchange w; symbol := symbol w; key := key w;
  client := client w; stats := stats w; signal_engine := signal_engine w;
  last_signal := last_signal w; recent_trades := recent_trades w;
  running := running w; last_update := updated;
  last_orderbook_bids := last_orderbook_bids w;
  last_orderbook_asks := last_orderbook_asks w
|}.

Definition set_stats (w : CoinWatcher) (st : Analyzer.SymbolStats)
  : CoinWatcher := {|
  exchange := exchange w; symbol := symbol w; key := key w;
  client := client w; stats := Some st; signal_engine := signal_engine w;
  last_signal := last_signal w; recent_trades := recent_trades w;
  running := running w; last_update := last_update w;
  last_orderbook_bids := last_orderbook_bids w;
  last_orderbook_asks := last_orderbook_asks w
|}.

Section Watcher.

Variable exp : Q -> Q.

(** [CoinWatcher._on_orderbook]: the watcher after the call and the
    exception that ended it, if any.  Its assignments to the stats are
    those of the analyzer's [_handle_orderbook], so [with_totals] and
    [with_book] serve here too.  The entries of [recent_trades] are
    always the triples [_on_trade] appends, so the length test of the
    source holds whenever the list is non-empty.  The broadcast to the
    connected clients is output only and is left out. *)
Definition _on_orderbook (now : Q) (ob : BingX.OrderBook) (w : CoinWatcher)
  : CoinWatcher * option PyError :=
  match stats w with
  | None => (w, Some AttributeError)
  | Some st =>
      let st := Analyzer.with_totals st ob in
      match BingX.spread_pct ob with
      | Raise e => (set_stats w st, Some e)
      | Ok spread =>
          let st := Analyzer.with_book st ob spread now in
          let w := store_book w st ob in
          match signal_engine w with
          | Some engine =>
              let cutoff := now - 60 in
              let trades :=
                List.filter (fun x => Qlt_bool cutoff (snd x)) (recent_trades w) in
              let trade_data :=
                match trades with
                | [] => None
                | _ => Some (map fst trades)
                end in
              match Signals.analyze exp engine (last_orderbook_bids w)
                      (last_orderbook_asks w) trade_data with
              | (engine', Raise e) =>
                  (store_analysis w trades engine' (last_signal w)
                     (last_update w), Some e)
              | (engine', Ok result) =>
                  (store_analysis w trades engine' (Some result) now, None)
              end
          | None => (set_last_update w now, None)
          end
      end
  end.

(** [CoinWatcher._on_trade].  The alert broadcast for trades of 10,000 and
    more is output only and is left out. *)
Definition _on_trade (now : Q) (trade : BingX.Trade) (w : CoinWatcher)
  : CoinWatcher * option PyError :=
  let trades := recent_trades w ++ [(BingX.t_value_usd trade,
                                     BingX.t_side trade, now)] in
  let trades :=
    if Nat.ltb 100 (length trades) then last_n 100 trades else trades in
  ({| exchange := exchange w; symbol := symbol w; key := key w;
      client := client w; stats := stats w;
      signal_engine := signal_engine w;
      last_signal := last_signal w; recent_trades := trades;
      running := running w; last_update := last_update w;
      last_orderbook_bids := last_orderbook_bids w;
      last_orderbook_asks := last_orderbook_asks w |}, None).

(** One event delivered through the adapter's [_call_handler], which
    catches whatever the handler raises. *)
Definition deliver (w : CoinWatcher) (timed : Q * Analyzer.Event)
  : CoinWatcher :=
  match snd timed with
  | Analyzer.BookEvent ob => fst (_on_orderbook (fst timed) ob w)
  | Analyzer.TradeEvent t => fst (_on_trade (fst timed) t w)
  end.

(** [CoinWatcher._run_client] for a connection that delivers [events] and
    is then lost: whether [client.run()] returns or raises, the [finally]
    clause clears [running] and the task ends. *)
Definition _run_client (events : list (Q * Analyzer.Event)) (w : CoinWatcher)
  : CoinWatcher :=
  stop (fold_left deliver events w).

End Watcher.

(** The module globals [active_watchers] and [discovery.contracts]. *)
Record ServerState : Type := {
  active_watchers : gmap string CoinWatcher;
  contracts : Exchanges.Catalog
}.

(** A JSON object with text values. *)
Definition Json : Type := list (string * string).

(** [start_watching], the handler of POST /api/watch/{exchange}/{symbol}. *)
Definition start_watching (exch sym : string) (st : ServerState)
  : ServerState * Json :=
  let key := exch +:+ ":" +:+ sym in
  match active_watchers st !! key with
  | Some _ => (st, [("status", "already_watching"); ("key", key)])
  | None =>
      match Exchanges.get_contract (contracts st) exch sym with
      | None => (st, [("status", "error"); ("message", "Contract not found")])
      | Some _ =>
          let watcher := start (new_watcher exch sym) in
          ({| active_watchers := <[key := watcher]> (active_watchers st);
              contracts := contracts st |},
           [("status", "watching"); ("key", key)])
      end
  end.

(** [stop_watching], the handler of DELETE /api/watch/{exchange}/{symbol}. *)
Definition stop_watching (exch sym : string) (st : ServerState)
  : ServerState * Json :=
  let key := exch +:+ ":" +:+ sym in
  match active_watchers st !! key with
  | None => (st, [("status", "not_watching")])
  | Some _ =>
      ({| active_watchers := delete key (active_watchers st);
          contracts := contracts st |},
       [("status", "stopped"); ("key", key)])
  end.

(** Truth value of [msg.get(k)] for a text value. *)
Definition truthy (v : option string) : bool :=
  match v with
  | None | Some EmptyString => false
  | Some _ => true
  end.

(** [f"{v}"] for [v = msg.get(k)]. *)
Definition fmt_opt (v : option string) : string :=
  match v with Some s => s | None => "None" end.

(** The command dispatch inside the loop of [websocket_endpoint], for one
    decoded message [msg]: the state after it and the frames sent back. *)
Definition ws_command (msg : gmap string string) (st : ServerState)
  : ServerState * list Json :=
  if decide (msg !! "action" = Some "watch") then
    let exch := msg !! "exchange" in
    let sym := msg !! "symbol" in
    if truthy exch && truthy sym then
      let key := fmt_opt exch +:+ ":" +:+ fmt_opt sym in
      let st :=
        match active_watchers st !! key with
        | None =>
            let watcher := start (new_watcher (fmt_opt exch) (fmt_opt sym)) in
            {| active_watchers := <[key := watcher]> (active_watchers st);
               contracts := contracts st |}
        | Some _ => st
        end in
      (st, [[("type", "watching"); ("key", key)]])
    else (st, [])
  else if decide (msg !! "action" = Some "unwatch") then
    let key := fmt_opt (msg !! "exchange") +:+ ":" +:+ fmt_opt (msg !! "symbol") in
    let st :=
      match active_watchers st !! key with
      | Some _ =>
          {| active_watchers := delete key (active_watchers st);
             contracts := contracts st |}
      | None => st
      end in
    (st, [[("type", "unwatched"); ("key", key)]])
  else (st, []).

(** What [json.loads] makes of a received text frame. *)
Inductive Frame : Type :=
| NotJson
    (** text that is no JSON document, the bare word ping for one:
        [json.loads] raises *)
| NotObject
    (** a JSON list, text, number, true, false or null: it has no [get] *)
| Object (msg : gmap string string)
    (** a JSON object, with text under the keys the loop reads *).

(** What one turn of the loop of [websocket_endpoint] meets. *)
Inductive WsEvent : Type :=
| Received (frame : Frame)
| TimedOut       (** 30 seconds without a frame *)
| Disconnected   (** [WebSocketDisconnect] *).

(** How the handler stands after some events: still in its loop, or left,
    quietly on a disconnect and with the exception that went through it
    otherwise. *)
Inductive WsStatus : Type :=
| Waiting
| Left (err : option PyError).

(** The body of the loop for one received frame: only
    [asyncio.TimeoutError] is caught around it, so what [json.loads] or
    [msg.get] raises leaves the loop. *)
Definition ws_receive (frame : Frame) (st : ServerState)
  : ServerState * list Json * option PyError :=
  match frame with
  | NotJson => (st, [], Some JSONDecodeError)
  | NotObject => (st, [], Some AttributeError)
  | Object msg => let '(st', out) := ws_command msg st in (st', out, None)
  end.

(** The loop of [websocket_endpoint] over what a connection delivers: the
    state, the frames sent back and the status of the handler.  The init
    frame sent before the loop and the list of connected clients are left
    out. *)
Fixpoint ws_loop (events : list WsEvent) (st : ServerState)
  : ServerState * list Json * WsStatus :=
  match events with
  | [] => (st, [], Waiting)
  | Received frame :: rest =>
      match ws_receive frame st with
      | (st', out, Some e) => (st', out, Left (Some e))
      | (st', out, None) =>
          let '(st'', out', status) := ws_loop rest st' in
          (st'', out ++ out', status)
      end
  | TimedOut :: rest =>
      let '(st', out, status) := ws_loop rest st in
      (st', [("type", "heartbeat")] :: out, status)
  | Disconnected :: _ => (st, [], Left None)
  end.

End Server.

(** ** The reference definition of the imbalance score *)

(** The imbalance score as the specification words it: B and A are the
    sums of price times quantity over the first 20 bids and asks, r is B/A
    except r = 2.0 when A = 0 and r = 0.5 when B = 0 and A is not, and the
    score is min(100, (r-1)*50) for r >= 1 and max(-100, (r-1)*100) for
    r < 1. *)
Module ImbalanceSpec.

Definition top20_value (levels : list Signals.OrderBookLevel) : Q :=
  fold_right (fun l acc => Signals.lvl_price l * Signals.quantity l + acc) 0 (firstn 20 levels).

Definition ratio (B A : Q) : Q :=
  if Qeq_bool A 0 then 2
  else if Qeq_bool B 0 then 1 # 2
  else B / A.

Definition score_of_ratio (r : Q) : Q :=
  if Qle_bool 1 r then Qmin 100 ((r - 1) * 50)
  else Qmax (-100) ((r - 1) * 100).

Definition imbalance_score (bids asks : list Signals.OrderBookLevel) : Q :=
  score_of_ratio (ratio (top20_value bids) (top20_value asks)).

End ImbalanceSpec.

(** ** analyzer.py: the queries of the analyzer *)

Module AnalyzerApi.

Import Analyzer.

(** [xs[start:]] for an integer [start]: a negative start counts from the
    end and stops at the beginning; a start beyond the end gives the empty
    list. *)
Definition py_slice_from {A} (start : Z) (xs : list A) : list A :=
  let n := Z.of_nat (length xs) in
  let first :=
    if (start <? 0)%Z then Z.max 0 (n + start) else Z.min start n in
  skipn (Z.to_nat first) xs.

Section Rendering.

(** [WhaleAlert.to_dict] and [SymbolStats.to_dict]: the rendering of a
    record as a dict, which formats the timestamp in local time. *)
Variable D : Type.
Variable alert_to_dict : WhaleAlert -> D.

(** [get_recent_alerts(limit)]. *)
Definition get_recent_alerts (limit : Z) (self : OrderFlowAnalyzer)
  : list D :=
  let recent := py_slice_from (- limit) (alerts self) in
  map alert_to_dict (rev recent).

End Rendering.

End AnalyzerApi.

(** ** exchanges.py: the discovery object and its queries *)

Module Discovery.

Import Exchanges.

(** A Python dict from keys to contracts, in insertion order. *)
Definition Dict : Type := list (string * PerpContract).

(** [d[k] = v]: a key that is present keeps its place. *)
Fixpoint dict_set (k : string) (v : PerpContract) (d : Dict) : Dict :=
  match d with
  | [] => [(k, v)]
  | (k0, v0) :: rest =>
      if String.eqb k0 k then (k0, v) :: rest
      else (k0, v0) :: dict_set k v rest
  end.

(** [d.get(k)]. *)
Fixpoint dict_get (k : string) (d : Dict) : option PerpContract :=
  match d with
  | [] => None
  | (k0, v0) :: rest => if String.eqb k0 k then Some v0 else dict_get k rest
  end.

Record ExchangeDiscovery : Type := {
  contracts : Dict;
  last_refresh : Q
}.

(** [ExchangeDiscovery()]. *)
Definition new_discovery : ExchangeDiscovery :=
  {| contracts := []; last_refresh := 0 |}.

(** One of the three merge loops of [refresh]. *)
Definition merge (venue : string) (fetched : list PerpContract) (d : Dict)
  : Dict :=
  fold_left (fun d c => dict_set (venue +:+ ":" +:+ symbol c) c d) fetched d.

(** [refresh], given what the three fetchers returned ([[]] for a fetcher
    that failed): the discovery object after it, and the count it
    returns. *)
Definition refresh (now : Q)
    (bingx_contracts blofin_contracts hl_contracts : list PerpContract)
    (self : ExchangeDiscovery) : ExchangeDiscovery * nat :=
  let d := [] in
  let d := merge "bingx" bingx_contracts d in
  let d := merge "blofin" blofin_contracts d in
  let d := merge "hyperliquid" hl_contracts d in
  ({| contracts := d; last_refresh := now |}, length d).

(** [get_contract]. *)
Definition get_contract (self : ExchangeDiscovery) (exch sym : string)
  : option PerpContract :=
  dict_get (exch +:+ ":" +:+ sym) (contracts self).

(** The catalog as the server reads it: the lookups only. *)
Definition catalog_of (self : ExchangeDiscovery) : Catalog :=
  list_to_map (contracts self).

(** [xs.sort(key=key)] for text keys: stable, smallest key first. *)
Fixpoint insert_asc {A} (key : A -> string) (x : A) (xs : list A) : list A :=
  match xs with
  | [] => [x]
  | y :: ys =>
      if String.ltb (key y) (key x) then y :: insert_asc key x ys
      else x :: y :: ys
  end.

Definition sort_asc {A} (key : A -> string) (xs : list A) : list A :=
  fold_right (insert_asc key) [] xs.

(** [q in s] for text. *)
Fixpoint contains (q s : string) : bool :=
  String.prefix q s
  || match s with
     | EmptyString => false
     | String _ rest => contains q rest
     end.

Definition by_list_time (c : PerpContract) : Q := inject_Z (list_time c).
Definition by_leverage (c : PerpContract) : Q := inject_Z (max_leverage c).

Section Rendering.

(** [PerpContract.to_dict], which reads the clock for the age. *)
Variable D : Type.
Variable to_dict : PerpContract -> D.

(** [get_all(sort_by, exchange)]; [None] is the default [exchange=None]. *)
Definition get_all (sort_by : string) (exch : option string)
    (self : ExchangeDiscovery) : list D :=
  let cs := map snd (contracts self) in
  let cs :=
    match exch with
    | None | Some EmptyString => cs
    | Some e => List.filter (fun c => String.eqb (exchange c) e) cs
    end in
  let cs :=
    if String.eqb sort_by "list_time" then sort_desc by_list_time cs
    else if String.eqb sort_by "symbol" then sort_asc symbol cs
    else if String.eqb sort_by "leverage" then sort_desc by_leverage cs
    else cs in
  map to_dict cs.

(** [get_new_listings(days)]. *)
Definition get_new_listings (now : Q) (days : Z) (self : ExchangeDiscovery)
  : list D :=
  let cutoff := now - inject_Z (days * 24 * 60 * 60) in
  let cs :=
    List.filter (fun c => Qlt_bool cutoff (inject_Z (list_time c) / 1000))
                (map snd (contracts self)) in
  map to_dict (sort_desc by_list_time cs).

(** [search(query)], for ASCII text. *)
Definition search (query : string) (self : ExchangeDiscovery) : list D :=
  let query := py_upper query in
  let cs :=
    List.filter (fun c => contains query (py_upper (symbol c))
                          || contains query (py_upper (base_coin c)))
                (map snd (contracts self)) in
  map to_dict (sort_desc by_list_time cs).

End Rendering.

End Discovery.

(** * Properties *)

(** ** Arithmetic of the Python primitives *)



Lemma Qlt_bool_true (x y : Q) : Qlt_bool x y = true <-> x < y.
Proof.
  unfold Qlt_bool. rewrite negb_true_iff.
  split; intro H.
  - apply Qnot_le_lt. intro Hle. apply Qle_bool_iff in Hle. congruence.
  - destruct (Qle_bool y x) eqn:E; [|reflexivity].
    apply Qle_bool_iff in E. lra.
Qed.

Lemma Qlt_bool_false (x y : Q) : Qlt_bool x y = false <-> y <= x.
Proof.
  unfold Qlt_bool. rewrite negb_false_iff. apply Qle_bool_iff.
Qed.

Lemma Qle_bool_false (x y : Q) : Qle_bool x y = false <-> y < x.
Proof.
  split; intro H.
  - apply Qnot_le_lt. intro Hle. apply Qle_bool_iff in Hle. congruence.
  - destruct (Qle_bool x y) eqn:E; [|reflexivity].
    apply Qle_bool_iff in E. lra.
Qed.

Lemma Qeq_bool_false (x y : Q) : Qeq_bool x y = false <-> ~ x == y.
Proof.
  split; intro H.
  - intro E. apply Qeq_bool_iff in E. congruence.
  - destruct (Qeq_bool x y) eqn:E; [|reflexivity].
    apply Qeq_bool_iff in E. contradiction.
Qed.

Lemma py_min_cases (a b : Q) :
  (b < a /\ py_min a b = b) \/ (a <= b /\ py_min a b = a).
Proof.
  unfold py_min. destruct (Qlt_bool b a) eqn:E.
  - left. split; [now apply Qlt_bool_true|reflexivity].
  - right. split; [now apply Qlt_bool_false|reflexivity].
Qed.

Lemma py_max_cases (a b : Q) :
  (a < b /\ py_max a b = b) \/ (b <= a /\ py_max a b = a).
Proof.
  unfold py_max. destruct (Qlt_bool a b) eqn:E.
  - left. split; [now apply Qlt_bool_true|reflexivity].
  - right. split; [now apply Qlt_bool_false|reflexivity].
Qed.

Lemma py_abs_cases (x : Q) :
  (x < 0 /\ py_abs x = - x) \/ (0 <= x /\ py_abs x = x).
Proof.
  unfold py_abs. destruct (Qlt_bool x 0) eqn:E.
  - left. split; [now apply Qlt_bool_true|reflexivity].
  - right. split; [now apply Qlt_bool_false|reflexivity].
Qed.







(** ** The signal engine: component scores *)

Section SignalEngineProps.

Import Signals.

Definition in_range (x : Q) : Prop := -100 <= x <= 100.





Lemma imbalance_ratio_nonzero (bids asks : list OrderBookLevel) :
  ~ snd (_calc_imbalance bids asks) == 0.
Proof.
  unfold _calc_imbalance. cbn [snd].
  destruct (Qeq_bool (py_sum (map value_usd (firstn 20 asks))) 0) eqn:Ea.
  - lra.
  - destruct (Qeq_bool (py_sum (map value_usd (firstn 20 bids))) 0) eqn:Eb.
    + lra.
    + apply Qeq_bool_false in Ea. apply Qeq_bool_false in Eb.
      intro H. apply Eb.
      unfold Qdiv in H. apply Qmult_integral in H. destruct H as [H|H].
      * exact H.
      * exfalso. apply Ea.
        rewrite <- (Qinv_involutive (py_sum (map value_usd (firstn 20 asks)))).
        rewrite H. reflexivity.
Qed.





(** The argument [math.exp] gets for a level in a loop of
    [_calc_weighted_pressure]. *)
Definition exponent (dist : Q -> Q) (mid decay : Q) (l : OrderBookLevel) : Q :=
  - decay * (dist (lvl_price l) / mid) * 100.


(** The mid price [analyze] computes. *)
Definition book_mid (bids asks : list OrderBookLevel) : Q :=
  match bids, asks with
  | b0 :: _, a0 :: _ => (lvl_price b0 + lvl_price a0) / 2
  | _, _ => 0
  end.







Section PressureFacts.

Variable exp : Q -> Q.
Hypothesis exp_nonneg : forall x, 0 <= exp x.




End PressureFacts.




Lemma scalp_of_ok (r : SignalResult) :
  ~ imbalance_ratio r == 0 -> exists s, scalp_of r = Ok s.
Proof.
  intro H. unfold scalp_of.
  destruct (Qle_bool 20 (score r)); [eexists; reflexivity|].
  destruct (Qle_bool (score r) (-20)); [|eexists; reflexivity].
  unfold py_div. apply Qeq_bool_false in H. rewrite H. cbn [bind].
  eexists; reflexivity.
Qed.

Lemma generate_suggestions_ok (r : SignalResult)
    (bids asks : list OrderBookLevel) :
  ~ imbalance_ratio r == 0 ->
  exists s, _generate_suggestions r bids asks = Ok (s, reversal_of r)
            \/ (mid_price r == 0 /\ _generate_suggestions r bids asks = Ok (None, None)).
Proof.
  intro H. unfold _generate_suggestions.
  destruct (Qeq_bool (mid_price r) 0) eqn:E.
  - exists None. right. split; [now apply Qeq_bool_iff|reflexivity].
  - destruct (scalp_of_ok r H) as [s ->]. exists s. left. reflexivity.
Qed.

Lemma generate_reasons_ok (r : SignalResult) :
  ~ imbalance_ratio r == 0 -> exists rs, _generate_reasons r = Ok rs.
Proof.
  intro H. unfold _generate_reasons.
  destruct (Qlt_bool 1.3 (imbalance_ratio r)).
  - cbn [bind]. match goal with |- context [match ?l with [] => _ | _ => _ end] =>
      destruct l end; eexists; reflexivity.
  - destruct (Qlt_bool (imbalance_ratio r) 0.7).
    + unfold py_div. apply Qeq_bool_false in H. rewrite H. cbn [bind].
      match goal with |- context [match ?l with [] => _ | _ => _ end] =>
        destruct l end; eexists; reflexivity.
    + cbn [bind]. match goal with |- context [match ?l with [] => _ | _ => _ end] =>
        destruct l end; eexists; reflexivity.
Qed.

(** ** The signal engine: the result of [analyze] *)




Section AnalyzeFacts.

Variable exp : Q -> Q.
Hypothesis exp_nonneg : forall x, 0 <= exp x.


End AnalyzeFacts.



Definition level (p q : Q) : OrderBookLevel :=
  {| lvl_price := p; quantity := q |}.



(** The bullish book of the module's self-test. *)
Definition bullish_bids : list OrderBookLevel :=
  [level 100 500; level 99.9 300; level 99.8 1000; level 99.7 200].
Definition bullish_asks : list OrderBookLevel :=
  [level 100.1 200; level 100.2 150; level 100.3 100].





(** Further input outside these conditions: a book whose best prices are
    zero makes [analyze] raise, and the flow score leaves the range by
    itself. *)
Lemma analyze_raises_on_zero_prices :
  snd (analyze exp_approx (new_engine "TEST") [level 0 1] [level 0 1] None)
  = Raise ZeroDivisionError.
Proof. reflexivity. Qed.

Lemma flow_score_escapes_on_negative_value :
  ~ in_range (snd (_calc_flow_score (new_engine "TEST")
                     [(3, "buy"%string); (-1, "sell"%string)])).
Proof.
  intros [_ H]. vm_compute in H. apply H. reflexivity.
Qed.

(** C2.  When the bid list or the ask list is empty, [analyze] raises
    nothing and returns the NEUTRAL result with score 0, confidence 0 and
    the single reason "Insufficient data". *)
Theorem analyze_insufficient_data :
  forall (exp : Q -> Q) (e : SignalEngine) (bids asks : list OrderBookLevel)
         (trades : option (list (Q * string))),
    bids = [] \/ asks = [] ->
    exists r,
      snd (analyze exp e bids asks trades) = Ok r /\
      signal r = NEUTRAL /\ score r = 0 /\ confidence r = 0 /\
      reasons r = [Text "Insufficient data"].
Proof.
  intros exp e bids asks trades H.
  exists (default_result [Text "Insufficient data"]).
  destruct H as [-> | ->].
  - repeat split.
  - destruct bids; repeat split.
Qed.

Lemma analyze_insufficient_data_witness :
  exists r,
    snd (analyze exp_approx (new_engine "TEST") bullish_bids [] None) = Ok r /\
    signal r = NEUTRAL /\ score r = 0 /\ confidence r = 0 /\
    reasons r = [Text "Insufficient data"].
Proof.
  apply (analyze_insufficient_data exp_approx (new_engine "TEST")
           bullish_bids [] None).
  right. reflexivity.
Defined.

Lemma analyze_keeps_cumulative_delta (exp : Q -> Q) (e : SignalEngine)
    (bids asks : list OrderBookLevel) (trades : option (list (Q * string))) :
  trades = None \/ trades = Some [] ->
  cumulative_delta (fst (analyze exp e bids asks trades)) = cumulative_delta e.
Proof.
  intro Ht. unfold analyze.
  destruct bids as [|b0 bids']; [reflexivity|].
  destruct asks as [|a0 asks']; [reflexivity|].
  destruct (_calc_imbalance _ _) as [[[imb bv] av] ratio].
  destruct (_calc_weighted_pressure _ _ _ _) as [pressure|err]; [|reflexivity].
  destruct (_calc_wall_score _ _ _ _) as [[wall lb] la].
  destruct (_calc_spread_score _ _) as [[spread bps]|err]; [|reflexivity].
  assert (E : match trades with
              | Some (t :: ts) => _calc_flow_score e (t :: ts)
              | _ => (e, 0)
              end = (e, 0)) by (destruct Ht as [-> | ->]; reflexivity).
  rewrite E.
  destruct (_score_to_signal _) as [sig conf].
  destruct (_find_liquidity_zones _ _ _) as [supports resistances].
  destruct (_generate_suggestions _ _ _) as [[sc rv]|err]; [|reflexivity].
  destruct (_generate_reasons _) as [rs|err]; reflexivity.
Qed.

(** C9.  When [analyze] takes its insufficient-data return (empty bid or
    ask list) the engine is left as it was: nothing is appended to
    [imbalance_history] and [cumulative_delta] keeps its value.  On any
    call whose trade window is absent or empty, [cumulative_delta] keeps
    its value as well. *)
Theorem analyze_leaves_state :
  forall (exp : Q -> Q) (e : SignalEngine) (bids asks : list OrderBookLevel)
         (trades : option (list (Q * string))),
    (bids = [] \/ asks = [] ->
     fst (analyze exp e bids asks trades) = e /\
     imbalance_history (fst (analyze exp e bids asks trades))
       = imbalance_history e /\
     cumulative_delta (fst (analyze exp e bids asks trades))
       = cumulative_delta e) /\
    (trades = None \/ trades = Some [] ->
     cumulative_delta (fst (analyze exp e bids asks trades))
       = cumulative_delta e).
Proof.
  intros exp e bids asks trades. split.
  - intros [-> | ->].
    + repeat split.
    + destruct bids; repeat split.
  - apply analyze_keeps_cumulative_delta.
Qed.

Lemma analyze_leaves_state_witness :
  fst (analyze exp_approx (new_engine "TEST") [] bullish_asks
         (Some [(1200, "buy"%string)])) = new_engine "TEST" /\
  cumulative_delta
    (fst (analyze exp_approx (new_engine "TEST") bullish_bids bullish_asks
            (Some []))) = 0.
Proof.
  split.
  - apply (analyze_leaves_state exp_approx (new_engine "TEST") []
             bullish_asks (Some [(1200, "buy"%string)])).
    left. reflexivity.
  - apply (analyze_leaves_state exp_approx (new_engine "TEST") bullish_bids
             bullish_asks (Some [])).
    right. reflexivity.
Defined.

(** ** The imbalance score against its reference definition *)

Lemma fold_plus_shift (xs : list Q) (acc : Q) :
  fold_left Qplus xs acc == acc + fold_left Qplus xs 0.
Proof.
  revert acc. induction xs as [|x xs IH]; intro acc; simpl.
  - ring.
  - rewrite IH. rewrite (IH (0 + x)). ring.
Qed.

Lemma py_sum_top20 (levels : list OrderBookLevel) :
  py_sum (map value_usd (firstn 20 levels)) == ImbalanceSpec.top20_value levels.
Proof.
  unfold ImbalanceSpec.top20_value, py_sum.
  induction (firstn 20 levels) as [|l ls IH]; simpl.
  - reflexivity.
  - rewrite fold_plus_shift, IH. unfold value_usd. ring.
Qed.

Lemma Qeq_bool_compat (x y z : Q) : x == y -> Qeq_bool x z = Qeq_bool y z.
Proof.
  intro H. destruct (Qeq_bool y z) eqn:E.
  - apply Qeq_bool_iff in E. apply Qeq_bool_iff. now rewrite H.
  - apply Qeq_bool_false in E. apply Qeq_bool_false. now rewrite H.
Qed.

Lemma Qle_bool_compat (x y z : Q) : x == y -> Qle_bool z x = Qle_bool z y.
Proof.
  intro H. destruct (Qle_bool z y) eqn:E.
  - apply Qle_bool_iff in E. apply Qle_bool_iff. now rewrite H.
  - apply Qle_bool_false in E. apply Qle_bool_false. now rewrite H.
Qed.

Lemma py_min_is_Qmin (a b : Q) : py_min a b == Qmin a b.
Proof.
  destruct (py_min_cases a b) as [[H ->]|[H ->]].
  - symmetry. apply Q.min_r. lra.
  - symmetry. apply Q.min_l. exact H.
Qed.

Lemma py_max_is_Qmax (a b : Q) : py_max a b == Qmax a b.
Proof.
  destruct (py_max_cases a b) as [[H ->]|[H ->]].
  - symmetry. apply Q.max_r. lra.
  - symmetry. apply Q.max_l. exact H.
Qed.

Lemma spec_ratio_compat (B B' A A' : Q) :
  B == B' -> A == A' -> ImbalanceSpec.ratio B A == ImbalanceSpec.ratio B' A'.
Proof.
  intros HB HA. unfold ImbalanceSpec.ratio.
  rewrite (Qeq_bool_compat A A' 0 HA), (Qeq_bool_compat B B' 0 HB).
  destruct (Qeq_bool A' 0); [reflexivity|].
  destruct (Qeq_bool B' 0); [reflexivity|].
  now rewrite HB, HA.
Qed.

Lemma spec_score_compat (r r' : Q) :
  r == r' -> ImbalanceSpec.score_of_ratio r == ImbalanceSpec.score_of_ratio r'.
Proof.
  intro H. unfold ImbalanceSpec.score_of_ratio.
  rewrite (Qle_bool_compat r r' 1 H).
  destruct (Qle_bool 1 r'); now rewrite H.
Qed.

(** C3.  For all bid and ask lists, the ratio and the score computed by
    [_calc_imbalance] are those of the reference definition. *)
Theorem calc_imbalance_refines_spec :
  forall bids asks : list OrderBookLevel,
    let '(score, bid_volume, ask_volume, ratio) := _calc_imbalance bids asks in
    bid_volume == ImbalanceSpec.top20_value bids /\
    ask_volume == ImbalanceSpec.top20_value asks /\
    ratio == ImbalanceSpec.ratio (ImbalanceSpec.top20_value bids)
                                 (ImbalanceSpec.top20_value asks) /\
    score == ImbalanceSpec.imbalance_score bids asks.
Proof.
  intros bids asks. unfold _calc_imbalance.
  pose proof (py_sum_top20 bids) as HB. pose proof (py_sum_top20 asks) as HA.
  set (B := py_sum (map value_usd (firstn 20 bids))) in *.
  set (A := py_sum (map value_usd (firstn 20 asks))) in *.
  assert (Hr : (if Qeq_bool A 0 then 2 else if Qeq_bool B 0 then 0.5 else B / A)
               == ImbalanceSpec.ratio (ImbalanceSpec.top20_value bids)
                                      (ImbalanceSpec.top20_value asks)).
  { rewrite <- (spec_ratio_compat B _ A _ HB HA). unfold ImbalanceSpec.ratio.
    destruct (Qeq_bool A 0); [reflexivity|].
    destruct (Qeq_bool B 0); reflexivity. }
  set (r := if Qeq_bool A 0 then 2 else if Qeq_bool B 0 then 0.5 else B / A) in *.
  repeat split; try assumption.
  unfold ImbalanceSpec.imbalance_score.
  rewrite <- (spec_score_compat r _ Hr). unfold ImbalanceSpec.score_of_ratio.
  destruct (Qle_bool 1 r).
  - apply py_min_is_Qmin.
  - apply py_max_is_Qmax.
Qed.

(** ** Reversal suggestions *)

Lemma reversal_of_with (r : SignalResult)
    (sc rv : option TradeSuggestion) (rs : list Message) :
  reversal_of (with_reasons (with_suggestions r sc rv) rs) = reversal_of r.
Proof. reflexivity. Qed.

(** The reversal suggestion of a result of [analyze] is the one
    [reversal_of] derives from the zones of that result. *)
Lemma analyze_reversal (exp : Q -> Q) (e : SignalEngine)
    (bids asks : list OrderBookLevel) (trades : option (list (Q * string)))
    (r : SignalResult) :
  snd (analyze exp e bids asks trades) = Ok r ->
  reversal_suggestion r = reversal_of r.
Proof.
  unfold analyze.
  destruct bids as [|b0 bids']; [intro H; inversion H; reflexivity|].
  destruct asks as [|a0 asks']; [intro H; inversion H; reflexivity|].
  destruct (_calc_imbalance _ _) as [[[imb bv] av] ratio].
  destruct (_calc_weighted_pressure _ _ _ _) as [pressure|err];
    [|discriminate].
  destruct (_calc_wall_score _ _ _ _) as [[wall lb] la].
  destruct (_calc_spread_score _ _) as [[spread bps]|err]; [|discriminate].
  destruct (match trades with
            | Some (t :: ts) => _calc_flow_score e (t :: ts)
            | _ => (e, 0)
            end) as [e1 flow].
  destruct (_score_to_signal _) as [sig conf].
  unfold _find_liquidity_zones, _generate_suggestions. cbn [mid_price].
  destruct (Qeq_bool ((lvl_price b0 + lvl_price a0) / 2) 0).
  - destruct (_generate_reasons _) as [rs|err]; [|discriminate].
    intro H. inversion H. reflexivity.
  - match goal with
    | |- context [scalp_of ?x] => destruct (scalp_of x) as [sc|err]
    end; cbn [bind]; [|discriminate].
    destruct (_generate_reasons _) as [rs|err]; [|discriminate].
    intro H. inversion H. reflexivity.
Qed.

(** The leading major zone of a side: the first major zone of the list,
    which [analyze] keeps sorted by volume, largest first. *)
Definition leading_major (zones : list LiquidityZone) : option LiquidityZone :=
  head (List.filter is_major zones).

Lemma reversal_of_long (r : SignalResult) (zs : LiquidityZone) :
  leading_major (support_zones r) = Some zs ->
  distance_pct zs < 10 ->
  reversal_of r = Some {|
    action := "LONG"; mode := "reversal";
    entry_price := price zs;
    target_price :=
      match leading_major (resistance_zones r) with
      | Some zr => price zr
      | None => mid_price r * (1 + distance_pct zs / 100)
      end;
    stop_price := price zs * 0.97;
    ts_confidence := py_min 70 (total_volume_usd zs / 10000);
    reason := Fmt "Major support zone at ${:.6f} (${:,.0f} in bids)"
                  [price zs; total_volume_usd zs] |}.
Proof.
  unfold leading_major, reversal_of. intros HS Hd.
  destruct (List.filter is_major (support_zones r)) as [|zs' rest_s];
    [discriminate|].
  cbn [head] in HS. inversion HS; subst zs'.
  apply Qlt_bool_true in Hd. rewrite Hd.
  destruct (List.filter is_major (resistance_zones r)); reflexivity.
Qed.

Lemma reversal_of_short (r : SignalResult) (zr : LiquidityZone) :
  leading_major (resistance_zones r) = Some zr ->
  distance_pct zr < 10 ->
  (forall zs, leading_major (support_zones r) = Some zs ->
             10 <= distance_pct zs) ->
  reversal_of r = Some {|
    action := "SHORT"; mode := "reversal";
    entry_price := price zr;
    target_price :=
      match leading_major (support_zones r) with
      | Some zs => price zs
      | None => mid_price r * (1 - distance_pct zr / 100)
      end;
    stop_price := price zr * 1.03;
    ts_confidence := py_min 70 (total_volume_usd zr / 10000);
    reason := Fmt "Major resistance zone at ${:.6f} (${:,.0f} in asks)"
                  [price zr; total_volume_usd zr] |}.
Proof.
  unfold leading_major, reversal_of. intros HR Hd HS.
  destruct (List.filter is_major (resistance_zones r)) as [|zr' rest_r];
    [discriminate|].
  cbn [head] in HR. inversion HR; subst zr'.
  apply Qlt_bool_true in Hd.
  destruct (List.filter is_major (support_zones r)) as [|zs rest_s].
  - rewrite Hd. reflexivity.
  - specialize (HS zs eq_refl). apply Qlt_bool_false in HS. rewrite HS, Hd.
    reflexivity.
Qed.

Lemma reversal_of_none (r : SignalResult) :
  (forall zs, leading_major (support_zones r) = Some zs ->
             10 <= distance_pct zs) ->
  (forall zr, leading_major (resistance_zones r) = Some zr ->
             10 <= distance_pct zr) ->
  reversal_of r = None.
Proof.
  unfold leading_major, reversal_of. intros HS HR.
  destruct (List.filter is_major (support_zones r)) as [|zs rest_s];
    destruct (List.filter is_major (resistance_zones r)) as [|zr rest_r];
    try reflexivity.
  - specialize (HR zr eq_refl). apply Qlt_bool_false in HR. now rewrite HR.
  - specialize (HS zs eq_refl). apply Qlt_bool_false in HS. now rewrite HS.
  - specialize (HS zs eq_refl). apply Qlt_bool_false in HS.
    specialize (HR zr eq_refl). apply Qlt_bool_false in HR.
    now rewrite HS, HR.
Qed.

(** The zones and the mid price of a result of [analyze] on a non-empty
    book are those [_find_liquidity_zones] computes from the book. *)
Lemma analyze_zones (exp : Q -> Q) (e : SignalEngine)
    (b0 a0 : OrderBookLevel) (bids' asks' : list OrderBookLevel)
    (trades : option (list (Q * string))) (r : SignalResult) :
  snd (analyze exp e (b0 :: bids') (a0 :: asks') trades) = Ok r ->
  let mid := (lvl_price b0 + lvl_price a0) / 2 in
  mid_price r = mid /\
  (support_zones r, resistance_zones r)
  = _find_liquidity_zones (b0 :: bids') (a0 :: asks') mid.
Proof.
  unfold analyze.
  destruct (_calc_imbalance _ _) as [[[imb bv] av] ratio].
  destruct (_calc_weighted_pressure _ _ _ _) as [pressure|err];
    [|discriminate].
  destruct (_calc_wall_score _ _ _ _) as [[wall lb] la].
  destruct (_calc_spread_score _ _) as [[spread bps]|err]; [|discriminate].
  destruct (match trades with
            | Some (t :: ts) => _calc_flow_score e (t :: ts)
            | _ => (e, 0)
            end) as [e1 flow].
  destruct (_score_to_signal _) as [sig conf].
  destruct (_find_liquidity_zones _ _ _) as [supports resistances].
  destruct (_generate_suggestions _ _ _) as [[sc rv]|err]; [|discriminate].
  destruct (_generate_reasons _) as [rs|err]; [|discriminate].
  intro H. inversion H. split; reflexivity.
Qed.

(** [sort_desc] sorts: every element is followed only by elements whose
    key is not larger. *)
Fixpoint desc_sorted {A} (key : A -> Q) (xs : list A) : Prop :=
  match xs with
  | [] => True
  | x :: rest => Forall (fun y => key y <= key x) rest /\ desc_sorted key rest
  end.

Lemma insert_desc_Forall {A} (key : A -> Q) (P : A -> Prop) (x : A)
    (xs : list A) :
  P x -> Forall P xs -> Forall P (insert_desc key x xs).
Proof.
  intros Hx Hxs. induction Hxs as [|y ys Hy Hys IH]; cbn [insert_desc].
  - repeat constructor. exact Hx.
  - destruct (Qlt_bool (key x) (key y)); repeat constructor; assumption.
Qed.

Lemma insert_desc_sorted {A} (key : A -> Q) (x : A) (xs : list A) :
  desc_sorted key xs -> desc_sorted key (insert_desc key x xs).
Proof.
  induction xs as [|y ys IH]; cbn [insert_desc desc_sorted].
  - intros _. split; [constructor|exact I].
  - intros [Hy Hys]. destruct (Qlt_bool (key x) (key y)) eqn:E.
    + cbn [desc_sorted]. split; [|now apply IH].
      apply insert_desc_Forall; [|exact Hy].
      apply Qlt_bool_true in E. lra.
    + apply Qlt_bool_false in E. cbn [desc_sorted].
      split; [|split; assumption].
      constructor; [exact E|].
      eapply Forall_impl; [exact Hy|]. intros z Hz. cbn in Hz. lra.
Qed.

Lemma sort_desc_sorted {A} (key : A -> Q) (xs : list A) :
  desc_sorted key (sort_desc key xs).
Proof.
  unfold sort_desc. induction xs as [|x xs IH]; cbn [fold_right].
  - exact I.
  - now apply insert_desc_sorted.
Qed.

Lemma leading_major_largest (zones : list LiquidityZone) (z : LiquidityZone) :
  desc_sorted total_volume_usd zones ->
  leading_major zones = Some z ->
  is_major z = true /\
  forall z', In z' zones -> is_major z' = true ->
             total_volume_usd z' <= total_volume_usd z.
Proof.
  unfold leading_major.
  induction zones as [|x rest IH]; cbn [List.filter desc_sorted].
  - discriminate.
  - intros [Hx Hrest]. destruct (is_major x) eqn:Em.
    + cbn [head]. intro E. inversion E; subst x. split; [exact Em|].
      intros z' [->|Hin] _; [lra|].
      rewrite Forall_forall in Hx. apply Hx. now apply list_elem_of_In.
    + intro E. destruct (IH Hrest E) as [Hz Hle]. split; [exact Hz|].
      intros z' [->|Hin] Hm; [congruence|]. now apply Hle.
Qed.

Lemma analyze_zones_sorted (exp : Q -> Q) (e : SignalEngine)
    (bids asks : list OrderBookLevel) (trades : option (list (Q * string)))
    (r : SignalResult) :
  snd (analyze exp e bids asks trades) = Ok r ->
  desc_sorted total_volume_usd (support_zones r) /\
  desc_sorted total_volume_usd (resistance_zones r).
Proof.
  intro H.
  destruct bids as [|b0 bids'];
    [inversion H; split; exact I|].
  destruct asks as [|a0 asks'];
    [inversion H; split; exact I|].
  destruct (analyze_zones _ _ _ _ _ _ _ _ H) as [_ Hz].
  unfold _find_liquidity_zones in Hz.
  destruct (Qeq_bool _ 0); injection Hz as -> ->.
  - split; exact I.
  - split; apply sort_desc_sorted.
Qed.

(** The reversal rule as the specification states it, for the support
    side: whenever some major support zone lies less than 10% below the
    mid price, a reversal LONG is proposed. *)
Definition long_at_any_major_support (r : SignalResult) : Prop :=
  forall z, In z (support_zones r) -> is_major z = true ->
            distance_pct z < 10 ->
            exists s, reversal_suggestion r = Some s /\
                      action s = "LONG"%string.

(** A book whose largest bid cluster sits 20% below the mid price of 100,
    with a smaller one right under the mid price. *)
Definition far_wall_bids : list OrderBookLevel :=
  [level 99.8 3; level 80 10].
Definition far_wall_asks : list OrderBookLevel :=
  [level 100.2 1].

Definition far_wall_result : SignalResult :=
  match snd (analyze exp_approx (new_engine "TEST")
               far_wall_bids far_wall_asks None) with
  | Ok r => r
  | Raise _ => default_result []
  end.

(** C6, as stated, fails: the support zone at 99.8 is major and 0.2% below
    the mid price, but the larger zone at 80 leads the list and is 20%
    away, so no LONG is proposed; a SHORT is. *)
Lemma long_at_any_major_support_fails :
  snd (analyze exp_approx (new_engine "TEST")
         far_wall_bids far_wall_asks None) = Ok far_wall_result /\
  ~ long_at_any_major_support far_wall_result.
Proof.
  split; [vm_compute; reflexivity|].
  intro H.
  assert (Hz : exists z, In z (support_zones far_wall_result) /\
                         is_major z = true /\ distance_pct z < 10).
  { eexists. split; [vm_compute; right; left; reflexivity|].
    split; vm_compute; reflexivity. }
  destruct Hz as (z & Hin & Hm & Hd).
  destruct (H z Hin Hm Hd) as (s & Hs & Ha).
  vm_compute in Hs. inversion Hs; subst s. discriminate Ha.
Qed.

(** The same holds whatever [math.exp] is: the reversal suggestion does
    not depend on it. *)
Lemma far_wall_short_for_every_exp (exp : Q -> Q) (e : SignalEngine)
    (trades : option (list (Q * string))) (r : SignalResult) :
  snd (analyze exp e far_wall_bids far_wall_asks trades) = Ok r ->
  ~ long_at_any_major_support r.
Proof.
  intros Hr H.
  pose proof (analyze_reversal _ _ _ _ _ _ Hr) as Hrev.
  destruct (analyze_zones _ _ _ _ _ _ _ _ Hr) as [Hmid Hz].
  assert (Hfz : _find_liquidity_zones far_wall_bids far_wall_asks
                  ((lvl_price (level 99.8 3) + lvl_price (level 100.2 1)) / 2)
                = (support_zones far_wall_result,
                   resistance_zones far_wall_result))
    by (vm_compute; reflexivity).
  pose proof (eq_trans Hz Hfz) as Heq.
  pose proof (f_equal fst Heq) as Hs.
  pose proof (f_equal snd Heq) as Hres.
  cbn [fst snd] in Hs, Hres.
  assert (Hm : mid_price r = mid_price far_wall_result)
    by (rewrite Hmid; vm_compute; reflexivity).
  assert (Hshort : reversal_of r = reversal_of far_wall_result).
  { unfold reversal_of. rewrite Hs, Hres, Hm. reflexivity. }
  assert (Hz' : exists z, In z (support_zones far_wall_result) /\
                          is_major z = true /\ distance_pct z < 10).
  { eexists. split; [vm_compute; right; left; reflexivity|].
    split; vm_compute; reflexivity. }
  destruct Hz' as (z & Hin & Hmaj & Hd). rewrite <- Hs in Hin.
  destruct (H z Hin Hmaj Hd) as (s & Hsome & Ha).
  rewrite Hrev, Hshort in Hsome. vm_compute in Hsome.
  inversion Hsome; subst s. discriminate Ha.
Qed.

(** C6, amended.  In every analysis pass the reversal suggestion follows
    the leading major zone of each side, the first major zone of the
    volume-sorted list and so the major zone with the largest volume.
    If the leading major support is less than 10% below the mid price, a
    LONG is proposed at its price, with stop at 0.97 times that price,
    target at the price of the leading major resistance if there is one
    and else mid*(1 + dist_pct/100), and confidence
    min(70, zone_volume/10000); this holds whether or not a resistance
    qualifies as well.  Otherwise, if the leading major resistance is less
    than 10% above, a SHORT is proposed at its price, with stop at 1.03
    times that price, target at the price of the leading major support if
    there is one and else mid*(1 - dist_pct/100), and the same confidence
    rule.  Otherwise there is no reversal suggestion. *)
Theorem reversal_follows_leading_major_zones :
  forall (exp : Q -> Q) (e : SignalEngine) (bids asks : list OrderBookLevel)
         (trades : option (list (Q * string))) (r : SignalResult),
    snd (analyze exp e bids asks trades) = Ok r ->
    (forall zs, leading_major (support_zones r) = Some zs ->
       is_major zs = true /\
       (forall z, In z (support_zones r) -> is_major z = true ->
                  total_volume_usd z <= total_volume_usd zs)) /\
    (forall zr, leading_major (resistance_zones r) = Some zr ->
       is_major zr = true /\
       (forall z, In z (resistance_zones r) -> is_major z = true ->
                  total_volume_usd z <= total_volume_usd zr)) /\
    (forall zs,
       leading_major (support_zones r) = Some zs ->
       distance_pct zs < 10 ->
       reversal_suggestion r = Some {|
         action := "LONG"; mode := "reversal";
         entry_price := price zs;
         target_price :=
           match leading_major (resistance_zones r) with
           | Some zr => price zr
           | None => mid_price r * (1 + distance_pct zs / 100)
           end;
         stop_price := price zs * 0.97;
         ts_confidence := py_min 70 (total_volume_usd zs / 10000);
         reason := Fmt "Major support zone at ${:.6f} (${:,.0f} in bids)"
                       [price zs; total_volume_usd zs] |}) /\
    (forall zr,
       leading_major (resistance_zones r) = Some zr ->
       distance_pct zr < 10 ->
       (forall zs, leading_major (support_zones r) = Some zs ->
                   10 <= distance_pct zs) ->
       reversal_suggestion r = Some {|
         action := "SHORT"; mode := "reversal";
         entry_price := price zr;
         target_price :=
           match leading_major (support_zones r) with
           | Some zs => price zs
           | None => mid_price r * (1 - distance_pct zr / 100)
           end;
         stop_price := price zr * 1.03;
         ts_confidence := py_min 70 (total_volume_usd zr / 10000);
         reason := Fmt "Major resistance zone at ${:.6f} (${:,.0f} in asks)"
                       [price zr; total_volume_usd zr] |}) /\
    ((forall zs, leading_major (support_zones r) = Some zs ->
                 10 <= distance_pct zs) ->
     (forall zr, leading_major (resistance_zones r) = Some zr ->
                 10 <= distance_pct zr) ->
     reversal_suggestion r = None).
Proof.
  intros exp e bids asks trades r Hr.
  pose proof (analyze_reversal _ _ _ _ _ _ Hr) as Hrev.
  destruct (analyze_zones_sorted _ _ _ _ _ _ Hr) as [Hss Hsr].
  rewrite Hrev.
  split; [|split; [|split; [|split]]].
  - intros zs Hz. now apply leading_major_largest.
  - intros zr Hz. now apply leading_major_largest.
  - intros zs Hz Hd. now apply reversal_of_long.
  - intros zr Hz Hd Hs. now apply reversal_of_short.
  - intros Hs Hres. now apply reversal_of_none.
Qed.

Definition bullish_result : SignalResult :=
  match snd (analyze exp_approx (new_engine "TEST")
               bullish_bids bullish_asks None) with
  | Ok r => r
  | Raise _ => default_result []
  end.

Lemma reversal_follows_leading_major_zones_witness :
  exists zs s,
    leading_major (support_zones bullish_result) = Some zs /\
    reversal_suggestion bullish_result = Some s /\
    action s = "LONG"%string /\
    entry_price s = price zs /\
    stop_price s = price zs * 0.97.
Proof.
  assert (Hr : snd (analyze exp_approx (new_engine "TEST")
                      bullish_bids bullish_asks None) = Ok bullish_result)
    by (vm_compute; reflexivity).
  destruct (reversal_follows_leading_major_zones _ _ _ _ _ _ Hr)
    as (_ & _ & Hlong & _ & _).
  eexists. eexists.
  split; [vm_compute; reflexivity|].
  split; [apply Hlong; vm_compute; reflexivity|].
  repeat split.
Defined.
End SignalEngineProps.

(** ** The analyzer: alert de-duplication *)

Section AnalyzerProps.

Import Analyzer.




Lemma last_deque_append {A} (n : nat) (d : list A) (x : A) :
  (0 < n)%nat -> last (deque_append n d x) = Some x.
Proof.
  intro Hn. unfold deque_append.
  set (k := (length (d ++ [x]) - n)%nat).
  assert (Hlen : (k < length (d ++ [x]))%nat).
  { unfold k. rewrite length_app. simpl. lia. }
  pose proof (last_snoc x d) as Hl.
  rewrite <- (firstn_skipn k (d ++ [x])), last_app in Hl.
  destruct (last (skipn k (d ++ [x]))) as [y|] eqn:E; [exact Hl|].
  apply last_None in E. apply (f_equal (@length A)) in E.
  rewrite length_skipn in E. simpl in E. lia.
Qed.








Lemma update_volume_stats_alerts (now : Q) (sym : string)
    (self : OrderFlowAnalyzer) :
  alerts (_update_volume_stats now sym self) = alerts self.
Proof.
  unfold _update_volume_stats.
  destruct (recent_trades self !! sym); [|reflexivity].
  destruct (stats self !! sym); reflexivity.
Qed.







(** An alert is suppressed exactly when the last stored alert has its
    triple and a timestamp less than 5 seconds before the clock. *)
Lemma emit_alert_suppresses_iff (now : Q) (a : WhaleAlert)
    (self : OrderFlowAnalyzer) :
  snd (_emit_alert now a self) = [] <->
  exists l, last (alerts self) = Some l /\ same_triple l a = true /\
            now - timestamp l < 5.
Proof.
  unfold _emit_alert. destruct (last (alerts self)) as [l|].
  - unfold is_duplicate. fold (same_triple l a).
    destruct (same_triple l a) eqn:Et;
      destruct (Qlt_bool (now - timestamp l) 5) eqn:Eq; cbn [andb snd].
    + apply Qlt_bool_true in Eq. split; [|reflexivity].
      intros _. exists l. auto.
    + apply Qlt_bool_false in Eq. split; [discriminate|].
      intros (l' & Hl & _ & Hlt). inversion Hl; subst l'. lra.
    + split; [discriminate|].
      intros (l' & Hl & Hs & _). inversion Hl; subst l'. congruence.
    + split; [discriminate|].
      intros (l' & Hl & Hs & _). inversion Hl; subst l'. congruence.
  - cbn [snd]. split; [discriminate|]. intros (l & Hl & _). discriminate.
Qed.


Definition whale_buy (sym : string) (at_time : Q) : BingX.Trade := {|
  BingX.t_symbol := sym; BingX.t_price := 60000; BingX.t_quantity := 1;
  BingX.t_side := "buy"; BingX.t_timestamp := at_time
|}.

(** Whale buys on two instruments, one second apart. *)
Definition interleaved_trades : list (Q * Event) :=
  [(0, TradeEvent (whale_buy "WIF-USDT" 0));
   (1, TradeEvent (whale_buy "DOGE-USDT" 1));
   (2, TradeEvent (whale_buy "WIF-USDT" 2))].


Definition two_coins : OrderFlowAnalyzer :=
  new_analyzer ["WIF-USDT"; "DOGE-USDT"]%string.




(** ** The adapter's imbalance ratio on a book without ask value *)

Lemma emit_out (now : Q) (a : WhaleAlert) (self : OrderFlowAnalyzer) :
  snd (fst (emit now a self)) = [] \/ snd (fst (emit now a self)) = [a].
Proof.
  unfold emit, _emit_alert.
  destruct (last (alerts self)) as [l|]; [|right; reflexivity].
  destruct (is_duplicate now l a); [left|right]; reflexivity.
Qed.

Lemma emit_no_error (now : Q) (a : WhaleAlert) (self : OrderFlowAnalyzer) :
  snd (emit now a self) = None.
Proof.
  unfold emit. destruct (_emit_alert now a self). reflexivity.
Qed.

Lemma emit_out_type (now : Q) (a : WhaleAlert) (self : OrderFlowAnalyzer)
    (kind : string) :
  alert_type a = kind ->
  Forall (fun x => alert_type x = kind) (snd (fst (emit now a self))).
Proof.
  intro H. destruct (emit_out now a self) as [-> | ->]; repeat constructor.
  exact H.
Qed.

Lemma detect_walls_types (now : Q) (sym : string) (st : SymbolStats)
    (self : OrderFlowAnalyzer) :
  Forall (fun a => alert_type a = "wall_detected"%string)
         (snd (fst (_detect_walls now sym st self))).
Proof.
  unfold _detect_walls.
  match goal with
  | |- context [and_then ?f ?n] =>
      assert (H1 : Forall (fun a => alert_type a = "wall_detected"%string)
                          (snd (fst f)));
      [|assert (H2 : forall s,
                 Forall (fun a => alert_type a = "wall_detected"%string)
                        (snd (fst (n s))));
        [|destruct f as [[s1 out1] [e|]]; cbn [and_then];
          [exact H1|specialize (H2 s1); destruct (n s1) as [[s2 out2] err];
                    cbn [fst snd] in *; apply Forall_app; split; assumption]]]
  end.
  - destruct (largest_bid st); [|constructor].
    destruct (Qle_bool _ _); [|constructor].
    now apply emit_out_type.
  - intro s. destruct (largest_ask st); [|constructor].
    destruct (Qle_bool _ _); [|constructor].
    now apply emit_out_type.
Qed.

Lemma ratio_one_no_imbalance_alert (now : Q) (sym : string) (st : SymbolStats)
    (self : OrderFlowAnalyzer) :
  imbalance_ratio st = 1 -> _detect_imbalance now sym st self = skip self.
Proof. intro H. unfold _detect_imbalance. rewrite H. reflexivity. Qed.

Lemma ratio_one_pressure (st : SymbolStats) :
  imbalance_ratio st = 1 -> pressure st = "NEUTRAL"%string.
Proof. intro H. unfold pressure. rewrite H. reflexivity. Qed.

Lemma zero_ask_total_ratio (ob : BingX.OrderBook) :
  BingX.ask_total_usd ob == 0 -> BingX.imbalance_ratio ob = 1.
Proof.
  intro H. unfold BingX.imbalance_ratio.
  apply Qeq_bool_iff in H. rewrite H. reflexivity.
Qed.

(** C10.  Whenever the ask value over the top 20 levels sums to zero (an
    empty ask side in particular), the adapter-level [imbalance_ratio] is
    exactly 1, whereas [_calc_imbalance] of the signal engine reads the
    same situation as ratio 2.  The stats filled from such a book report
    NEUTRAL pressure, [_detect_imbalance] emits nothing on them, and no
    alert emitted by [_handle_orderbook] for the book is an imbalance
    alert. *)
Theorem zero_ask_total_is_neutral :
  forall (now : Q) (ob : BingX.OrderBook) (self : OrderFlowAnalyzer),
    BingX.ask_total_usd ob == 0 ->
    BingX.imbalance_ratio ob = 1 /\
    (forall (st : SymbolStats) (spread : Q),
        let st' := with_book (with_totals st ob) ob spread now in
        imbalance_ratio st' = 1 /\
        pressure st' = "NEUTRAL"%string /\
        forall (sym : string) (s : OrderFlowAnalyzer),
          _detect_imbalance now sym st' s = skip s) /\
    Forall (fun a => alert_type a <> "imbalance"%string)
           (snd (fst (_handle_orderbook now ob self))) /\
    (forall bids asks : list Signals.OrderBookLevel,
        py_sum (map Signals.value_usd (firstn 20 asks)) == 0 ->
        snd (Signals._calc_imbalance bids asks) = 2).
Proof.
  intros now ob self Hzero.
  pose proof (zero_ask_total_ratio ob Hzero) as Hone.
  split; [exact Hone|]. split; [|split].
  - intros st spread st'.
    assert (Hst : imbalance_ratio st' = 1) by exact Hone.
    split; [exact Hst|]. split; [now apply ratio_one_pressure|].
    intros sym s. now apply ratio_one_no_imbalance_alert.
  - unfold _handle_orderbook.
    destruct (stats self !! BingX.symbol ob) as [st|]; [|constructor].
    destruct (BingX.spread_pct ob) as [spread|e]; [|constructor].
    set (st' := with_book (with_totals st ob) ob spread now).
    set (self' := set_stats self (BingX.symbol ob) st').
    pose proof (detect_walls_types now (BingX.symbol ob) st' self') as Hw.
    destruct (_detect_walls now (BingX.symbol ob) st' self')
      as [[s1 out1] [e|]]; cbn [and_then fst snd] in *.
    + eapply Forall_impl; [exact Hw|]. intros a Ha. cbn in Ha. rewrite Ha.
      discriminate.
    + rewrite (ratio_one_no_imbalance_alert now _ st' s1 Hone).
      cbn [skip fst snd]. rewrite app_nil_r.
      eapply Forall_impl; [exact Hw|]. intros a Ha. cbn in Ha. rewrite Ha.
      discriminate.
  - intros bids asks Ha. unfold Signals._calc_imbalance. cbn [snd].
    apply Qeq_bool_iff in Ha. rewrite Ha. reflexivity.
Qed.

(** A book with bids and no asks. *)
Definition bids_only_book : BingX.OrderBook := {|
  BingX.symbol := "WIF-USDT";
  BingX.bids := [{| BingX.price := 2; BingX.quantity := 30000 |};
                 {| BingX.price := 1.9; BingX.quantity := 100 |}];
  BingX.asks := [];
  BingX.timestamp := 0
|}.

Lemma zero_ask_total_is_neutral_witness :
  BingX.imbalance_ratio bids_only_book = 1 /\
  Forall (fun a => alert_type a <> "imbalance"%string)
         (snd (fst (_handle_orderbook 0 bids_only_book two_coins))).
Proof.
  destruct (zero_ask_total_is_neutral 0 bids_only_book two_coins)
    as (H1 & _ & H3 & _).
  - reflexivity.
  - split; assumption.
Defined.
End AnalyzerProps.

(** ** The watch endpoints *)

Section ServerProps.

Import Server.

(** The REST handler refuses an instrument that is neither watched nor in
    the catalog, and creates nothing. *)
Lemma start_watching_rejects_unknown (exch sym : string) (st : ServerState) :
  active_watchers st !! (exch +:+ ":" +:+ sym) = None ->
  Exchanges.get_contract (contracts st) exch sym = None ->
  start_watching exch sym st
  = (st, [("status", "error"); ("message", "Contract not found")]%string).
Proof.
  intros Hw Hc. unfold start_watching. rewrite Hw, Hc. reflexivity.
Qed.

(** The REST handler keeps an existing watcher. *)
Lemma start_watching_idempotent (exch sym : string) (st : ServerState)
    (w : CoinWatcher) :
  active_watchers st !! (exch +:+ ":" +:+ sym) = Some w ->
  start_watching exch sym st
  = (st, [("status", "already_watching"); ("key", exch +:+ ":" +:+ sym)]%string).
Proof. intro Hw. unfold start_watching. rewrite Hw. reflexivity. Qed.

(** The WebSocket command keeps an existing watcher as well. *)
Lemma ws_watch_idempotent (msg : gmap string string) (exch sym : string)
    (st : ServerState) (w : CoinWatcher) :
  msg !! "action"%string = Some "watch"%string ->
  msg !! "exchange"%string = Some exch -> msg !! "symbol"%string = Some sym ->
  exch <> EmptyString -> sym <> EmptyString ->
  active_watchers st !! (exch +:+ ":" +:+ sym) = Some w ->
  ws_command msg st
  = (st, [[("type", "watching"); ("key", exch +:+ ":" +:+ sym)]%string]).
Proof.
  intros Ha He Hs Hne Hns Hw. unfold ws_command.
  destruct (decide (msg !! "action"%string = Some "watch"%string)); [|contradiction].
  rewrite He, Hs. cbn [fmt_opt].
  destruct exch; [contradiction|]. destruct sym; [contradiction|].
  cbn [truthy andb]. rewrite Hw. reflexivity.
Qed.

(** The WebSocket command never consults the catalog: for a key that is not
    watched it always creates and starts a watcher. *)
Lemma ws_watch_ignores_catalog (msg : gmap string string) (exch sym : string)
    (st : ServerState) :
  msg !! "action"%string = Some "watch"%string ->
  msg !! "exchange"%string = Some exch -> msg !! "symbol"%string = Some sym ->
  exch <> EmptyString -> sym <> EmptyString ->
  active_watchers st !! (exch +:+ ":" +:+ sym) = None ->
  ws_command msg st
  = ({| active_watchers :=
          <[exch +:+ ":" +:+ sym := start (new_watcher exch sym)]>
            (active_watchers st);
        contracts := contracts st |},
     [[("type", "watching"); ("key", exch +:+ ":" +:+ sym)]%string]).
Proof.
  intros Ha He Hs Hne Hns Hw. unfold ws_command.
  destruct (decide (msg !! "action"%string = Some "watch"%string)); [|contradiction].
  rewrite He, Hs. cbn [fmt_opt].
  destruct exch; [contradiction|]. destruct sym; [contradiction|].
  cbn [truthy andb]. rewrite Hw. reflexivity.
Qed.

(** A server that watches nothing and whose catalog is empty. *)
Definition empty_server : ServerState :=
  {| active_watchers := ∅; contracts := ∅ |}.

(** The client frame [{"action": "watch", "exchange": "bingx",
    "symbol": "NOPE-USDT"}]. *)
Definition watch_unknown : gmap string string :=
  list_to_map [("action", "watch"); ("exchange", "bingx");
               ("symbol", "NOPE-USDT")]%string.

(** C5, at the failing input.  For an instrument that is not in the
    catalog, the REST handler answers with the error and creates nothing,
    while the WebSocket command creates and starts a watcher and answers
    "watching". *)
Theorem ws_watch_accepts_unknown_instrument :
  Exchanges.get_contract (contracts empty_server) "bingx" "NOPE-USDT" = None /\
  start_watching "bingx" "NOPE-USDT" empty_server
  = (empty_server, [("status", "error"); ("message", "Contract not found")]%string) /\
  active_watchers (fst (ws_command watch_unknown empty_server))
    !! "bingx:NOPE-USDT"%string
  = Some (start (new_watcher "bingx" "NOPE-USDT")) /\
  running (start (new_watcher "bingx" "NOPE-USDT")) = true /\
  snd (ws_command watch_unknown empty_server)
  = [[("type", "watching"); ("key", "bingx:NOPE-USDT")]%string].
Proof. repeat split; vm_compute; reflexivity. Qed.

(** ** The watcher's trade window *)

(** A watcher that has been started holds its stats and its engine. *)
Definition started (w : CoinWatcher) : Prop :=
  (exists st, stats w = Some st) /\ (exists en, signal_engine w = Some en).

Lemma start_started (w : CoinWatcher) : running w = false -> started (start w).
Proof.
  intro H. unfold start. rewrite H. split; eexists; reflexivity.
Qed.

Section WatcherFacts.

Variable exp : Q -> Q.

Lemma on_orderbook_started (now : Q) (ob : BingX.OrderBook) (w : CoinWatcher) :
  started w -> started (fst (_on_orderbook exp now ob w)).
Proof.
  intros [[st Hst] [en Hen]]. unfold _on_orderbook. rewrite Hst.
  destruct (BingX.spread_pct ob) as [spread|err].
  - cbn [store_book signal_engine]. rewrite Hen.
    destruct (Signals.analyze _ _ _ _ _) as [en' [res|err]];
      split; eexists; reflexivity.
  - split; [eexists; reflexivity|exists en; exact Hen].
Qed.

Lemma on_trade_started (now : Q) (t : BingX.Trade) (w : CoinWatcher) :
  started w -> started (fst (_on_trade now t w)).
Proof. intros [[st Hst] [en Hen]]. split; eexists; eassumption. Qed.

Lemma deliver_started (w : CoinWatcher) (timed : Q * Analyzer.Event) :
  started w -> started (deliver exp w timed).
Proof.
  intro H. unfold deliver. destruct (snd timed).
  - now apply on_orderbook_started.
  - now apply on_trade_started.
Qed.

Lemma run_started (events : list (Q * Analyzer.Event)) (w : CoinWatcher) :
  started w -> started (fold_left (deliver exp) events w).
Proof.
  revert w. induction events as [|ev events IH]; intros w H; cbn [fold_left].
  - exact H.
  - apply IH. now apply deliver_started.
Qed.

Lemma filter_length_le {A} (f : A -> bool) (xs : list A) :
  (length (List.filter f xs) <= length xs)%nat.
Proof.
  induction xs as [|x xs IH]; cbn [List.filter]; [lia|].
  destruct (f x); cbn [length]; lia.
Qed.

Lemma on_orderbook_window_length (now : Q) (ob : BingX.OrderBook)
    (w : CoinWatcher) :
  (length (recent_trades (fst (_on_orderbook exp now ob w)))
   <= length (recent_trades w))%nat.
Proof.
  unfold _on_orderbook.
  destruct (stats w) as [st|]; [|cbn; lia].
  destruct (BingX.spread_pct ob) as [spread|err]; [|cbn; lia].
  cbn [store_book signal_engine recent_trades].
  destruct (signal_engine w) as [en|]; [|cbn; lia].
  destruct (Signals.analyze _ _ _ _ _) as [en' [res|err]];
    cbn [fst store_analysis recent_trades]; apply filter_length_le.
Qed.

Lemma on_trade_window_length (now : Q) (t : BingX.Trade) (w : CoinWatcher) :
  (length (recent_trades w) <= 100)%nat ->
  (length (recent_trades (fst (_on_trade now t w))) <= 100)%nat.
Proof.
  intro H. unfold _on_trade. cbn [fst recent_trades].
  destruct (Nat.ltb 100 _) eqn:E.
  - unfold last_n. rewrite length_skipn. lia.
  - apply Nat.ltb_ge in E. exact E.
Qed.

Lemma deliver_window_length (w : CoinWatcher) (timed : Q * Analyzer.Event) :
  (length (recent_trades w) <= 100)%nat ->
  (length (recent_trades (deliver exp w timed)) <= 100)%nat.
Proof.
  intro H. unfold deliver. destruct (snd timed) as [ob|t].
  - pose proof (on_orderbook_window_length (fst timed) ob w). lia.
  - now apply on_trade_window_length.
Qed.

Lemma run_window_length (events : list (Q * Analyzer.Event)) (w : CoinWatcher) :
  (length (recent_trades w) <= 100)%nat ->
  (length (recent_trades (fold_left (deliver exp) events w)) <= 100)%nat.
Proof.
  revert w. induction events as [|ev events IH]; intros w H; cbn [fold_left].
  - exact H.
  - apply IH. now apply deliver_window_length.
Qed.

(** A book event that gets past the spread computation trims the window
    to the trades younger than 60 seconds on the clock of the event. *)
Lemma on_orderbook_trims (now spread : Q) (ob : BingX.OrderBook)
    (w : CoinWatcher) :
  started w -> BingX.spread_pct ob = Ok spread ->
  recent_trades (fst (_on_orderbook exp now ob w))
  = List.filter (fun x => Qlt_bool (now - 60) (snd x)) (recent_trades w).
Proof.
  intros [[st Hst] [en Hen]] Hsp. unfold _on_orderbook.
  rewrite Hst, Hsp. cbn [store_book signal_engine recent_trades].
  rewrite Hen.
  destruct (Signals.analyze _ _ _ _ _) as [en' [res|err]]; reflexivity.
Qed.

Lemma filter_Forall {A} (f : A -> bool) (xs : list A) :
  Forall (fun x => f x = true) (List.filter f xs).
Proof.
  induction xs as [|x xs IH]; cbn [List.filter]; [constructor|].
  destruct (f x) eqn:E; [constructor; assumption|assumption].
Qed.

End WatcherFacts.

(** The trade-window rule as the specification states it: no entry of
    [recent_trades] is older than 60 seconds relative to [latest], the
    time of the most recent trade processed, and the window holds at most
    100 entries. *)
Definition window_fresh (latest : Q) (w : CoinWatcher) : Prop :=
  Forall (fun x => latest - snd x <= 60) (recent_trades w) /\
  (length (recent_trades w) <= 100)%nat.

Definition small_buy (at_time : Q) : BingX.Trade := {|
  BingX.t_symbol := "WIF-USDT"; BingX.t_price := 2; BingX.t_quantity := 600;
  BingX.t_side := "buy"; BingX.t_timestamp := at_time
|}.

Definition wif_watcher : CoinWatcher := start (new_watcher "bingx" "WIF-USDT").

(** Two trades, 100 seconds apart, with no book update in between. *)
Definition sparse_trades : list (Q * Analyzer.Event) :=
  [(0, Analyzer.TradeEvent (small_buy 0));
   (100, Analyzer.TradeEvent (small_buy 100))].

(** C7, as stated, fails: a trade event does not evict by age, so after
    the second trade the window still holds the trade that is 100 seconds
    older. *)
Lemma window_fresh_fails_after_trade :
  ~ window_fresh 100 (fold_left (deliver Signals.exp_approx) sparse_trades wif_watcher).
Proof.
  intros [H _]. vm_compute in H.
  inversion H as [|x xs Hx Hxs]; subst. apply Hx. reflexivity.
Qed.

(** C7, amended.  Over every sequence of Trade and BookSnapshot events
    processed by a started watcher, [recent_trades] never holds more than
    100 entries; and after each BookSnapshot event that gets past the
    spread computation, every entry left is younger than 60 seconds on the
    clock of that event, and so also relative to any trade time that is
    not later than this clock.  Trade events do not evict by age: a Trade
    event appends its entry and keeps the newest 100, whatever their age,
    so a window below 100 entries only grows by the new entry and a full
    window loses its oldest entry and nothing else. *)
Theorem window_bounded_and_trimmed_on_book :
  forall (exp : Q -> Q) (exch sym : string)
         (events : list (Q * Analyzer.Event)),
    let w := fold_left (deliver exp) events (start (new_watcher exch sym)) in
    (length (recent_trades w) <= 100)%nat /\
    (forall (now spread : Q) (ob : BingX.OrderBook),
        BingX.spread_pct ob = Ok spread ->
        let w' := deliver exp w (now, Analyzer.BookEvent ob) in
        recent_trades w'
        = List.filter (fun x => Qlt_bool (now - 60) (snd x)) (recent_trades w) /\
        Forall (fun x => now - snd x < 60) (recent_trades w') /\
        (forall latest, latest <= now ->
                        Forall (fun x => latest - snd x < 60)
                               (recent_trades w'))) /\
    (forall (now : Q) (t : BingX.Trade),
        (length (recent_trades w) < 100)%nat ->
        recent_trades (deliver exp w (now, Analyzer.TradeEvent t))
        = recent_trades w ++ [(BingX.t_value_usd t, BingX.t_side t, now)]) /\
    (forall (now : Q) (t : BingX.Trade),
        recent_trades (deliver exp w (now, Analyzer.TradeEvent t))
        = last_n 100 (recent_trades w
                      ++ [(BingX.t_value_usd t, BingX.t_side t, now)]) /\
        (length (recent_trades w) = 100%nat ->
         recent_trades (deliver exp w (now, Analyzer.TradeEvent t))
         = tl (recent_trades w)
           ++ [(BingX.t_value_usd t, BingX.t_side t, now)])).
Proof.
  intros exp exch sym events w.
  assert (Hst : started w).
  { apply run_started. apply start_started. reflexivity. }
  split; [|split; [|split]].
  - apply run_window_length. cbn. lia.
  - intros now spread ob Hsp w'.
    assert (E : recent_trades w'
                = List.filter (fun x => Qlt_bool (now - 60) (snd x))
                              (recent_trades w)).
    { unfold w', deliver. cbn [fst snd].
      now apply (on_orderbook_trims exp now spread). }
    assert (F : Forall (fun x => now - snd x < 60) (recent_trades w')).
    { rewrite E. eapply Forall_impl; [apply filter_Forall|].
      intros x Hx. cbn in Hx. apply Qlt_bool_true in Hx. lra. }
    split; [exact E|]. split; [exact F|].
    intros latest Hle. eapply Forall_impl; [exact F|].
    intros x Hx. cbn in Hx. lra.
  - intros now t Hlen. unfold deliver, _on_trade. cbn [fst snd recent_trades].
    assert (E : Nat.ltb 100 (length (recent_trades w ++
                  [(BingX.t_value_usd t, BingX.t_side t, now)])) = false).
    { apply Nat.ltb_ge. rewrite length_app. cbn [length]. lia. }
    rewrite E. reflexivity.
  - intros now t.
    assert (Hlen : (length (recent_trades w) <= 100)%nat).
    { apply run_window_length. cbn. lia. }
    assert (E : recent_trades (deliver exp w (now, Analyzer.TradeEvent t))
                = last_n 100 (recent_trades w
                      ++ [(BingX.t_value_usd t, BingX.t_side t, now)])).
    { unfold deliver, _on_trade. cbn [fst snd recent_trades].
      destruct (Nat.ltb 100 _) eqn:E; [reflexivity|].
      apply Nat.ltb_ge in E. unfold last_n.
      replace (_ - 100)%nat with 0%nat by lia. reflexivity. }
    split; [exact E|].
    intro Hfull. rewrite E. unfold last_n.
    rewrite length_app. cbn [length]. rewrite Hfull. cbn [Nat.add Nat.sub].
    destruct (recent_trades w) as [|x xs]; [discriminate Hfull|].
    reflexivity.
Qed.

(** A balanced one-level book. *)
Definition wif_book : BingX.OrderBook := {|
  BingX.symbol := "WIF-USDT";
  BingX.bids := [{| BingX.price := 2; BingX.quantity := 500 |}];
  BingX.asks := [{| BingX.price := 2.002; BingX.quantity := 500 |}];
  BingX.timestamp := 0
|}.

(** A hundred trades, one per second, which fill the window. *)
Definition full_session : list (Q * Analyzer.Event) :=
  map (fun n => (inject_Z (Z.of_nat n),
                 Analyzer.TradeEvent (small_buy (inject_Z (Z.of_nat n)))))
      (seq 0 100).

Lemma window_bounded_and_trimmed_on_book_witness :
  recent_trades
    (deliver Signals.exp_approx
       (fold_left (deliver Signals.exp_approx) sparse_trades wif_watcher)
       (101, Analyzer.BookEvent wif_book))
  = List.filter (fun x => Qlt_bool (101 - 60) (snd x))
      (recent_trades (fold_left (deliver Signals.exp_approx) sparse_trades wif_watcher)) /\
  recent_trades
    (deliver Signals.exp_approx
       (fold_left (deliver Signals.exp_approx) full_session wif_watcher)
       (500, Analyzer.TradeEvent (small_buy 500)))
  = tl (recent_trades
          (fold_left (deliver Signals.exp_approx) full_session wif_watcher))
    ++ [(1200, "buy"%string, 500)].
Proof.
  split.
  - destruct (window_bounded_and_trimmed_on_book Signals.exp_approx
                "bingx" "WIF-USDT" sparse_trades) as (_ & Hbook & _).
    destruct (Hbook 101 ((2.002 - 2) / 2 * 100) wif_book) as (E & _).
    + reflexivity.
    + exact E.
  - destruct (window_bounded_and_trimmed_on_book Signals.exp_approx
                "bingx" "WIF-USDT" full_session) as (_ & _ & _ & Htrade).
    destruct (Htrade 500 (small_buy 500)) as (_ & E).
    apply E. vm_compute. reflexivity.
Defined.

(** ** Loss of the adapter connection *)

(** The reconnection rule as the specification states it: once the
    connection of a watcher is lost, the watcher is brought back, and
    [imbalance_history] and [cumulative_delta] are the same after the
    restart as before it. *)
Definition history_survives_restart (w : CoinWatcher) : Prop :=
  running (start w) = true /\
  option_map Signals.imbalance_history (signal_engine (start w))
  = option_map Signals.imbalance_history (signal_engine w) /\
  option_map Signals.cumulative_delta (signal_engine (start w))
  = option_map Signals.cumulative_delta (signal_engine w).

(** A trade followed by 25 book snapshots, one per second. *)
Definition long_session : list (Q * Analyzer.Event) :=
  (0, Analyzer.TradeEvent (small_buy 0))
  :: map (fun n => (inject_Z (Z.of_nat n), Analyzer.BookEvent wif_book))
         (seq 1 25).

(** C8, as stated, fails: after 25 snapshots the connection is lost;
    [_run_client] leaves the watcher stopped, and starting it again builds
    a new engine, whose history is empty and whose cumulative delta is
    zero. *)
Lemma history_lost_on_restart :
  running (_run_client Signals.exp_approx long_session wif_watcher) = false /\
  option_map (fun en => length (Signals.imbalance_history en))
    (signal_engine (_run_client Signals.exp_approx long_session wif_watcher))
  = Some 25%nat /\
  ~ history_survives_restart (_run_client Signals.exp_approx long_session wif_watcher).
Proof.
  split; [reflexivity|]. split; [vm_compute; reflexivity|].
  intros (_ & H & _). vm_compute in H. discriminate H.
Qed.

Lemma deliver_symbol (exp : Q -> Q) (w : CoinWatcher)
    (timed : Q * Analyzer.Event) :
  symbol (deliver exp w timed) = symbol w.
Proof.
  unfold deliver. destruct (snd timed) as [ob|t]; [|reflexivity].
  unfold _on_orderbook.
  destruct (stats w); [|reflexivity].
  destruct (BingX.spread_pct ob); [|reflexivity].
  cbn [store_book signal_engine]. destruct (signal_engine w); [|reflexivity].
  destruct (Signals.analyze _ _ _ _ _) as [en' [res|err]]; reflexivity.
Qed.

Lemma run_symbol (exp : Q -> Q) (events : list (Q * Analyzer.Event))
    (w : CoinWatcher) :
  symbol (fold_left (deliver exp) events w) = symbol w.
Proof.
  revert w. induction events as [|ev events IH]; intro w; cbn [fold_left].
  - reflexivity.
  - rewrite IH. apply deliver_symbol.
Qed.

(** C8, amended.  When the adapter connection of a watcher is lost,
    [_run_client] clears [running] and ends: the watcher does not wait,
    back off or reopen the connection.  The loss itself leaves the engine,
    and with it [imbalance_history] and [cumulative_delta], as the last
    event left them; but starting the watcher again replaces the engine by
    a new one, with empty history and zero cumulative delta, and empties
    [recent_trades], so nothing is carried over a restart. *)
Theorem connection_loss_stops_watcher :
  forall (exp : Q -> Q) (events : list (Q * Analyzer.Event))
         (w : CoinWatcher),
    let lost := _run_client exp events w in
    running lost = false /\
    signal_engine lost = signal_engine (fold_left (deliver exp) events w) /\
    recent_trades lost = recent_trades (fold_left (deliver exp) events w) /\
    client lost = client (fold_left (deliver exp) events w) /\
    running (start lost) = true /\
    signal_engine (start lost) = Some (Signals.new_engine (symbol w)) /\
    option_map Signals.imbalance_history (signal_engine (start lost))
    = Some [] /\
    option_map Signals.cumulative_delta (signal_engine (start lost))
    = Some 0 /\
    recent_trades (start lost) = [].
Proof.
  intros exp events w lost.
  assert (Hsym : symbol lost = symbol w).
  { unfold lost, _run_client. cbn [stop symbol]. apply run_symbol. }
  unfold lost, _run_client in *.
  repeat split; cbn [start stop running signal_engine recent_trades symbol option_map] in *;
    try reflexivity.
  now rewrite <- Hsym.
Qed.

(** Nor do the endpoints bring a lost watcher back: a watch request for
    its key answers "already_watching" and leaves it stopped; only an
    unwatch followed by a watch gives a running watcher, and that one is
    new. *)
Lemma rewatch_is_fresh (exch sym : string) (st : ServerState)
    (w : CoinWatcher) (c : Exchanges.PerpContract) :
  active_watchers st !! (exch +:+ ":" +:+ sym) = Some w ->
  Exchanges.get_contract (contracts st) exch sym = Some c ->
  fst (start_watching exch sym st) = st /\
  active_watchers
    (fst (start_watching exch sym (fst (stop_watching exch sym st))))
    !! (exch +:+ ":" +:+ sym)
  = Some (start (new_watcher exch sym)).
Proof.
  intros Hw Hc. split.
  - unfold start_watching. rewrite Hw. reflexivity.
  - unfold stop_watching. rewrite Hw. cbn [fst].
    unfold start_watching. cbn [active_watchers contracts].
    rewrite lookup_delete_eq, Hc. cbn [fst active_watchers].
    apply lookup_insert_eq.
Qed.
End ServerProps.

(** * Further properties

    Behaviour of the same modules beyond what the specification states:
    when the engine returns and what it keeps, the bounds of the
    analyzer, the watcher registry and the contract catalog. *)

(** ** The signal engine: when it returns, and what it leaves behind *)

Section SignalEngineMore.

Import Signals.

(** Whether some level of a loop of [_calc_weighted_pressure] takes
    [math.exp] beyond [exp_overflow]. *)
Definition overflows (dist : Q -> Q) (mid decay : Q)
    (levels : list OrderBookLevel) : bool :=
  existsb (fun l => Qlt_bool exp_overflow (exponent dist mid decay l)) levels.

(** Whether one of the first 30 bids or asks does. *)
Definition weight_overflows (bids asks : list OrderBookLevel) : bool :=
  let mid := book_mid bids asks in
  overflows (fun p => mid - p) mid 0.1 (firstn 30 bids)
  || overflows (fun p => p - mid) mid 0.1 (firstn 30 asks).

Section ReturnFacts.

Variable exp : Q -> Q.

Lemma pressure_loop_returns (dist : Q -> Q) (mid decay acc : Q)
    (levels : list OrderBookLevel) :
  ~ mid == 0 -> overflows dist mid decay levels = false ->
  exists p, pressure_loop exp dist mid decay acc levels = Ok p.
Proof.
  intro Hmid. revert acc.
  induction levels as [|l levels IH]; intros acc Hov;
    cbn [pressure_loop overflows existsb] in *.
  - eexists; reflexivity.
  - apply orb_false_iff in Hov. destruct Hov as [Hl Hrest].
    unfold py_div. apply Qeq_bool_false in Hmid as Hm. rewrite Hm.
    cbn [bind]. unfold math_exp. unfold exponent in Hl. rewrite Hl.
    cbn [bind]. now apply IH.
Qed.

Lemma pressure_loop_overflows (dist : Q -> Q) (mid decay acc : Q)
    (levels : list OrderBookLevel) :
  ~ mid == 0 -> overflows dist mid decay levels = true ->
  pressure_loop exp dist mid decay acc levels = Raise OverflowError.
Proof.
  intro Hmid. revert acc.
  induction levels as [|l levels IH]; intros acc Hov;
    cbn [pressure_loop overflows existsb] in *; [discriminate|].
  unfold py_div. apply Qeq_bool_false in Hmid as Hm. rewrite Hm.
  cbn [bind]. unfold math_exp. unfold exponent in Hov.
  destruct (Qlt_bool exp_overflow _); [reflexivity|].
  cbn [bind orb] in *. now apply IH.
Qed.

Lemma weighted_pressure_returns (bids asks : list OrderBookLevel) (mid : Q) :
  ~ mid == 0 ->
  overflows (fun p => mid - p) mid 0.1 (firstn 30 bids) = false ->
  overflows (fun p => p - mid) mid 0.1 (firstn 30 asks) = false ->
  exists p, _calc_weighted_pressure exp bids asks mid = Ok p.
Proof.
  intros Hmid Hb Ha. unfold _calc_weighted_pressure.
  destruct (pressure_loop_returns (fun p => mid - p) mid 0.1 0
              (firstn 30 bids) Hmid Hb) as [bp ->].
  cbn [bind].
  destruct (pressure_loop_returns (fun p => p - mid) mid 0.1 0
              (firstn 30 asks) Hmid Ha) as [ap ->].
  cbn [bind]. destruct (Qeq_bool (bp + ap) 0); eexists; reflexivity.
Qed.

Lemma weighted_pressure_overflows (bids asks : list OrderBookLevel)
    (mid : Q) :
  ~ mid == 0 ->
  overflows (fun p => mid - p) mid 0.1 (firstn 30 bids)
  || overflows (fun p => p - mid) mid 0.1 (firstn 30 asks) = true ->
  _calc_weighted_pressure exp bids asks mid = Raise OverflowError.
Proof.
  intros Hmid Hov. unfold _calc_weighted_pressure.
  destruct (overflows (fun p => mid - p) mid 0.1 (firstn 30 bids)) eqn:Hb.
  - now rewrite (pressure_loop_overflows _ _ _ _ _ Hmid Hb).
  - destruct (pressure_loop_returns (fun p => mid - p) mid 0.1 0
                (firstn 30 bids) Hmid Hb) as [bp ->].
    cbn [bind orb] in *.
    now rewrite (pressure_loop_overflows _ _ _ _ _ Hmid Hov).
Qed.

Lemma weighted_pressure_raises (b0 : OrderBookLevel)
    (bids' asks : list OrderBookLevel) (mid : Q) :
  mid == 0 ->
  _calc_weighted_pressure exp (b0 :: bids') asks mid = Raise ZeroDivisionError.
Proof.
  intro Hmid. unfold _calc_weighted_pressure. cbn [firstn pressure_loop].
  unfold py_div. apply Qeq_bool_iff in Hmid. rewrite Hmid. reflexivity.
Qed.

Lemma half_sum_zero (x y : Q) : (x + y) / 2 == 0 <-> x + y == 0.
Proof.
  split; intro H.
  - assert (E : x + y == (x + y) / 2 * 2) by (field; discriminate).
    rewrite E, H. reflexivity.
  - rewrite H. reflexivity.
Qed.

Lemma spread_score_returns (b0 a0 : OrderBookLevel)
    (bids' asks' : list OrderBookLevel) :
  ~ lvl_price b0 + lvl_price a0 == 0 ->
  exists s bps, _calc_spread_score (b0 :: bids') (a0 :: asks') = Ok (s, bps).
Proof.
  intro H. unfold _calc_spread_score, py_div.
  assert (Hm : ~ (lvl_price a0 + lvl_price b0) / 2 == 0).
  { rewrite half_sum_zero. intro E. apply H. rewrite <- E. ring. }
  apply Qeq_bool_false in Hm. rewrite Hm. cbn [bind].
  eexists _, _. reflexivity.
Qed.

Lemma analyze_returns (e : SignalEngine) (b0 a0 : OrderBookLevel)
    (bids' asks' : list OrderBookLevel)
    (trades : option (list (Q * string))) :
  ~ lvl_price b0 + lvl_price a0 == 0 ->
  weight_overflows (b0 :: bids') (a0 :: asks') = false ->
  exists r, snd (analyze exp e (b0 :: bids') (a0 :: asks') trades) = Ok r.
Proof.
  intros H Hov.
  assert (Hmid : ~ (lvl_price b0 + lvl_price a0) / 2 == 0)
      by (now rewrite half_sum_zero).
  unfold weight_overflows in Hov. cbn [book_mid] in Hov.
  apply orb_false_iff in Hov. destruct Hov as [Hovb Hova].
  unfold analyze.
  pose proof (imbalance_ratio_nonzero (b0 :: bids') (a0 :: asks')) as Hratio.
  destruct (_calc_imbalance (b0 :: bids') (a0 :: asks'))
    as [[[imb bv] av] ratio].
  cbn [snd] in Hratio.
  destruct (weighted_pressure_returns (b0 :: bids') (a0 :: asks') _
              Hmid Hovb Hova) as [pressure ->].
  destruct (_calc_wall_score _ _ _ _) as [[wall lb] la].
  destruct (spread_score_returns b0 a0 bids' asks' H) as (spread & bps & ->).
  destruct (match trades with
            | Some (t :: ts) => _calc_flow_score e (t :: ts)
            | _ => (e, 0)
            end) as [e1 flow].
  destruct (_score_to_signal _) as [sig conf].
  destruct (_find_liquidity_zones _ _ _) as [supports resistances].
  match goal with
  | |- context [_generate_suggestions ?r _ _] => set (r0 := r)
  end.
  destruct (generate_suggestions_ok r0 (b0 :: bids') (a0 :: asks') Hratio)
    as [s [Hs|[_ Hs]]]; rewrite Hs.
  + destruct (generate_reasons_ok (with_suggestions r0 s (reversal_of r0))
                Hratio) as [rs ->].
    eexists; reflexivity.
  + destruct (generate_reasons_ok (with_suggestions r0 None None) Hratio)
      as [rs ->].
    eexists; reflexivity.
Qed.

Lemma analyze_raises_zero_mid (e : SignalEngine) (b0 a0 : OrderBookLevel)
    (bids' asks' : list OrderBookLevel)
    (trades : option (list (Q * string))) :
  lvl_price b0 + lvl_price a0 == 0 ->
  analyze exp e (b0 :: bids') (a0 :: asks') trades
  = (e, Raise ZeroDivisionError).
Proof.
  intro H.
  assert (Hmid : (lvl_price b0 + lvl_price a0) / 2 == 0)
    by (now rewrite half_sum_zero).
  unfold analyze.
  destruct (_calc_imbalance (b0 :: bids') (a0 :: asks'))
    as [[[imb bv] av] ratio].
  rewrite (weighted_pressure_raises b0 bids' (a0 :: asks') _ Hmid).
  reflexivity.
Qed.

Lemma analyze_raises_overflow (e : SignalEngine) (b0 a0 : OrderBookLevel)
    (bids' asks' : list OrderBookLevel)
    (trades : option (list (Q * string))) :
  ~ lvl_price b0 + lvl_price a0 == 0 ->
  weight_overflows (b0 :: bids') (a0 :: asks') = true ->
  analyze exp e (b0 :: bids') (a0 :: asks') trades
  = (e, Raise OverflowError).
Proof.
  intros H Hov.
  assert (Hmid : ~ (lvl_price b0 + lvl_price a0) / 2 == 0)
    by (now rewrite half_sum_zero).
  unfold weight_overflows in Hov. cbn [book_mid] in Hov.
  unfold analyze.
  destruct (_calc_imbalance (b0 :: bids') (a0 :: asks'))
    as [[[imb bv] av] ratio].
  rewrite (weighted_pressure_overflows (b0 :: bids') (a0 :: asks') _
             Hmid Hov).
  reflexivity.
Qed.

(** Whether [analyze] returns a result is decided by the book alone. *)
Lemma analyze_returns_whatever_engine (e e' : SignalEngine)
    (b0 a0 : OrderBookLevel) (bids' asks' : list OrderBookLevel)
    (trades trades' : option (list (Q * string))) (r : SignalResult) :
  snd (analyze exp e (b0 :: bids') (a0 :: asks') trades) = Ok r ->
  exists r',
    snd (analyze exp e' (b0 :: bids') (a0 :: asks') trades') = Ok r'.
Proof.
  intro Hr.
  destruct (Qeq_dec (lvl_price b0 + lvl_price a0) 0) as [Hz|Hnz].
  { rewrite (analyze_raises_zero_mid e b0 a0 bids' asks' trades Hz) in Hr.
    discriminate Hr. }
  destruct (weight_overflows (b0 :: bids') (a0 :: asks')) eqn:Hov.
  { rewrite (analyze_raises_overflow e b0 a0 bids' asks' trades Hnz Hov)
      in Hr.
    discriminate Hr. }
  now apply analyze_returns.
Qed.

(** A call that raises leaves the engine as it was. *)
Lemma analyze_raise_keeps_engine (e : SignalEngine)
    (bids asks : list OrderBookLevel)
    (trades : option (list (Q * string))) (err : PyError) :
  snd (analyze exp e bids asks trades) = Raise err ->
  fst (analyze exp e bids asks trades) = e.
Proof.
  intro Hr.
  destruct bids as [|b0 bids']; [reflexivity|].
  destruct asks as [|a0 asks']; [reflexivity|].
  destruct (Qeq_dec (lvl_price b0 + lvl_price a0) 0) as [Hz|Hnz].
  { now rewrite (analyze_raises_zero_mid e b0 a0 bids' asks' trades Hz). }
  destruct (weight_overflows (b0 :: bids') (a0 :: asks')) eqn:Hov.
  { now rewrite (analyze_raises_overflow e b0 a0 bids' asks' trades Hnz Hov). }
  destruct (analyze_returns e b0 a0 bids' asks' trades Hnz Hov) as [r Hok].
  rewrite Hok in Hr. discriminate Hr.
Qed.

(** X1.  On a book with both sides non-empty, what [analyze] ends with is
    decided by the book.  When the best bid and the best ask add up to
    zero it raises [ZeroDivisionError]; otherwise, when one of the first 30
    bids or asks gets an exponent above [exp_overflow] (a bid priced more
    than 71.978 times the mid price, say), it raises [OverflowError]; in
    both cases the engine is left as it was.  In every other case it
    returns a result. *)
Theorem analyze_returns_or_raises :
  forall (e : SignalEngine) (b0 a0 : OrderBookLevel)
         (bids' asks' : list OrderBookLevel)
         (trades : option (list (Q * string))),
    (lvl_price b0 + lvl_price a0 == 0 ->
     analyze exp e (b0 :: bids') (a0 :: asks') trades
     = (e, Raise ZeroDivisionError)) /\
    (~ lvl_price b0 + lvl_price a0 == 0 ->
     weight_overflows (b0 :: bids') (a0 :: asks') = true ->
     analyze exp e (b0 :: bids') (a0 :: asks') trades
     = (e, Raise OverflowError)) /\
    (~ lvl_price b0 + lvl_price a0 == 0 ->
     weight_overflows (b0 :: bids') (a0 :: asks') = false ->
     exists r, snd (analyze exp e (b0 :: bids') (a0 :: asks') trades) = Ok r).
Proof.
  intros e b0 a0 bids' asks' trades. split; [|split].
  - apply analyze_raises_zero_mid.
  - apply analyze_raises_overflow.
  - apply analyze_returns.
Qed.

End ReturnFacts.

Lemma analyze_returns_or_raises_witness :
  analyze exp_approx (new_engine "TEST") [level 2 10] [level (-2) 10] None
  = (new_engine "TEST", Raise ZeroDivisionError) /\
  analyze exp_approx (new_engine "TEST")
    [level 1 1; level 80 1] [level 1 1] None
  = (new_engine "TEST", Raise OverflowError) /\
  (exists r, snd (analyze exp_approx (new_engine "TEST")
                    [level 2 10] [level (-1) 10] None) = Ok r).
Proof.
  split; [|split].
  - apply (analyze_returns_or_raises exp_approx (new_engine "TEST")
             (level 2 10) (level (-2) 10) [] [] None).
    reflexivity.
  - apply (analyze_returns_or_raises exp_approx (new_engine "TEST")
             (level 1 1) (level 1 1) [level 80 1] [] None).
    + cbn. intro H. discriminate H.
    + vm_compute. reflexivity.
  - apply (analyze_returns_or_raises exp_approx (new_engine "TEST")
             (level 2 10) (level (-1) 10) [] [] None).
    + cbn. intro H. discriminate H.
    + vm_compute. reflexivity.
Defined.

Lemma flow_score_history (e : SignalEngine) (ts : list (Q * string)) :
  imbalance_history (fst (_calc_flow_score e ts)) = imbalance_history e.
Proof.
  unfold _calc_flow_score.
  match goal with |- context [Qeq_bool ?t 0] => destruct (Qeq_bool t 0) end;
    reflexivity.
Qed.

Lemma deque_append_length {A} (n : nat) (d : list A) (x : A) :
  length (deque_append n d x) = Nat.min n (S (length d)).
Proof.
  unfold deque_append. rewrite length_skipn, length_app. cbn [length]. lia.
Qed.

(** The history after a call of [analyze]: as before, or with one entry
    appended. *)
Lemma analyze_history_cases (exp : Q -> Q) (e : SignalEngine)
    (bids asks : list OrderBookLevel) (trades : option (list (Q * string))) :
  imbalance_history (fst (analyze exp e bids asks trades))
  = imbalance_history e
  \/ exists x,
       imbalance_history (fst (analyze exp e bids asks trades))
       = deque_append 60 (imbalance_history e) x.
Proof.
  unfold analyze.
  destruct bids as [|b0 bids']; [left; reflexivity|].
  destruct asks as [|a0 asks']; [left; reflexivity|].
  destruct (_calc_imbalance (b0 :: bids') (a0 :: asks'))
    as [[[imb bv] av] ratio].
  destruct (_calc_weighted_pressure _ _ _ _) as [pressure|err];
    [|left; reflexivity].
  destruct (_calc_wall_score _ _ _ _) as [[wall lb] la].
  destruct (_calc_spread_score _ _) as [[spread bps]|err];
    [|left; reflexivity].
  assert (Hh : imbalance_history
                 (fst match trades with
                      | Some (t :: ts) => _calc_flow_score e (t :: ts)
                      | _ => (e, 0)
                      end) = imbalance_history e).
  { destruct trades as [[|t ts]|]; try reflexivity. apply flow_score_history. }
  destruct (match trades with
            | Some (t :: ts) => _calc_flow_score e (t :: ts)
            | _ => (e, 0)
            end) as [e1 flow].
  cbn [fst] in Hh.
  destruct (_score_to_signal _) as [sig conf].
  destruct (_find_liquidity_zones _ _ _) as [supports resistances].
  right. exists ratio.
  destruct (_generate_suggestions _ _ _) as [[sc rv]|err];
    [destruct (_generate_reasons _) as [rs|err]|];
    cbn [fst push_history imbalance_history]; now rewrite Hh.
Qed.

Lemma analyze_history_appended (exp : Q -> Q) (e : SignalEngine)
    (bids asks : list OrderBookLevel) (trades : option (list (Q * string)))
    (r : SignalResult) :
  bids <> [] -> asks <> [] ->
  snd (analyze exp e bids asks trades) = Ok r ->
  imbalance_history (fst (analyze exp e bids asks trades))
  = deque_append 60 (imbalance_history e) (imbalance_ratio r).
Proof.
  unfold analyze.
  destruct bids as [|b0 bids']; [congruence|].
  destruct asks as [|a0 asks']; [congruence|].
  intros _ _.
  destruct (_calc_imbalance (b0 :: bids') (a0 :: asks'))
    as [[[imb bv] av] ratio].
  destruct (_calc_weighted_pressure _ _ _ _) as [pressure|err];
    [|discriminate].
  destruct (_calc_wall_score _ _ _ _) as [[wall lb] la].
  destruct (_calc_spread_score _ _) as [[spread bps]|err]; [|discriminate].
  assert (Hh : imbalance_history
                 (fst match trades with
                      | Some (t :: ts) => _calc_flow_score e (t :: ts)
                      | _ => (e, 0)
                      end) = imbalance_history e).
  { destruct trades as [[|t ts]|]; try reflexivity. apply flow_score_history. }
  destruct (match trades with
            | Some (t :: ts) => _calc_flow_score e (t :: ts)
            | _ => (e, 0)
            end) as [e1 flow].
  cbn [fst] in Hh.
  destruct (_score_to_signal _) as [sig conf].
  destruct (_find_liquidity_zones _ _ _) as [supports resistances].
  destruct (_generate_suggestions _ _ _) as [[sc rv]|err]; [|discriminate].
  destruct (_generate_reasons _) as [rs|err]; [|discriminate].
  intro H. inversion H.
  cbn [fst push_history imbalance_history imbalance_ratio with_reasons
       with_suggestions]. now rewrite Hh.
Qed.

(** X2.  The imbalance history never grows beyond 60 entries: a call of
    [analyze] on an engine whose history has at most 60 entries leaves at
    most 60.  A call that returns a result for a non-empty book appends the
    ratio of that result as the newest entry, dropping the oldest entry
    once 60 are held. *)
Theorem analyze_history_bounded :
  forall (exp : Q -> Q) (e : SignalEngine) (bids asks : list OrderBookLevel)
         (trades : option (list (Q * string))),
    ((length (imbalance_history e) <= 60)%nat ->
     (length (imbalance_history (fst (analyze exp e bids asks trades)))
      <= 60)%nat) /\
    (forall r, bids <> [] -> asks <> [] ->
       snd (analyze exp e bids asks trades) = Ok r ->
       imbalance_history (fst (analyze exp e bids asks trades))
       = deque_append 60 (imbalance_history e) (imbalance_ratio r) /\
       last (imbalance_history (fst (analyze exp e bids asks trades)))
       = Some (imbalance_ratio r) /\
       length (imbalance_history (fst (analyze exp e bids asks trades)))
       = Nat.min 60 (S (length (imbalance_history e)))).
Proof.
  intros exp e bids asks trades. split.
  - intro Hlen.
    destruct (analyze_history_cases exp e bids asks trades)
      as [-> | [x ->]]; [exact Hlen|].
    rewrite deque_append_length. lia.
  - intros r Hb Ha Hr.
    rewrite (analyze_history_appended exp e bids asks trades r Hb Ha Hr).
    split; [reflexivity|]. split.
    + apply last_deque_append. lia.
    + apply deque_append_length.
Qed.

Lemma analyze_history_bounded_witness :
  (length (imbalance_history
             (fst (analyze exp_approx (new_engine "TEST")
                     bullish_bids bullish_asks None))) <= 60)%nat.
Proof.
  apply (analyze_history_bounded exp_approx (new_engine "TEST")
           bullish_bids bullish_asks None).
  cbn. lia.
Defined.

(** X3.  With fewer than 20 samples in the history the momentum score is
    zero: below 10 it is the literal 0, and from 10 to 19 the older average
    is the recent average itself, so the rate of change vanishes. *)
Theorem momentum_zero_below_20_samples :
  forall e : SignalEngine,
    (length (imbalance_history e) < 20)%nat -> _calc_momentum e == 0.
Proof.
  intros e Hlen. unfold _calc_momentum.
  destruct (Nat.ltb _ 10); [reflexivity|].
  assert (E : Nat.leb 20 (length (imbalance_history e)) = false)
    by (apply Nat.leb_gt; exact Hlen).
  rewrite E.
  set (recent := py_sum (last_n 10 (imbalance_history e)) / 10).
  destruct (Qeq_bool recent 0) eqn:Ez; [reflexivity|].
  apply Qeq_bool_false in Ez.
  assert (Hroc : (recent - recent) / recent * 300 == 0) by (field; exact Ez).
  destruct (py_min_cases 100 ((recent - recent) / recent * 300))
    as [[H1 E1]|[H1 E1]]; [|lra].
  rewrite E1.
  destruct (py_max_cases (-100) ((recent - recent) / recent * 300))
    as [[H2 E2]|[H2 E2]]; [|lra].
  rewrite E2. exact Hroc.
Qed.

Lemma momentum_zero_below_20_samples_witness :
  _calc_momentum {| symbol := "TEST";
                    imbalance_history :=
                      [1; 1; 1; 1; 1; 2; 3; 4; 5; 6; 7; 8];
                    trade_deltas := []; cumulative_delta := 0 |} == 0.
Proof.
  apply momentum_zero_below_20_samples. cbn. lia.
Defined.

(** The score [_calc_imbalance] derives from its ratio. *)
Definition score_of (ratio : Q) : Q :=
  if Qle_bool 1 ratio then py_min 100 ((ratio - 1) * 50)
  else py_max (-100) ((ratio - 1) * 100).

Lemma calc_imbalance_score (bids asks : list OrderBookLevel) :
  fst (fst (fst (_calc_imbalance bids asks)))
  = score_of (snd (_calc_imbalance bids asks)).
Proof. reflexivity. Qed.

Ltac score_cases r :=
  unfold score_of;
  let E := fresh "E" in
  destruct (Qle_bool 1 r) eqn:E;
  [apply Qle_bool_iff in E;
   destruct (py_min_cases 100 ((r - 1) * 50)) as [[? ->]|[? ->]]
  |apply Qle_bool_false in E;
   destruct (py_max_cases (-100) ((r - 1) * 100)) as [[? ->]|[? ->]]].

Lemma score_of_monotone (r1 r2 : Q) :
  r1 <= r2 -> score_of r1 <= score_of r2.
Proof. intro H. score_cases r1; score_cases r2; lra. Qed.

Lemma score_of_sign (r : Q) : 1 <= r <-> 0 <= score_of r.
Proof. score_cases r; lra. Qed.

Lemma score_of_saturates (r : Q) :
  (3 <= r -> score_of r == 100) /\ (r <= 0 -> score_of r == -100).
Proof. score_cases r; split; intro; lra. Qed.

(** X4.  The imbalance score is a non-decreasing function of the imbalance
    ratio: of two books, the one with the larger ratio never gets the
    smaller score.  The score is non-negative exactly when the ratio is at
    least 1, reaches 100 from ratio 3 on and -100 for a ratio of 0 or
    less. *)
Theorem imbalance_score_monotone :
  forall bids1 asks1 bids2 asks2 : list OrderBookLevel,
    let '(score1, _, _, ratio1) := _calc_imbalance bids1 asks1 in
    let '(score2, _, _, ratio2) := _calc_imbalance bids2 asks2 in
    (ratio1 <= ratio2 -> score1 <= score2) /\
    (1 <= ratio1 <-> 0 <= score1) /\
    (3 <= ratio1 -> score1 == 100) /\
    (ratio1 <= 0 -> score1 == -100).
Proof.
  intros bids1 asks1 bids2 asks2.
  pose proof (calc_imbalance_score bids1 asks1) as H1.
  pose proof (calc_imbalance_score bids2 asks2) as H2.
  destruct (_calc_imbalance bids1 asks1) as [[[s1 bv1] av1] r1].
  destruct (_calc_imbalance bids2 asks2) as [[[s2 bv2] av2] r2].
  cbn [fst snd] in H1, H2. subst s1 s2.
  split; [apply score_of_monotone|].
  split; [apply score_of_sign|apply score_of_saturates].
Qed.

(** The signal on the other side of NEUTRAL. *)
Definition mirror (s : Signal) : Signal :=
  match s with
  | STRONG_BUY => STRONG_SELL
  | BUY => SELL
  | NEUTRAL => NEUTRAL
  | SELL => BUY
  | STRONG_SELL => STRONG_BUY
  end.

Ltac signal_cases s :=
  unfold _score_to_signal;
  repeat match goal with
         | |- context [Qle_bool ?a ?b] => destruct (Qle_bool a b) eqn:?
         end;
  cbn [fst snd];
  repeat match goal with
         | H : Qle_bool _ _ = true |- _ => apply Qle_bool_iff in H
         | H : Qle_bool _ _ = false |- _ => apply Qle_bool_false in H
         end.

Lemma signal_by_score (s : Q) :
  (40 <= s /\ fst (_score_to_signal s) = STRONG_BUY) \/
  (20 <= s < 40 /\ fst (_score_to_signal s) = BUY) \/
  (-20 < s < 20 /\ fst (_score_to_signal s) = NEUTRAL) \/
  (-40 < s <= -20 /\ fst (_score_to_signal s) = SELL) \/
  (s <= -40 /\ fst (_score_to_signal s) = STRONG_SELL).
Proof.
  signal_cases s.
  - left. split; [lra|reflexivity].
  - right. left. split; [lra|reflexivity].
  - right. right. right. right. split; [lra|reflexivity].
  - right. right. right. left. split; [lra|reflexivity].
  - right. right. left. split; [lra|reflexivity].
Qed.

Lemma confidence_value (s : Q) :
  snd (_score_to_signal s) = py_min 100 (py_abs s * 2).
Proof. signal_cases s; reflexivity. Qed.

Lemma confidence_cases (s : Q) :
  (50 <= s /\ snd (_score_to_signal s) == 100) \/
  (0 <= s < 50 /\ snd (_score_to_signal s) == s * 2) \/
  (-50 < s < 0 /\ snd (_score_to_signal s) == - s * 2) \/
  (s <= -50 /\ snd (_score_to_signal s) == 100).
Proof.
  rewrite confidence_value.
  destruct (py_abs_cases s) as [[H1 E1]|[H1 E1]];
    destruct (py_min_cases 100 (py_abs s * 2)) as [[H2 E2]|[H2 E2]];
    rewrite E2; rewrite ?E1 in *.
  - right. right. left. split; [lra|reflexivity].
  - right. right. right. split; [lra|reflexivity].
  - right. left. split; [lra|reflexivity].
  - left. split; [lra|reflexivity].
Qed.

(** X5.  The classification is symmetric about zero, and the signal fixes
    the band of the confidence: negating the score mirrors the signal and
    keeps the confidence; NEUTRAL goes with a confidence below 40, BUY and
    SELL with one from 40 up to 80, STRONG_BUY and STRONG_SELL with one of
    80 and more. *)
Theorem score_to_signal_bands :
  forall s : Q,
    fst (_score_to_signal (- s)) = mirror (fst (_score_to_signal s)) /\
    snd (_score_to_signal (- s)) == snd (_score_to_signal s) /\
    match fst (_score_to_signal s) with
    | NEUTRAL => snd (_score_to_signal s) < 40
    | BUY | SELL => 40 <= snd (_score_to_signal s) < 80
    | STRONG_BUY | STRONG_SELL => 80 <= snd (_score_to_signal s)
    end.
Proof.
  intro s. split; [|split].
  - destruct (signal_by_score s) as [[H ->]|[[H ->]|[[H ->]|[[H ->]|[H ->]]]]];
      destruct (signal_by_score (- s))
        as [[H' ->]|[[H' ->]|[[H' ->]|[[H' ->]|[H' ->]]]]];
      try reflexivity; lra.
  - destruct (confidence_cases s) as [[H ->]|[[H ->]|[[H ->]|[H ->]]]];
      destruct (confidence_cases (- s)) as [[H' ->]|[[H' ->]|[[H' ->]|[H' ->]]]];
      lra.
  - destruct (confidence_cases s) as [[H E]|[[H E]|[[H E]|[H E]]]];
      destruct (signal_by_score s) as [[H' ->]|[[H' ->]|[[H' ->]|[[H' ->]|[H' ->]]]]];
      lra.
Qed.

Lemma generate_reasons_nonempty (r : SignalResult) (rs : list Message) :
  _generate_reasons r = Ok rs -> rs <> [].
Proof.
  unfold _generate_reasons.
  match goal with
  | |- bind ?c _ = _ -> _ => destruct c as [rs0|err]; [|discriminate]
  end.
  cbn [bind].
  match goal with
  | |- match ?l with [] => _ | _ => _ end = _ -> _ =>
      destruct l eqn:E; intro H; inversion H; discriminate
  end.
Qed.

(** What a result of [analyze] on a non-empty book carries over from the
    steps that built it. *)
Lemma analyze_result_parts (exp : Q -> Q) (e : SignalEngine)
    (b0 a0 : OrderBookLevel) (bids' asks' : list OrderBookLevel)
    (trades : option (list (Q * string))) (r : SignalResult) :
  snd (analyze exp e (b0 :: bids') (a0 :: asks') trades) = Ok r ->
  ~ mid_price r == 0 /\
  (signal r, confidence r) = _score_to_signal (score r) /\
  scalp_of r = Ok (scalp_suggestion r) /\
  reasons r <> [] /\
  _calc_spread_score (b0 :: bids') (a0 :: asks')
  = Ok (spread_score r, spread_bps r).
Proof.
  unfold analyze.
  destruct (_calc_imbalance (b0 :: bids') (a0 :: asks'))
    as [[[imb bv] av] ratio].
  destruct (_calc_weighted_pressure exp (b0 :: bids') (a0 :: asks') _)
    as [pressure|err] eqn:Ep; [|discriminate].
  assert (Hmid : ~ (lvl_price b0 + lvl_price a0) / 2 == 0).
  { intro Hz.
    rewrite (weighted_pressure_raises exp b0 bids' (a0 :: asks') _ Hz) in Ep.
    discriminate. }
  destruct (_calc_wall_score _ _ _ _) as [[wall lb] la].
  destruct (_calc_spread_score _ _) as [[spread bps]|err]; [|discriminate].
  destruct (match trades with
            | Some (t :: ts) => _calc_flow_score e (t :: ts)
            | _ => (e, 0)
            end) as [e1 flow].
  destruct (_score_to_signal _) as [sig conf] eqn:Es.
  destruct (_find_liquidity_zones _ _ _) as [supports resistances].
  unfold _generate_suggestions. cbn [mid_price].
  apply Qeq_bool_false in Hmid as Hm. rewrite Hm.
  match goal with
  | |- context [scalp_of ?x] => destruct (scalp_of x) as [sc|err] eqn:Esc
  end; cbn [bind]; [|discriminate].
  destruct (_generate_reasons _) as [rs|err] eqn:Er; [|discriminate].
  intro H. inversion H; subst r. clear H.
  cbn [with_reasons with_suggestions mid_price signal confidence score
       scalp_suggestion reasons spread_score spread_bps].
  split; [exact Hmid|]. split; [now rewrite Es|]. split; [exact Esc|].
  split; [|reflexivity].
  apply generate_reasons_nonempty in Er.
  destruct rs; [congruence|discriminate].
Qed.

(** X6.  A scalp suggestion goes with the signal and keeps a 2:1 reward to
    risk: for every result of [analyze] on a non-empty book there is no
    scalp suggestion exactly when the signal is NEUTRAL; a LONG is
    suggested for BUY and STRONG_BUY, a SHORT for SELL and STRONG_SELL; the
    entry is the mid price, the distance from entry to target is twice the
    distance from entry to stop, the stop is at least 0.5% of a positive
    mid price away, and the confidence is that of the result capped at
    80: the smaller of the two, so never above either. *)
Theorem scalp_follows_signal :
  forall (exp : Q -> Q) (e : SignalEngine) (b0 a0 : OrderBookLevel)
         (bids' asks' : list OrderBookLevel)
         (trades : option (list (Q * string))) (r : SignalResult),
    snd (analyze exp e (b0 :: bids') (a0 :: asks') trades) = Ok r ->
    match scalp_suggestion r with
    | None => signal r = NEUTRAL
    | Some s =>
        mode s = "scalp"%string /\
        entry_price s = mid_price r /\
        ts_confidence s = py_min (confidence r) 80 /\
        ts_confidence s == Qmin (confidence r) 80 /\
        ts_confidence s <= 80 /\ ts_confidence s <= confidence r /\
        ((action s = "LONG"%string /\
          (signal r = BUY \/ signal r = STRONG_BUY) /\
          target_price s - entry_price s
          == 2 * (entry_price s - stop_price s) /\
          (0 < mid_price r ->
           0.005 * mid_price r <= entry_price s - stop_price s))
         \/
         (action s = "SHORT"%string /\
          (signal r = SELL \/ signal r = STRONG_SELL) /\
          entry_price s - target_price s
          == 2 * (stop_price s - entry_price s) /\
          (0 < mid_price r ->
           0.005 * mid_price r <= stop_price s - entry_price s)))
    end.
Proof.
  intros exp e b0 a0 bids' asks' trades r Hr.
  destruct (analyze_result_parts _ _ _ _ _ _ _ _ Hr)
    as (Hmid & Hsig & Hscalp & _).
  assert (Hs : signal r = fst (_score_to_signal (score r)))
    by (now rewrite <- Hsig).
  revert Hscalp. unfold scalp_of.
  set (sd := py_max (spread_bps r * 3 / 10000) 0.005).
  assert (Hsd : 0.005 <= sd).
  { unfold sd.
    destruct (py_max_cases (spread_bps r * 3 / 10000) 0.005)
      as [[H ->]|[H ->]]; lra. }
  assert (Hconf : py_min (confidence r) 80 <= 80 /\
                  py_min (confidence r) 80 <= confidence r).
  { destruct (py_min_cases (confidence r) 80) as [[H ->]|[H ->]]; lra. }
  destruct (Qle_bool 20 (score r)) eqn:E20.
  - apply Qle_bool_iff in E20. intro H. inversion H as [H1]. clear H.
    cbn [mode entry_price ts_confidence action target_price stop_price].
    split; [reflexivity|]. split; [reflexivity|].
    split; [reflexivity|]. split; [apply py_min_is_Qmin|].
    split; [apply Hconf|]. split; [apply Hconf|]. left.
    split; [reflexivity|]. split; [|split].
    + rewrite Hs.
      destruct (signal_by_score (score r))
        as [[H ->]|[[H ->]|[[H ->]|[[H ->]|[H ->]]]]]; auto; lra.
    + ring.
    + intro Hpos. nra.
  - apply Qle_bool_false in E20.
    destruct (Qle_bool (score r) (-20)) eqn:E20'.
    + apply Qle_bool_iff in E20'.
      destruct (py_div 1 (imbalance_ratio r)) as [inv|err]; cbn [bind];
        [|discriminate].
      intro H. inversion H as [H1]. clear H.
      cbn [mode entry_price ts_confidence action target_price stop_price].
      split; [reflexivity|]. split; [reflexivity|].
      split; [reflexivity|]. split; [apply py_min_is_Qmin|].
      split; [apply Hconf|]. split; [apply Hconf|]. right.
      split; [reflexivity|]. split; [|split].
      * rewrite Hs.
        destruct (signal_by_score (score r))
          as [[H ->]|[[H ->]|[[H ->]|[[H ->]|[H ->]]]]]; auto; lra.
      * ring.
      * intro Hpos. nra.
    + apply Qle_bool_false in E20'. intro H. inversion H as [H1].
      rewrite Hs.
      destruct (signal_by_score (score r))
        as [[H' ->]|[[H' ->]|[[H' ->]|[[H' ->]|[H' ->]]]]]; auto; lra.
Qed.

Lemma scalp_follows_signal_witness :
  match scalp_suggestion bullish_result with
  | None => signal bullish_result = NEUTRAL
  | Some s =>
      mode s = "scalp"%string /\ entry_price s = mid_price bullish_result
  end.
Proof.
  assert (Hr : snd (analyze exp_approx (new_engine "TEST")
                      bullish_bids bullish_asks None) = Ok bullish_result)
    by (vm_compute; reflexivity).
  pose proof (scalp_follows_signal exp_approx (new_engine "TEST")
                (level 100 500) (level 100.1 200)
                [level 99.9 300; level 99.8 1000; level 99.7 200]
                [level 100.2 150; level 100.3 100] None bullish_result Hr)
    as H.
  destruct (scalp_suggestion bullish_result) as [s|]; [|exact H].
  destruct H as (H1 & H2 & _). split; assumption.
Defined.

(** X9.  Every result of [analyze] carries at least one reason: the
    insufficient-data result its single reason, and any other result the
    list [_generate_reasons] built, which is never empty. *)
Theorem analyze_reasons_nonempty :
  forall (exp : Q -> Q) (e : SignalEngine) (bids asks : list OrderBookLevel)
         (trades : option (list (Q * string))) (r : SignalResult),
    snd (analyze exp e bids asks trades) = Ok r -> reasons r <> [].
Proof.
  intros exp e bids asks trades r Hr.
  destruct bids as [|b0 bids']; [inversion Hr; discriminate|].
  destruct asks as [|a0 asks']; [inversion Hr; discriminate|].
  now destruct (analyze_result_parts _ _ _ _ _ _ _ _ Hr) as (_ & _ & _ & H & _).
Qed.

Lemma analyze_reasons_nonempty_witness : reasons bullish_result <> [].
Proof.
  apply (analyze_reasons_nonempty exp_approx (new_engine "TEST")
           bullish_bids bullish_asks None).
  vm_compute. reflexivity.
Defined.

Lemma max_by_from_In {A} (key : A -> Q) (best : A) (xs : list A) :
  In (max_by_from key best xs) (best :: xs).
Proof.
  revert best. induction xs as [|x xs IH]; intro best; cbn [max_by_from].
  - left. reflexivity.
  - destruct (Qlt_bool (key best) (key x)).
    + right. apply IH.
    + destruct (IH best) as [H|H]; [left; exact H|right; right; exact H].
Qed.

Lemma max_by_from_upper {A} (key : A -> Q) (best : A) (xs : list A) :
  key best <= key (max_by_from key best xs) /\
  forall x, In x xs -> key x <= key (max_by_from key best xs).
Proof.
  revert best. induction xs as [|x xs IH]; intro best; cbn [max_by_from].
  - split; [lra|intros x []].
  - destruct (Qlt_bool (key best) (key x)) eqn:E.
    + apply Qlt_bool_true in E. destruct (IH x) as [H1 H2]. split; [lra|].
      intros y [->|Hy]; [exact H1|now apply H2].
    + apply Qlt_bool_false in E. destruct (IH best) as [H1 H2].
      split; [exact H1|].
      intros y [->|Hy]; [lra|now apply H2].
Qed.

Lemma py_max_by_largest {A} (key : A -> Q) (xs : list A) :
  match py_max_by key xs with
  | None => xs = []
  | Some m => In m xs /\ forall x, In x xs -> key x <= key m
  end.
Proof.
  destruct xs as [|x xs]; cbn [py_max_by]; [reflexivity|].
  split; [apply max_by_from_In|].
  destruct (max_by_from_upper key x xs) as [H1 H2].
  intros y [->|Hy]; [exact H1|now apply H2].
Qed.

(** X10.  The largest-order figures of [_calc_wall_score] are the maxima
    over the first 20 levels of each side: no such level has a larger
    value, some such level has exactly that value, and the figure of an
    empty side is 0. *)
Theorem wall_score_reports_largest :
  forall (bids asks : list OrderBookLevel) (total_bid total_ask : Q),
    let '(_, largest_bid, largest_ask) :=
      _calc_wall_score bids asks total_bid total_ask in
    (forall l, In l (firstn 20 bids) -> value_usd l <= largest_bid) /\
    (forall l, In l (firstn 20 asks) -> value_usd l <= largest_ask) /\
    (match bids with
     | [] => largest_bid = 0
     | _ => exists l, In l (firstn 20 bids) /\ largest_bid = value_usd l
     end) /\
    (match asks with
     | [] => largest_ask = 0
     | _ => exists l, In l (firstn 20 asks) /\ largest_ask = value_usd l
     end).
Proof.
  intros bids asks tb ta. unfold _calc_wall_score.
  pose proof (py_max_by_largest value_usd (firstn 20 bids)) as Hb.
  pose proof (py_max_by_largest value_usd (firstn 20 asks)) as Ha.
  destruct (py_max_by value_usd (firstn 20 bids)) as [mb|];
    destruct (py_max_by value_usd (firstn 20 asks)) as [ma|].
  - destruct Hb as [Hb1 Hb2]. destruct Ha as [Ha1 Ha2].
    split; [exact Hb2|]. split; [exact Ha2|].
    split; [destruct bids; [destruct Hb1|eauto]
           |destruct asks; [destruct Ha1|eauto]].
  - destruct Hb as [Hb1 Hb2]. rewrite Ha.
    split; [exact Hb2|]. split; [intros l []|].
    split; [destruct bids; [destruct Hb1|eauto]
           |destruct asks; [reflexivity|discriminate Ha]].
  - destruct Ha as [Ha1 Ha2]. rewrite Hb.
    split; [intros l []|]. split; [exact Ha2|].
    split; [destruct bids; [reflexivity|discriminate Hb]
           |destruct asks; [destruct Ha1|eauto]].
  - rewrite Ha, Hb.
    split; [intros l []|]. split; [intros l []|].
    split; [destruct bids; [reflexivity|discriminate Hb]
           |destruct asks; [reflexivity|discriminate Ha]].
Qed.

(** The buy value minus the sell value of a trade window, and their sum. *)
Definition window_delta (trades : list (Q * string)) : Q :=
  py_sum (map fst (List.filter (fun t => String.eqb (snd t) "buy") trades))
  - py_sum (map fst (List.filter (fun t => String.eqb (snd t) "sell") trades)).

Definition window_total (trades : list (Q * string)) : Q :=
  py_sum (map fst (List.filter (fun t => String.eqb (snd t) "buy") trades))
  + py_sum (map fst (List.filter (fun t => String.eqb (snd t) "sell") trades)).

Lemma flow_score_delta (e : SignalEngine) (ts : list (Q * string)) :
  ~ window_total ts == 0 ->
  cumulative_delta (fst (_calc_flow_score e ts))
  = cumulative_delta e + window_delta ts.
Proof.
  intro H. unfold _calc_flow_score. fold (window_total ts).
  apply Qeq_bool_false in H. rewrite H. reflexivity.
Qed.

Lemma analyze_cumulative_delta (exp : Q -> Q) (e : SignalEngine)
    (b0 a0 : OrderBookLevel) (bids' asks' : list OrderBookLevel)
    (t : Q * string) (ts : list (Q * string)) (r : SignalResult) :
  snd (analyze exp e (b0 :: bids') (a0 :: asks') (Some (t :: ts))) = Ok r ->
  cumulative_delta
    (fst (analyze exp e (b0 :: bids') (a0 :: asks') (Some (t :: ts))))
  = cumulative_delta (fst (_calc_flow_score e (t :: ts))).
Proof.
  unfold analyze.
  destruct (_calc_imbalance (b0 :: bids') (a0 :: asks'))
    as [[[imb bv] av] ratio].
  destruct (_calc_weighted_pressure _ _ _ _) as [pressure|err];
    [|discriminate].
  destruct (_calc_wall_score _ _ _ _) as [[wall lb] la].
  destruct (_calc_spread_score _ _) as [[spread bps]|err]; [|discriminate].
  destruct (_calc_flow_score e (t :: ts)) as [e1 flow].
  destruct (_score_to_signal _) as [sig conf].
  destruct (_find_liquidity_zones _ _ _) as [supports resistances].
  destruct (_generate_suggestions _ _ _) as [[sc rv]|err]; [|discriminate].
  destruct (_generate_reasons _) as [rs|err]; [|discriminate].
  reflexivity.
Qed.

(** X11.  Every call of [analyze] that returns a result for a trade window
    with non-zero total adds the buy-minus-sell value of the whole window
    to [cumulative_delta]; the next call on the same book returns a result
    too, and a window passed again is added again.  A call that raises
    leaves [cumulative_delta] as it was: the book is checked before the
    window is read. *)
Theorem analyze_adds_window_delta_each_call :
  forall (exp : Q -> Q) (e : SignalEngine) (b0 a0 : OrderBookLevel)
         (bids' asks' : list OrderBookLevel)
         (t : Q * string) (ts : list (Q * string)),
    ~ window_total (t :: ts) == 0 ->
    let once :=
      fst (analyze exp e (b0 :: bids') (a0 :: asks') (Some (t :: ts))) in
    let twice :=
      fst (analyze exp once (b0 :: bids') (a0 :: asks') (Some (t :: ts))) in
    (forall r,
        snd (analyze exp e (b0 :: bids') (a0 :: asks') (Some (t :: ts)))
        = Ok r ->
        cumulative_delta once = cumulative_delta e + window_delta (t :: ts) /\
        (exists r',
            snd (analyze exp once (b0 :: bids') (a0 :: asks')
                   (Some (t :: ts))) = Ok r') /\
        cumulative_delta twice
        = cumulative_delta e + window_delta (t :: ts)
          + window_delta (t :: ts)) /\
    (forall err,
        snd (analyze exp e (b0 :: bids') (a0 :: asks') (Some (t :: ts)))
        = Raise err ->
        cumulative_delta once = cumulative_delta e).
Proof.
  intros exp e b0 a0 bids' asks' t ts Htot once twice.
  assert (Hstep : forall e0 r0,
    snd (analyze exp e0 (b0 :: bids') (a0 :: asks') (Some (t :: ts)))
    = Ok r0 ->
    cumulative_delta
      (fst (analyze exp e0 (b0 :: bids') (a0 :: asks') (Some (t :: ts))))
    = cumulative_delta e0 + window_delta (t :: ts)).
  { intros e0 r0 Hr0.
    rewrite (analyze_cumulative_delta _ _ _ _ _ _ _ _ _ Hr0).
    now apply flow_score_delta. }
  split.
  - intros r Hr.
    destruct (analyze_returns_whatever_engine exp e once b0 a0 bids' asks'
                (Some (t :: ts)) (Some (t :: ts)) r Hr) as [r' Hr'].
    split; [exact (Hstep e r Hr)|]. split; [exists r'; exact Hr'|].
    unfold twice. rewrite (Hstep once r' Hr').
    unfold once. now rewrite (Hstep e r Hr).
  - intros err Herr. unfold once.
    now rewrite (analyze_raise_keeps_engine exp e _ _ _ err Herr).
Qed.

Lemma analyze_adds_window_delta_each_call_witness :
  cumulative_delta
    (fst (analyze exp_approx
            (fst (analyze exp_approx (new_engine "TEST")
                    bullish_bids bullish_asks
                    (Some [(1200, "buy"%string); (300, "sell"%string)])))
            bullish_bids bullish_asks
            (Some [(1200, "buy"%string); (300, "sell"%string)])))
  = 0 + window_delta [(1200, "buy"%string); (300, "sell"%string)]
    + window_delta [(1200, "buy"%string); (300, "sell"%string)].
Proof.
  destruct (analyze_adds_window_delta_each_call exp_approx (new_engine "TEST")
              (level 100 500) (level 100.1 200)
              [level 99.9 300; level 99.8 1000; level 99.7 200]
              [level 100.2 150; level 100.3 100]
              (1200, "buy"%string) [(300, "sell"%string)]) as [Hok _].
  - vm_compute. intro H. discriminate H.
  - edestruct Hok as (_ & _ & E); [vm_compute; reflexivity|exact E].
Defined.

(** ** Liquidity zones *)

(** Sums over clusters and zones. *)
Definition Qsum (xs : list Q) : Q := fold_right Qplus 0 xs.

Definition count_sum (clusters : list (Q * Cluster)) : nat :=
  list_sum (map (fun kc => count (snd kc)) clusters).

Definition volume_sum (clusters : list (Q * Cluster)) : Q :=
  Qsum (map (fun kc => volume (snd kc)) clusters).

Definition zone_count_sum (zones : list LiquidityZone) : nat :=
  list_sum (map order_count zones).

Definition zone_volume_sum (zones : list LiquidityZone) : Q :=
  Qsum (map total_volume_usd zones).

(** The test of the clustering loop: the level lies between 0% and 50%
    away from the mid price on its side. *)
Definition within_reach (dist : Q -> Q) (mid : Q) (l : OrderBookLevel) : bool :=
  Qle_bool 0 (dist (lvl_price l) / mid * 100)
  && Qle_bool (dist (lvl_price l) / mid * 100) 50.

Lemma cluster_add_sums (k : Q) (l : OrderBookLevel)
    (clusters : list (Q * Cluster)) :
  count_sum (cluster_add k l clusters) = S (count_sum clusters) /\
  volume_sum (cluster_add k l clusters) == volume_sum clusters + value_usd l.
Proof.
  unfold count_sum, volume_sum, Qsum, list_sum.
  induction clusters as [|[k0 c] rest [IHc IHv]]; cbn [cluster_add].
  - cbn. split; [reflexivity|ring].
  - destruct (Qeq_bool k0 k);
      cbn [map list_sum fold_right snd count volume] in *.
    + split; [lia|ring].
    + split; [lia|]. rewrite IHv. ring.
Qed.

Lemma cluster_add_positive (k : Q) (l : OrderBookLevel)
    (clusters : list (Q * Cluster)) :
  Forall (fun kc => (1 <= count (snd kc))%nat) clusters ->
  Forall (fun kc => (1 <= count (snd kc))%nat) (cluster_add k l clusters).
Proof.
  induction 1 as [|[k0 c] rest Hc Hrest IH]; cbn [cluster_add].
  - repeat constructor.
  - destruct (Qeq_bool k0 k); constructor; try assumption. cbn. lia.
Qed.

Lemma collect_clusters_sums (dist : Q -> Q) (mid : Q)
    (levels : list OrderBookLevel) :
  count_sum (collect_clusters dist mid levels)
  = length (List.filter (within_reach dist mid) levels) /\
  volume_sum (collect_clusters dist mid levels)
  == Qsum (map value_usd (List.filter (within_reach dist mid) levels)) /\
  Forall (fun kc => (1 <= count (snd kc))%nat)
         (collect_clusters dist mid levels).
Proof.
  unfold collect_clusters.
  set (step := fun clusters l => _).
  assert (G : forall acc,
    Forall (fun kc => (1 <= count (snd kc))%nat) acc ->
    count_sum (fold_left step levels acc)
    = (count_sum acc + length (List.filter (within_reach dist mid) levels))%nat /\
    volume_sum (fold_left step levels acc)
    == volume_sum acc
       + Qsum (map value_usd (List.filter (within_reach dist mid) levels)) /\
    Forall (fun kc => (1 <= count (snd kc))%nat) (fold_left step levels acc)).
  { induction levels as [|l levels IH]; intros acc Hacc; cbn [fold_left List.filter].
    - cbn [length map Qsum fold_right]. split; [lia|].
      split; [unfold Qsum; cbn [fold_right]; ring|exact Hacc].
    - unfold step at 2 4 6. fold (within_reach dist mid l).
      destruct (within_reach dist mid l).
      + match goal with
        | |- context [cluster_add ?k l acc] =>
            destruct (cluster_add_sums k l acc) as [Hc Hv];
            pose proof (cluster_add_positive k l acc Hacc) as Hp;
            destruct (IH (cluster_add k l acc) Hp) as (IH1 & IH2 & IH3)
        end.
        split; [rewrite IH1, Hc; cbn [length]; lia|].
        split; [rewrite IH2, Hv; unfold Qsum; cbn [map fold_right]; ring|].
        exact IH3.
      + apply IH. exact Hacc. }
  destruct (G [] ltac:(constructor)) as (G1 & G2 & G3).
  split; [rewrite G1; reflexivity|].
  split; [rewrite G2; unfold volume_sum, Qsum; cbn [map fold_right]; ring|].
  exact G3.
Qed.

Lemma zones_of_sums (zone_side : string) (dist : Q -> Q) (mid : Q)
    (clusters : list (Q * Cluster)) :
  zone_count_sum (zones_of zone_side dist mid clusters) = count_sum clusters /\
  zone_volume_sum (zones_of zone_side dist mid clusters)
  = volume_sum clusters /\
  (Forall (fun kc => (1 <= count (snd kc))%nat) clusters ->
   Forall (fun z => (1 <= order_count z)%nat)
          (zones_of zone_side dist mid clusters)).
Proof.
  unfold zones_of, zone_count_sum, zone_volume_sum, count_sum, volume_sum.
  rewrite !map_map. cbn [order_count total_volume_usd].
  split; [reflexivity|]. split; [reflexivity|].
  intro H. apply Forall_map. exact H.
Qed.

Lemma insert_desc_sums (z : LiquidityZone) (zones : list LiquidityZone) :
  zone_count_sum (insert_desc total_volume_usd z zones)
  = (order_count z + zone_count_sum zones)%nat /\
  zone_volume_sum (insert_desc total_volume_usd z zones)
  == total_volume_usd z + zone_volume_sum zones.
Proof.
  unfold zone_count_sum, zone_volume_sum, Qsum, list_sum.
  induction zones as [|y ys [IH1 IH2]]; cbn [insert_desc].
  - split; reflexivity.
  - destruct (Qlt_bool _ _); cbn [map list_sum fold_right] in *.
    + split; [lia|]. rewrite IH2. ring.
    + split; reflexivity.
Qed.

Lemma sort_desc_sums (zones : list LiquidityZone) :
  zone_count_sum (sort_desc total_volume_usd zones) = zone_count_sum zones /\
  zone_volume_sum (sort_desc total_volume_usd zones) == zone_volume_sum zones /\
  (Forall (fun z => (1 <= order_count z)%nat) zones ->
   Forall (fun z => (1 <= order_count z)%nat)
          (sort_desc total_volume_usd zones)).
Proof.
  unfold sort_desc. induction zones as [|z zs (IH1 & IH2 & IH3)];
    cbn [fold_right].
  - split; [reflexivity|]. split; [reflexivity|auto].
  - destruct (insert_desc_sums z (fold_right (insert_desc total_volume_usd) [] zs))
      as [H1 H2].
    split; [rewrite H1, IH1; reflexivity|].
    split; [rewrite H2, IH2; reflexivity|].
    intro H. inversion H; subst.
    apply insert_desc_Forall; [assumption|now apply IH3].
Qed.

(** X7.  Clustering loses and invents nothing.  For a non-zero mid price,
    the support zones together count exactly the bids that lie between 0%
    and 50% below the mid price and hold exactly their value, every zone
    holds at least one order, and the same is true of the resistance zones
    and the asks between 0% and 50% above.  For a zero mid price there are
    no zones. *)
Theorem zones_conserve_levels :
  forall (bids asks : list OrderBookLevel) (mid : Q),
    let '(supports, resistances) := _find_liquidity_zones bids asks mid in
    (mid == 0 -> supports = [] /\ resistances = []) /\
    (~ mid == 0 ->
     let near_bids :=
       List.filter (within_reach (fun p => mid - p) mid) bids in
     let near_asks :=
       List.filter (within_reach (fun p => p - mid) mid) asks in
     zone_count_sum supports = length near_bids /\
     zone_volume_sum supports == Qsum (map value_usd near_bids) /\
     Forall (fun z => (1 <= order_count z)%nat) supports /\
     zone_count_sum resistances = length near_asks /\
     zone_volume_sum resistances == Qsum (map value_usd near_asks) /\
     Forall (fun z => (1 <= order_count z)%nat) resistances).
Proof.
  intros bids asks mid. unfold _find_liquidity_zones.
  destruct (Qeq_bool mid 0) eqn:E.
  - split; [auto|]. intro H. apply Qeq_bool_iff in E. contradiction.
  - split; [intro H; apply Qeq_bool_false in E; contradiction|].
    intros _. cbv zeta.
    destruct (collect_clusters_sums (fun p => mid - p) mid bids)
      as (Cb1 & Cb2 & Cb3).
    destruct (collect_clusters_sums (fun p => p - mid) mid asks)
      as (Ca1 & Ca2 & Ca3).
    destruct (zones_of_sums "bid" (fun p => mid - p) mid
                (collect_clusters (fun p => mid - p) mid bids))
      as (Zb1 & Zb2 & Zb3).
    destruct (zones_of_sums "ask" (fun p => p - mid) mid
                (collect_clusters (fun p => p - mid) mid asks))
      as (Za1 & Za2 & Za3).
    destruct (sort_desc_sums
                (zones_of "bid" (fun p => mid - p) mid
                   (collect_clusters (fun p => mid - p) mid bids)))
      as (Sb1 & Sb2 & Sb3).
    destruct (sort_desc_sums
                (zones_of "ask" (fun p => p - mid) mid
                   (collect_clusters (fun p => p - mid) mid asks)))
      as (Sa1 & Sa2 & Sa3).
    split; [rewrite Sb1, Zb1; exact Cb1|].
    split; [rewrite Sb2, Zb2; exact Cb2|].
    split; [apply Sb3, Zb3, Cb3|].
    split; [rewrite Sa1, Za1; exact Ca1|].
    split; [rewrite Sa2, Za2; exact Ca2|].
    apply Sa3, Za3, Ca3.
Qed.

Lemma zones_conserve_levels_witness :
  zone_count_sum (fst (_find_liquidity_zones far_wall_bids far_wall_asks 100))
  = 2%nat.
Proof.
  pose proof (zones_conserve_levels far_wall_bids far_wall_asks 100) as H.
  destruct (_find_liquidity_zones far_wall_bids far_wall_asks 100)
    as [supports resistances].
  destruct H as [_ H]. destruct H as (H1 & _).
  - intro E. discriminate E.
  - cbn [fst]. rewrite H1. reflexivity.
Defined.

Lemma py_sum_Qsum (xs : list Q) : py_sum xs == Qsum xs.
Proof.
  unfold py_sum, Qsum. induction xs as [|x xs IH]; cbn [fold_left fold_right].
  - reflexivity.
  - rewrite fold_plus_shift, IH. ring.
Qed.

Lemma inject_length_succ {A} (x : A) (xs : list A) :
  inject_Z (Z.of_nat (length (x :: xs)))
  == inject_Z (Z.of_nat (length xs)) + 1.
Proof.
  cbn [length]. rewrite Nat2Z.inj_succ. unfold Z.succ.
  rewrite inject_Z_plus. reflexivity.
Qed.

(** The mean of prices keeps an affine quantity of the prices within the
    bounds that hold for each price. *)
Lemma mean_affine_bounds (a b : Q) (ps : list Q) :
  ps <> [] ->
  Forall (fun p => 0 <= a * p + b <= 50) ps ->
  0 <= a * (py_sum ps / inject_Z (Z.of_nat (length ps))) + b <= 50.
Proof.
  intros Hne Hall.
  set (n := inject_Z (Z.of_nat (length ps))).
  assert (Hn : 0 < n).
  { unfold n. destruct ps as [|p ps]; [congruence|].
    change 0 with (inject_Z 0). rewrite <- Zlt_Qlt. cbn [length]. lia. }
  assert (Hsum : 0 <= a * Qsum ps + n * b <= 50 * n).
  { unfold n. clear Hn n Hne.
    induction Hall as [|p ps Hp Hps IH].
    - unfold Qsum. cbn [length fold_right].
      change (inject_Z (Z.of_nat 0)) with 0. lra.
    - rewrite inject_length_succ. unfold Qsum in *. cbn [fold_right].
      lra. }
  assert (E : a * (py_sum ps / n) + b == (a * Qsum ps + n * b) / n).
  { rewrite py_sum_Qsum. field. lra. }
  rewrite E. split.
  - apply Qle_shift_div_l; [exact Hn|lra].
  - apply Qle_shift_div_r; [exact Hn|lra].
Qed.

(** A cluster built by the loop holds at least one price, and each of its
    prices passed the distance test. *)
Definition cluster_ok (dist : Q -> Q) (mid : Q) (kc : Q * Cluster) : Prop :=
  prices (snd kc) <> [] /\
  Forall (fun p => 0 <= dist p / mid * 100 <= 50) (prices (snd kc)).

Lemma cluster_add_ok (dist : Q -> Q) (mid k : Q) (l : OrderBookLevel)
    (clusters : list (Q * Cluster)) :
  0 <= dist (lvl_price l) / mid * 100 <= 50 ->
  Forall (cluster_ok dist mid) clusters ->
  Forall (cluster_ok dist mid) (cluster_add k l clusters).
Proof.
  intros Hl. induction 1 as [|[k0 c] rest [Hne Hc] Hrest IH]; cbn [cluster_add].
  - constructor; [|constructor]. split; cbn; [discriminate|].
    constructor; [exact Hl|constructor].
  - destruct (Qeq_bool k0 k); constructor; try assumption; try (split; assumption).
    split; cbn [snd prices].
    + destruct (prices c); discriminate.
    + apply Forall_app. split; [exact Hc|]. constructor; [exact Hl|constructor].
Qed.

Lemma collect_clusters_ok (dist : Q -> Q) (mid : Q)
    (levels : list OrderBookLevel) :
  Forall (cluster_ok dist mid) (collect_clusters dist mid levels).
Proof.
  unfold collect_clusters.
  set (step := fun clusters l => _).
  assert (G : forall acc, Forall (cluster_ok dist mid) acc ->
                          Forall (cluster_ok dist mid) (fold_left step levels acc)).
  { induction levels as [|l levels IH]; intros acc Hacc; cbn [fold_left].
    - exact Hacc.
    - apply IH. unfold step.
      destruct (Qle_bool 0 _) eqn:E1; cbn [andb]; [|exact Hacc].
      destruct (Qle_bool _ 50) eqn:E2; [|exact Hacc].
      apply Qle_bool_iff in E1. apply Qle_bool_iff in E2.
      apply cluster_add_ok; [split; assumption|exact Hacc]. }
  apply G. constructor.
Qed.

Lemma zones_of_within_reach (zone_side : string) (dist : Q -> Q) (mid a b : Q)
    (clusters : list (Q * Cluster)) :
  (forall p, dist p / mid * 100 == a * p + b) ->
  Forall (cluster_ok dist mid) clusters ->
  Forall (fun z => 0 <= distance_pct z <= 50 /\ side z = zone_side)
         (zones_of zone_side dist mid clusters).
Proof.
  intros Haff Hok. unfold zones_of. apply Forall_map.
  eapply Forall_impl; [exact Hok|].
  intros [k c] [Hne Hall]. cbn [snd fst distance_pct side] in *.
  split; [|reflexivity].
  destruct (prices c) as [|p ps] eqn:Ep; [congruence|].
  rewrite Haff.
  apply mean_affine_bounds; [discriminate|].
  eapply Forall_impl; [exact Hall|].
  intros q Hq. cbn in Hq. rewrite <- Haff. exact Hq.
Qed.

(** X8.  Every zone [_find_liquidity_zones] reports lies between 0% and
    50% away from the mid price: the distance of a zone is that of the mean
    of its prices, each of which passed the distance test.  Support zones
    carry the side "bid" and resistance zones the side "ask". *)
Theorem zones_within_reach :
  forall (bids asks : list OrderBookLevel) (mid : Q),
    let '(supports, resistances) := _find_liquidity_zones bids asks mid in
    Forall (fun z => 0 <= distance_pct z <= 50 /\ side z = "bid"%string)
           supports /\
    Forall (fun z => 0 <= distance_pct z <= 50 /\ side z = "ask"%string)
           resistances.
Proof.
  intros bids asks mid. unfold _find_liquidity_zones.
  destruct (Qeq_bool mid 0) eqn:E; [split; constructor|].
  apply Qeq_bool_false in E.
  split; unfold sort_desc.
  - assert (H : Forall (fun z => 0 <= distance_pct z <= 50
                                 /\ side z = "bid"%string)
                  (zones_of "bid" (fun p => mid - p) mid
                     (collect_clusters (fun p => mid - p) mid bids))).
    { apply (zones_of_within_reach "bid" _ mid (- (100 / mid)) 100);
        [intro p; field; exact E|apply collect_clusters_ok]. }
    induction H as [|z zs Hz Hzs IH]; cbn [fold_right]; [constructor|].
    now apply insert_desc_Forall.
  - assert (H : Forall (fun z => 0 <= distance_pct z <= 50
                                 /\ side z = "ask"%string)
                  (zones_of "ask" (fun p => p - mid) mid
                     (collect_clusters (fun p => p - mid) mid asks))).
    { apply (zones_of_within_reach "ask" _ mid (100 / mid) (-100));
        [intro p; field; exact E|apply collect_clusters_ok]. }
    induction H as [|z zs Hz Hzs IH]; cbn [fold_right]; [constructor|].
    now apply insert_desc_Forall.
Qed.
End SignalEngineMore.

(** ** The analyzer: bounds, tracked instruments, thresholds *)

Section AnalyzerMore.

Import Analyzer.

(** Both rings within their capacity. *)
Definition rings_bounded (self : OrderFlowAnalyzer) : Prop :=
  (length (alerts self) <= 500)%nat /\
  map_Forall (fun _ d => (length d <= 100)%nat) (recent_trades self).

(** The instruments an analyzer tracks. *)
Definition tracked (self : OrderFlowAnalyzer) : gset string * gset string :=
  (dom (stats self), dom (recent_trades self)).

(** A property of the analyzer that a step hands on. *)
Definition keeps (P : OrderFlowAnalyzer -> Prop) (o : Outcome) : Prop :=
  P (fst (fst o)).

Lemma and_then_keeps (P : OrderFlowAnalyzer -> Prop) (first : Outcome)
    (next : OrderFlowAnalyzer -> Outcome) :
  keeps P first -> (forall s, P s -> keeps P (next s)) ->
  keeps P (and_then first next).
Proof.
  unfold keeps. destruct first as [[s1 out1] [e|]]; cbn [and_then fst].
  - auto.
  - intros H1 H2. specialize (H2 s1 H1).
    destruct (next s1) as [[s2 out2] err]. exact H2.
Qed.

(** A property that only reads the rings and the tracked instruments is
    kept by [emit] as soon as appending to the alerts keeps it. *)
Lemma emit_keeps (P : OrderFlowAnalyzer -> Prop) (now : Q) (a : WhaleAlert)
    (self : OrderFlowAnalyzer) :
  P self -> P (set_alerts self (deque_append 500 (alerts self) a)) ->
  keeps P (emit now a self).
Proof.
  intros H1 H2. unfold keeps, emit, _emit_alert.
  destruct (last (alerts self)) as [l|]; [|exact H2].
  destruct (is_duplicate now l a); [exact H1|exact H2].
Qed.

Lemma rings_bounded_append (self : OrderFlowAnalyzer) (a : WhaleAlert) :
  rings_bounded self ->
  rings_bounded (set_alerts self (deque_append 500 (alerts self) a)).
Proof.
  intros [H1 H2]. split; [|exact H2].
  cbn [set_alerts alerts]. unfold deque_append.
  rewrite length_skipn, length_app. cbn [length]. lia.
Qed.

Lemma emit_bounded (now : Q) (a : WhaleAlert) (self : OrderFlowAnalyzer) :
  rings_bounded self -> keeps rings_bounded (emit now a self).
Proof. intro H. apply emit_keeps; [exact H|now apply rings_bounded_append]. Qed.

Lemma update_volume_stats_rings (now : Q) (sym : string)
    (self : OrderFlowAnalyzer) :
  alerts (_update_volume_stats now sym self) = alerts self /\
  recent_trades (_update_volume_stats now sym self) = recent_trades self /\
  dom (stats (_update_volume_stats now sym self)) = dom (stats self).
Proof.
  unfold _update_volume_stats.
  destruct (recent_trades self !! sym); [|auto].
  destruct (stats self !! sym) eqn:E; [|auto].
  cbn [set_stats alerts recent_trades stats]. repeat split.
  apply dom_insert_lookup_L. rewrite E. eauto.
Qed.

Lemma handle_trade_bounded (now : Q) (t : BingX.Trade)
    (self : OrderFlowAnalyzer) :
  rings_bounded self -> keeps rings_bounded (_handle_trade now t self).
Proof.
  intros [Ha Ht]. unfold _handle_trade.
  match goal with
  | |- context [_update_volume_stats now ?s ?x] =>
      set (self1 := _update_volume_stats now s x);
      assert (H1 : rings_bounded self1)
  end.
  { unfold self1.
    destruct (update_volume_stats_rings now (BingX.t_symbol t)
                match recent_trades self !! BingX.t_symbol t with
                | Some d =>
                    {| stats := stats self; alerts := alerts self;
                       recent_trades :=
                         <[BingX.t_symbol t := deque_append 100 d t]>
                           (recent_trades self) |}
                | None => self
                end) as (E1 & E2 & _).
    unfold rings_bounded. rewrite E1, E2.
    destruct (recent_trades self !! BingX.t_symbol t) as [d|];
      cbn [alerts recent_trades]; [|split; assumption].
    split; [exact Ha|].
    apply map_Forall_insert_2; [|exact Ht].
    unfold deque_append. rewrite length_skipn, length_app. cbn [length]. lia. }
  destruct (Qle_bool _ _); [now apply emit_bounded|].
  destruct (Qle_bool _ _); [now apply emit_bounded|exact H1].
Qed.

Lemma detect_walls_keeps (P : OrderFlowAnalyzer -> Prop) (now : Q)
    (sym : string) (st : SymbolStats) (self : OrderFlowAnalyzer) :
  (forall s a, P s -> keeps P (emit now a s)) ->
  P self -> keeps P (_detect_walls now sym st self).
Proof.
  intros Hemit H. unfold _detect_walls. apply and_then_keeps.
  - destruct (largest_bid st); [|exact H].
    destruct (Qle_bool _ _); [now apply Hemit|exact H].
  - intros s Hs. destruct (largest_ask st); [|exact Hs].
    destruct (Qle_bool _ _); [now apply Hemit|exact Hs].
Qed.

Lemma detect_imbalance_keeps (P : OrderFlowAnalyzer -> Prop) (now : Q)
    (sym : string) (st : SymbolStats) (self : OrderFlowAnalyzer) :
  (forall s a, P s -> keeps P (emit now a s)) ->
  P self -> keeps P (_detect_imbalance now sym st self).
Proof.
  intros Hemit H. unfold _detect_imbalance.
  destruct (Qle_bool _ _); [now apply Hemit|].
  destruct (Qle_bool _ _); [|exact H].
  destruct (py_div 1 (imbalance_ratio st)); [now apply Hemit|exact H].
Qed.

Lemma handle_orderbook_keeps (P : OrderFlowAnalyzer -> Prop) (now : Q)
    (ob : BingX.OrderBook) (self : OrderFlowAnalyzer) :
  (forall s a, P s -> keeps P (emit now a s)) ->
  (forall s st0 st, stats s !! BingX.symbol ob = Some st0 -> P s ->
                    P (set_stats s (BingX.symbol ob) st)) ->
  P self -> keeps P (_handle_orderbook now ob self).
Proof.
  intros Hemit Hset H. unfold _handle_orderbook.
  destruct (stats self !! BingX.symbol ob) as [st|] eqn:E; [|exact H].
  destruct (BingX.spread_pct ob) as [spread|e].
  - apply and_then_keeps.
    + apply detect_walls_keeps; [exact Hemit|]. now apply (Hset self st).
    + intros s Hs. now apply detect_imbalance_keeps.
  - unfold keeps. cbn [fst]. now apply (Hset self st).
Qed.

Lemma handle_bounded (now : Q) (ev : Event) (self : OrderFlowAnalyzer) :
  rings_bounded self -> keeps rings_bounded (handle now ev self).
Proof.
  intro H. destruct ev as [ob|t]; cbn [handle].
  - apply handle_orderbook_keeps; [intros; now apply emit_bounded| |exact H].
    intros s st0 st _ Hs. exact Hs.
  - now apply handle_trade_bounded.
Qed.

Lemma run_keeps (P : OrderFlowAnalyzer -> Prop)
    (events : list (Q * Event)) (self : OrderFlowAnalyzer) :
  (forall now ev s, P s -> keeps P (handle now ev s)) ->
  P self -> P (fst (run events self)).
Proof.
  intro Hstep. revert self.
  induction events as [|[now ev] events IH]; intros self H; cbn [run].
  - exact H.
  - specialize (Hstep now ev self H). unfold keeps in Hstep.
    destruct (handle now ev self) as [[s1 out] err]. cbn [fst] in Hstep.
    specialize (IH s1 Hstep). destruct (run events s1) as [s2 trace].
    exact IH.
Qed.

Lemma new_analyzer_bounded (symbols : list string) :
  rings_bounded (new_analyzer symbols).
Proof.
  split; [cbn; lia|].
  unfold new_analyzer. cbn [recent_trades].
  intros sym d Hd. apply elem_of_list_to_map_2 in Hd.
  apply list_elem_of_In in Hd.
  apply in_map_iff in Hd. destruct Hd as (s & E & _). inversion E. cbn. lia.
Qed.

(** X12.  The rings stay within their capacity: over every run that starts
    with at most 500 stored alerts and at most 100 stored trades per
    instrument, the analyzer never holds more than 500 alerts or more than
    100 trades for an instrument.  A new analyzer starts within these
    bounds. *)
Theorem analyzer_rings_bounded :
  forall (events : list (Q * Event)) (self : OrderFlowAnalyzer),
    rings_bounded self ->
    (length (alerts (fst (run events self))) <= 500)%nat /\
    (forall sym d, recent_trades (fst (run events self)) !! sym = Some d ->
                   (length d <= 100)%nat) /\
    (forall symbols, rings_bounded (new_analyzer symbols)).
Proof.
  intros events self H.
  pose proof (run_keeps rings_bounded events self handle_bounded H)
    as [H1 H2].
  split; [exact H1|]. split; [exact H2|apply new_analyzer_bounded].
Qed.

Lemma analyzer_rings_bounded_witness :
  (length (alerts (fst (run interleaved_trades two_coins))) <= 500)%nat.
Proof.
  apply (analyzer_rings_bounded interleaved_trades two_coins).
  apply new_analyzer_bounded.
Defined.

Definition same_tracked (self : OrderFlowAnalyzer) (s : OrderFlowAnalyzer)
  : Prop :=
  tracked s = tracked self.

Lemma emit_tracked (self : OrderFlowAnalyzer) (now : Q) (a : WhaleAlert)
    (s : OrderFlowAnalyzer) :
  same_tracked self s -> keeps (same_tracked self) (emit now a s).
Proof. intro H. apply emit_keeps; exact H. Qed.

Lemma handle_tracked (self : OrderFlowAnalyzer) (now : Q) (ev : Event)
    (s : OrderFlowAnalyzer) :
  same_tracked self s -> keeps (same_tracked self) (handle now ev s).
Proof.
  intro H. destruct ev as [ob|t]; cbn [handle].
  - apply handle_orderbook_keeps;
      [intros; now apply emit_tracked| |exact H].
    intros s0 st0 st E Hs. unfold same_tracked, tracked in *.
    cbn [set_stats stats recent_trades].
    rewrite dom_insert_lookup_L; [exact Hs|]. rewrite E. eauto.
  - unfold _handle_trade.
    match goal with
    | |- context [_update_volume_stats now ?k ?x] =>
        set (s1 := _update_volume_stats now k x);
        assert (H1 : same_tracked self s1)
    end.
    { unfold s1.
      match goal with
      | |- context [_update_volume_stats now ?k ?x] =>
          destruct (update_volume_stats_rings now k x) as (_ & E2 & E3)
      end.
      unfold same_tracked, tracked in *. rewrite E2, E3.
      destruct (recent_trades s !! BingX.t_symbol t) as [d|] eqn:E;
        cbn [stats recent_trades]; [|exact H].
      rewrite dom_insert_lookup_L; [exact H|]. rewrite E. eauto. }
    destruct (Qle_bool _ _); [now apply emit_tracked|].
    destruct (Qle_bool _ _); [now apply emit_tracked|exact H1].
Qed.

(** X13.  A run never changes which instruments are tracked: the keys of
    the stats and of the trade rings after any sequence of events are those
    before it.  In particular no event makes the analyzer start tracking
    an instrument. *)
Theorem run_keeps_tracked_instruments :
  forall (events : list (Q * Event)) (self : OrderFlowAnalyzer),
    dom (stats (fst (run events self))) = dom (stats self) /\
    dom (recent_trades (fst (run events self))) = dom (recent_trades self).
Proof.
  intros events self.
  assert (H : same_tracked self (fst (run events self))).
  { apply run_keeps; [apply handle_tracked|reflexivity]. }
  unfold same_tracked, tracked in H. now injection H.
Qed.

Lemma emit_alerts_cases (now : Q) (a : WhaleAlert) (self : OrderFlowAnalyzer) :
  (emit now a self = (self, [], None)) \/
  (emit now a self
   = (set_alerts self (deque_append 500 (alerts self) a), [a], None)).
Proof.
  unfold emit, _emit_alert.
  destruct (last (alerts self)) as [l|]; [|right; reflexivity].
  destruct (is_duplicate now l a); [left|right]; reflexivity.
Qed.

(** The trade alert [_handle_trade] builds for a trade of a given kind. *)
Definition trade_alert_fields (kind : string) (t : BingX.Trade)
    (a : WhaleAlert) : Prop :=
  alert_type a = kind /\
  symbol a = BingX.t_symbol t /\ side a = BingX.t_side t /\
  value_usd a = BingX.t_value_usd t /\ price a = BingX.t_price t /\
  timestamp a = BingX.t_timestamp t.

(** X14.  A trade raises at most one alert, chosen by its value alone: a
    value of 50,000 or more can only raise a whale_trade alert, a value
    from 10,000 up to 50,000 only a large_trade alert, and a smaller value
    raises nothing and leaves the stored alerts as they are.  The alert
    carries the instrument, side, value, price and timestamp of the trade,
    and the handler raises no exception. *)
Theorem trade_alert_by_value :
  forall (now : Q) (t : BingX.Trade) (self : OrderFlowAnalyzer),
    let '(self', out, err) := _handle_trade now t self in
    err = None /\
    (out = [] \/ exists a, out = [a] /\
       ((50000 <= BingX.t_value_usd t /\ trade_alert_fields "whale_trade" t a)
        \/ (10000 <= BingX.t_value_usd t < 50000 /\
            trade_alert_fields "large_trade" t a))) /\
    (BingX.t_value_usd t < 10000 ->
     out = [] /\ alerts self' = alerts self) /\
    (10000 <= BingX.t_value_usd t -> alerts self = [] ->
     exists a, out = [a] /\ alerts self' = [a]).
Proof.
  intros now t self. unfold _handle_trade.
  match goal with
  | |- context [_update_volume_stats now ?k ?x] =>
      set (s1 := _update_volume_stats now k x);
      assert (Ha : alerts s1 = alerts self)
  end.
  { unfold s1. rewrite update_volume_stats_alerts.
    destruct (recent_trades self !! BingX.t_symbol t); reflexivity. }
  cbn [Config.whale_order_usd Config.large_order_usd Config.THRESHOLDS].
  destruct (Qle_bool 50000 (BingX.t_value_usd t)) eqn:Ew.
  - apply Qle_bool_iff in Ew.
    match goal with
    | |- context [emit now ?a s1] =>
        destruct (emit_alerts_cases now a s1) as [E|E];
        pose proof (f_equal (fun o => alerts (fst (fst o))) E) as Ealerts;
        rewrite E
    end; cbn [fst set_alerts alerts] in Ealerts.
    + split; [reflexivity|]. split; [left; reflexivity|].
      split; [intro; lra|].
      intros _ Hnil. exfalso.
      revert E. unfold emit, _emit_alert. rewrite Ha, Hnil. cbn [last].
      discriminate.
    + split; [reflexivity|].
      split; [right; eexists; split; [reflexivity|];
              left; split; [exact Ew|repeat split]|].
      split; [intro; lra|].
      intros _ Hnil. eexists. split; [reflexivity|].
      cbn [set_alerts alerts]. rewrite Ha, Hnil. reflexivity.
  - apply Qle_bool_false in Ew.
    destruct (Qle_bool 10000 (BingX.t_value_usd t)) eqn:El.
    + apply Qle_bool_iff in El.
      match goal with
      | |- context [emit now ?a s1] =>
          destruct (emit_alerts_cases now a s1) as [E|E]; rewrite E
      end.
      * split; [reflexivity|]. split; [left; reflexivity|].
        split; [intro; lra|].
        intros _ Hnil. exfalso.
        revert E. unfold emit, _emit_alert. rewrite Ha, Hnil. cbn [last].
        discriminate.
      * split; [reflexivity|].
        split; [right; eexists; split; [reflexivity|];
                right; split; [split; assumption|repeat split]|].
        split; [intro; lra|].
        intros _ Hnil. eexists. split; [reflexivity|].
        cbn [set_alerts alerts]. rewrite Ha, Hnil. reflexivity.
    + apply Qle_bool_false in El. cbn [skip].
      split; [reflexivity|]. split; [left; reflexivity|].
      split; [intros _; split; [reflexivity|exact Ha]|intro; lra].
Qed.

(** X15.  Events for an instrument the analyzer does not track leave the
    stats and the trade rings as they are: a book update is ignored
    altogether, and a trade is not stored, although it still goes through
    the alert thresholds. *)
Theorem untracked_instrument_not_recorded :
  forall (now : Q) (self : OrderFlowAnalyzer),
    (forall ob, stats self !! BingX.symbol ob = None ->
                _handle_orderbook now ob self = (self, [], None)) /\
    (forall t, recent_trades self !! BingX.t_symbol t = None ->
       stats (fst (fst (_handle_trade now t self))) = stats self /\
       recent_trades (fst (fst (_handle_trade now t self)))
       = recent_trades self /\
       (50000 <= BingX.t_value_usd t -> alerts self = [] ->
        exists a, snd (fst (_handle_trade now t self)) = [a] /\
                  alert_type a = "whale_trade"%string)).
Proof.
  intros now self. split.
  - intros ob H. unfold _handle_orderbook. rewrite H. reflexivity.
  - intros t H.
    unfold _handle_trade. rewrite H.
    unfold _update_volume_stats. rewrite H.
    destruct (Qle_bool _ _) eqn:Ew.
    + match goal with
      | |- context [emit now ?a self] =>
          destruct (emit_alerts_cases now a self) as [E|E]; rewrite E
      end; cbn [fst snd set_alerts stats recent_trades].
      * split; [reflexivity|]. split; [reflexivity|].
        intros _ Hnil. exfalso.
        revert E. unfold emit, _emit_alert. rewrite Hnil. cbn [last].
        discriminate.
      * split; [reflexivity|]. split; [reflexivity|].
        intros _ _. eexists. split; reflexivity.
    + apply Qle_bool_false in Ew.
      cbn [Config.whale_order_usd Config.THRESHOLDS] in Ew.
      destruct (Qle_bool _ _).
      * match goal with
        | |- context [emit now ?a self] =>
            destruct (emit_alerts_cases now a self) as [E|E]; rewrite E
        end; cbn [fst snd set_alerts stats recent_trades];
          (split; [reflexivity|]; split; [reflexivity|]; intros; lra).
      * cbn [skip fst snd]. split; [reflexivity|]. split; [reflexivity|].
        intros; lra.
Qed.

(** An untracked instrument next to the two tracked ones. *)
Lemma untracked_instrument_not_recorded_witness :
  recent_trades (fst (fst (_handle_trade 0 (whale_buy "SHIB-USDT" 0) two_coins)))
  = recent_trades two_coins /\
  exists a,
    snd (fst (_handle_trade 0 (whale_buy "SHIB-USDT" 0) two_coins)) = [a] /\
    alert_type a = "whale_trade"%string.
Proof.
  destruct (untracked_instrument_not_recorded 0 two_coins) as [_ H].
  destruct (H (whale_buy "SHIB-USDT" 0)) as (_ & H2 & H3).
  - reflexivity.
  - split; [exact H2|]. apply H3; [vm_compute; discriminate|reflexivity].
Defined.

Lemma and_then_no_error (first : Outcome)
    (next : OrderFlowAnalyzer -> Outcome) :
  snd first = None -> (forall s, snd (next s) = None) ->
  snd (and_then first next) = None.
Proof.
  destruct first as [[s1 out1] [e|]]; cbn [snd and_then]; [discriminate|].
  intros _ H. specialize (H s1). destruct (next s1) as [[s2 out2] err].
  exact H.
Qed.

Lemma detect_walls_no_error (now : Q) (sym : string) (st : SymbolStats)
    (self : OrderFlowAnalyzer) :
  snd (_detect_walls now sym st self) = None.
Proof.
  unfold _detect_walls. apply and_then_no_error.
  - destruct (largest_bid st); [|reflexivity].
    destruct (Qle_bool _ _); [apply emit_no_error|reflexivity].
  - intro s. destruct (largest_ask st); [|reflexivity].
    destruct (Qle_bool _ _); [apply emit_no_error|reflexivity].
Qed.

(** X16.  A book whose bid value is zero while its ask value is not (an
    empty bid side above all) makes [_handle_orderbook] end in
    [ZeroDivisionError] on a tracked instrument: the ratio 0 passes the
    sell-pressure test and the message divides by it.  The stats keep the
    ratio 0, and no imbalance alert is emitted. *)
Theorem zero_bid_value_raises :
  forall (now spread : Q) (ob : BingX.OrderBook) (self : OrderFlowAnalyzer)
         (st : SymbolStats),
    stats self !! BingX.symbol ob = Some st ->
    BingX.spread_pct ob = Ok spread ->
    BingX.bid_total_usd ob == 0 ->
    ~ BingX.ask_total_usd ob == 0 ->
    let '(self', out, err) := _handle_orderbook now ob self in
    err = Some ZeroDivisionError /\
    Forall (fun a => alert_type a = "wall_detected"%string) out /\
    (exists st', stats self' !! BingX.symbol ob = Some st' /\
                 imbalance_ratio st' == 0).
Proof.
  intros now spread ob self st Hst Hsp Hbid Hask.
  unfold _handle_orderbook. rewrite Hst, Hsp.
  set (st' := with_book (with_totals st ob) ob spread now).
  set (self1 := set_stats self (BingX.symbol ob) st').
  assert (Hratio : imbalance_ratio st' == 0).
  { unfold st'. cbn [with_book with_totals imbalance_ratio].
    unfold BingX.imbalance_ratio. apply Qeq_bool_false in Hask.
    rewrite Hask, Hbid. unfold Qdiv. ring. }
  assert (Himb : forall s,
    _detect_imbalance now (BingX.symbol ob) st' s
    = (s, [], Some ZeroDivisionError)).
  { intro s. unfold _detect_imbalance.
    cbn [Config.imbalance_ratio Config.THRESHOLDS].
    assert (E1 : Qle_bool 1.5 (imbalance_ratio st') = false)
      by (apply Qle_bool_false; rewrite Hratio; reflexivity).
    assert (E2 : Qle_bool (imbalance_ratio st') (1 / 1.5) = true)
      by (apply Qle_bool_iff; rewrite Hratio; discriminate).
    rewrite E1, E2. unfold py_div.
    apply Qeq_bool_iff in Hratio. rewrite Hratio. reflexivity. }
  pose proof (detect_walls_types now (BingX.symbol ob) st' self1) as Hw.
  pose proof (detect_walls_keeps
                (fun s => stats s !! BingX.symbol ob = Some st')
                now (BingX.symbol ob) st' self1) as Hk.
  destruct (_detect_walls now (BingX.symbol ob) st' self1)
    as [[s1 out1] [e|]] eqn:Ew; cbn [and_then].
  - pose proof (detect_walls_no_error now (BingX.symbol ob) st' self1) as Hn.
    rewrite Ew in Hn. discriminate Hn.
  - rewrite Himb. cbn [fst snd] in *.
    split; [reflexivity|]. split; [now rewrite app_nil_r|].
    exists st'. split; [|exact Hratio].
    apply Hk.
    + intros s a Hs. apply emit_keeps; exact Hs.
    + unfold self1. cbn [set_stats stats]. apply lookup_insert_eq.
Qed.

(** A book with asks and no bids. *)
Definition asks_only_book : BingX.OrderBook := {|
  BingX.symbol := "WIF-USDT";
  BingX.bids := [];
  BingX.asks := [{| BingX.price := 2; BingX.quantity := 100 |}];
  BingX.timestamp := 0
|}.

Lemma zero_bid_value_raises_witness :
  snd (_handle_orderbook 0 asks_only_book two_coins) = Some ZeroDivisionError.
Proof.
  pose proof (zero_bid_value_raises 0 0 asks_only_book two_coins
                (new_stats "WIF-USDT")) as H.
  destruct (_handle_orderbook 0 asks_only_book two_coins) as [[s out] err].
  destruct H as [H _]; try reflexivity.
  - intro E. discriminate E.
  - exact H.
Defined.

Section RecentAlerts.

Import AnalyzerApi.

Variable D : Type.
Variable alert_to_dict : WhaleAlert -> D.

Lemma slice_from_end {A} (k : Z) (xs : list A) :
  (0 < k)%Z -> py_slice_from (- k) xs = last_n (Z.to_nat k) xs.
Proof.
  intro Hk. unfold py_slice_from, last_n.
  assert (E : (- k <? 0)%Z = true) by (apply Z.ltb_lt; lia).
  rewrite E. f_equal. lia.
Qed.

Lemma slice_from_start {A} (k : Z) (xs : list A) :
  (0 <= k)%Z -> py_slice_from k xs = skipn (Z.to_nat k) xs.
Proof.
  intro Hk. unfold py_slice_from.
  assert (E : (k <? 0)%Z = false) by (apply Z.ltb_ge; lia).
  rewrite E.
  destruct (Z.le_gt_cases k (Z.of_nat (length xs))) as [Hle|Hgt].
  - f_equal. lia.
  - rewrite !skipn_all2; [reflexivity|lia|lia].
Qed.

Lemma last_n_snoc {A} (k : nat) (xs : list A) (x : A) :
  (0 < k)%nat ->
  last_n k (xs ++ [x]) = last_n (k - 1) xs ++ [x].
Proof.
  intro Hk. unfold last_n. rewrite length_app. cbn [length].
  rewrite skipn_app.
  replace (length xs + 1 - k - length xs)%nat with 0%nat by lia.
  cbn [skipn]. f_equal. f_equal. lia.
Qed.

(** X17.  [get_recent_alerts(limit)] returns the newest alerts, newest
    first: for a positive limit the last [limit] stored alerts (all of
    them when fewer are stored), starting with the newest.  A limit of 0
    returns every stored alert, not none, and a negative limit -k leaves
    out the k oldest. *)
Theorem get_recent_alerts_window :
  forall (limit : Z) (self : OrderFlowAnalyzer),
    ((0 < limit)%Z ->
     get_recent_alerts D alert_to_dict limit self
     = map alert_to_dict (rev (last_n (Z.to_nat limit) (alerts self))) /\
     length (get_recent_alerts D alert_to_dict limit self)
     = Nat.min (Z.to_nat limit) (length (alerts self)) /\
     head (get_recent_alerts D alert_to_dict limit self)
     = option_map alert_to_dict (last (alerts self))) /\
    (limit = 0%Z ->
     get_recent_alerts D alert_to_dict limit self
     = map alert_to_dict (rev (alerts self))) /\
    ((limit < 0)%Z ->
     get_recent_alerts D alert_to_dict limit self
     = map alert_to_dict (rev (skipn (Z.to_nat (- limit)) (alerts self)))).
Proof.
  intros limit self. unfold get_recent_alerts. split; [|split].
  - intro Hpos. rewrite slice_from_end by exact Hpos.
    split; [reflexivity|]. split.
    + rewrite length_map, length_rev. unfold last_n.
      rewrite length_skipn. lia.
    + destruct (alerts self) as [|a0 rest] eqn:E using rev_ind.
      * reflexivity.
      * rewrite last_snoc, last_n_snoc by lia.
        rewrite rev_app_distr. reflexivity.
  - intros ->. cbn [Z.opp]. rewrite slice_from_start by lia. reflexivity.
  - intro Hneg. rewrite slice_from_start by lia. reflexivity.
Qed.

End RecentAlerts.

Lemma get_recent_alerts_window_witness :
  AnalyzerApi.get_recent_alerts WhaleAlert (fun a => a) 0
    (fst (run interleaved_trades two_coins))
  = rev (alerts (fst (run interleaved_trades two_coins))) /\
  length (AnalyzerApi.get_recent_alerts WhaleAlert (fun a => a) 2
            (fst (run interleaved_trades two_coins))) = 2%nat.
Proof.
  destruct (get_recent_alerts_window WhaleAlert (fun a => a) 0
              (fst (run interleaved_trades two_coins))) as (_ & H0 & _).
  destruct (get_recent_alerts_window WhaleAlert (fun a => a) 2
              (fst (run interleaved_trades two_coins))) as (H2 & _).
  split.
  - rewrite (H0 eq_refl). apply map_id.
  - destruct (H2 ltac:(lia)) as (_ & -> & _). reflexivity.
Defined.
End AnalyzerMore.

(** ** The watcher registry: start, watch and unwatch *)

Section ServerMore.

Import Server.

(** X18.  Starting is idempotent: a second [start] changes nothing, so a
    running watcher keeps its engine, its stats and its trade window when
    it is started again. *)
Theorem start_idempotent :
  forall w : CoinWatcher,
    start (start w) = start w /\
    (running w = true -> start w = w).
Proof.
  intro w. split.
  - unfold start at 2 3. destruct (running w) eqn:E.
    + unfold start. now rewrite E.
    + reflexivity.
  - intro H. unfold start. now rewrite H.
Qed.

(** X19.  A watch request for a venue other than "bingx" and "hyperliquid"
    (the catalog also lists "blofin" contracts) is answered "watching" and
    registers a watcher that is marked running but has no adapter, so it
    will never receive an event. *)
Theorem watch_unsupported_venue_has_no_adapter :
  forall (exch sym : string) (st : ServerState) (c : Exchanges.PerpContract),
    exch <> "bingx"%string -> exch <> "hyperliquid"%string ->
    active_watchers st !! (exch +:+ ":" +:+ sym) = None ->
    Exchanges.get_contract (contracts st) exch sym = Some c ->
    snd (start_watching exch sym st)
    = [("status", "watching"); ("key", exch +:+ ":" +:+ sym)]%string /\
    exists w,
      active_watchers (fst (start_watching exch sym st))
        !! (exch +:+ ":" +:+ sym) = Some w /\
      running w = true /\ client w = None.
Proof.
  intros exch sym st c Hb Hh Hw Hc. unfold start_watching.
  rewrite Hw, Hc. cbn [fst snd active_watchers]. split; [reflexivity|].
  eexists. split; [apply lookup_insert_eq|].
  unfold start. cbn [new_watcher running exchange client].
  apply String.eqb_neq in Hb. apply String.eqb_neq in Hh.
  rewrite Hb, Hh. split; reflexivity.
Qed.

Definition blofin_contract : Exchanges.PerpContract := {|
  Exchanges.symbol := "WIF-USDT"; Exchanges.base_coin := "WIF";
  Exchanges.quote_coin := "USDT"; Exchanges.exchange := "blofin";
  Exchanges.list_time := 0; Exchanges.max_leverage := 50;
  Exchanges.min_size := 1; Exchanges.api_enabled := true
|}.

Definition blofin_server : ServerState := {|
  active_watchers := ∅;
  contracts := {["blofin:WIF-USDT"%string := blofin_contract]}
|}.

Lemma watch_unsupported_venue_has_no_adapter_witness :
  exists w,
    active_watchers (fst (start_watching "blofin" "WIF-USDT" blofin_server))
      !! "blofin:WIF-USDT"%string = Some w /\
    running w = true /\ client w = None.
Proof.
  destruct (watch_unsupported_venue_has_no_adapter "blofin" "WIF-USDT"
              blofin_server blofin_contract) as [_ H];
    try discriminate; try reflexivity.
  exact H.
Defined.

(** X20.  Watch and unwatch undo each other and touch one key only: for a
    key that is not watched and is in the catalog, unwatching after
    watching gives back the registry as it was; and neither request
    changes the watcher of any other key, nor the catalog. *)
Theorem watch_unwatch_round_trip :
  forall (exch sym : string) (st : ServerState),
    (forall c,
        active_watchers st !! (exch +:+ ":" +:+ sym) = None ->
        Exchanges.get_contract (contracts st) exch sym = Some c ->
        fst (stop_watching exch sym (fst (start_watching exch sym st))) = st /\
        snd (stop_watching exch sym (fst (start_watching exch sym st)))
        = [("status", "stopped"); ("key", exch +:+ ":" +:+ sym)]%string) /\
    (forall other,
        other <> exch +:+ ":" +:+ sym ->
        active_watchers (fst (start_watching exch sym st)) !! other
        = active_watchers st !! other /\
        active_watchers (fst (stop_watching exch sym st)) !! other
        = active_watchers st !! other) /\
    contracts (fst (start_watching exch sym st)) = contracts st /\
    contracts (fst (stop_watching exch sym st)) = contracts st /\
    active_watchers (fst (stop_watching exch sym st))
      !! (exch +:+ ":" +:+ sym) = None.
Proof.
  intros exch sym st. split; [|split; [|split; [|split]]].
  - intros c Hw Hc. unfold start_watching. rewrite Hw, Hc. cbn [fst].
    unfold stop_watching. cbn [active_watchers contracts].
    rewrite lookup_insert_eq. cbn [fst snd]. split; [|reflexivity].
    rewrite delete_insert_eq, delete_id by exact Hw.
    destruct st. reflexivity.
  - intros other Hne. split.
    + unfold start_watching.
      destruct (active_watchers st !! _); [reflexivity|].
      destruct (Exchanges.get_contract _ _ _); [|reflexivity].
      cbn [fst active_watchers]. now apply lookup_insert_ne.
    + unfold stop_watching.
      destruct (active_watchers st !! _); [|reflexivity].
      cbn [fst active_watchers]. now apply lookup_delete_ne.
  - unfold start_watching.
    destruct (active_watchers st !! _); [reflexivity|].
    destruct (Exchanges.get_contract _ _ _); reflexivity.
  - unfold stop_watching.
    destruct (active_watchers st !! _); reflexivity.
  - unfold stop_watching.
    destruct (active_watchers st !! _) eqn:E; cbn [fst active_watchers].
    + apply lookup_delete_eq.
    + exact E.
Qed.

Lemma watch_unwatch_round_trip_witness :
  fst (stop_watching "blofin" "WIF-USDT"
         (fst (start_watching "blofin" "WIF-USDT" blofin_server)))
  = blofin_server.
Proof.
  destruct (watch_unwatch_round_trip "blofin" "WIF-USDT" blofin_server)
    as [H _].
  destruct (H blofin_contract) as [E _]; [reflexivity|reflexivity|exact E].
Defined.

Lemma ws_command_skips (msg : gmap string string) (st : ServerState) :
  (msg !! "action"%string <> Some "watch"%string ->
   msg !! "action"%string <> Some "unwatch"%string ->
   ws_command msg st = (st, [])) /\
  (msg !! "action"%string = Some "watch"%string ->
   truthy (msg !! "exchange"%string) && truthy (msg !! "symbol"%string)
   = false ->
   ws_command msg st = (st, [])).
Proof.
  unfold ws_command. split.
  - intros H1 H2.
    destruct (decide (msg !! "action"%string = Some "watch"%string));
      [contradiction|].
    destruct (decide (msg !! "action"%string = Some "unwatch"%string));
      [contradiction|reflexivity].
  - intros H1 H2.
    destruct (decide (msg !! "action"%string = Some "watch"%string));
      [|contradiction].
    now rewrite H2.
Qed.

Lemma ws_loop_skips (msg : gmap string string) (rest : list WsEvent)
    (st : ServerState) :
  ws_command msg st = (st, []) ->
  ws_loop (Received (Object msg) :: rest) st = ws_loop rest st.
Proof.
  intro H. cbn [ws_loop ws_receive]. rewrite H.
  now destruct (ws_loop rest st) as [[st' out] status].
Qed.

(** X21.  What the loop of the WebSocket handler does with a frame it does
    not act on.  A frame that is no JSON document (the bare word ping, say)
    or a JSON value that is no object ends the handler with the exception
    of [json.loads] or of [msg.get]: nothing is sent, the state stays as it
    was and no later frame of that connection is read.  An object whose
    action is neither "watch" nor "unwatch", and a "watch" whose exchange
    or symbol is missing or empty, change nothing and are answered with
    nothing, and the loop goes on as if they had not been sent.  An
    "unwatch" of a key that is not watched changes nothing either, but is
    answered "unwatched".  An idle period is answered with a heartbeat and
    changes nothing. *)
Theorem ws_loop_unhandled_frames :
  forall (msg : gmap string string) (rest : list WsEvent) (st : ServerState),
    ws_loop (Received NotJson :: rest) st
    = (st, [], Left (Some JSONDecodeError)) /\
    ws_loop (Received NotObject :: rest) st
    = (st, [], Left (Some AttributeError)) /\
    (msg !! "action"%string <> Some "watch"%string ->
     msg !! "action"%string <> Some "unwatch"%string ->
     ws_command msg st = (st, []) /\
     ws_loop (Received (Object msg) :: rest) st = ws_loop rest st) /\
    (msg !! "action"%string = Some "watch"%string ->
     truthy (msg !! "exchange"%string) && truthy (msg !! "symbol"%string)
     = false ->
     ws_command msg st = (st, []) /\
     ws_loop (Received (Object msg) :: rest) st = ws_loop rest st) /\
    (msg !! "action"%string = Some "unwatch"%string ->
     active_watchers st
       !! (fmt_opt (msg !! "exchange"%string) +:+ ":"
           +:+ fmt_opt (msg !! "symbol"%string)) = None ->
     ws_command msg st
     = (st, [[("type", "unwatched");
              ("key", fmt_opt (msg !! "exchange"%string) +:+ ":"
                      +:+ fmt_opt (msg !! "symbol"%string))]%string])) /\
    (fst (fst (ws_loop (TimedOut :: rest) st)) = fst (fst (ws_loop rest st)) /\
     snd (fst (ws_loop (TimedOut :: rest) st))
     = [("type", "heartbeat")]%string :: snd (fst (ws_loop rest st)) /\
     snd (ws_loop (TimedOut :: rest) st) = snd (ws_loop rest st)).
Proof.
  intros msg rest st.
  destruct (ws_command_skips msg st) as [Hother Hwatch].
  split; [reflexivity|]. split; [reflexivity|].
  split; [|split; [|split]].
  - intros H1 H2. split; [now apply Hother|].
    apply ws_loop_skips. now apply Hother.
  - intros H1 H2. split; [now apply Hwatch|].
    apply ws_loop_skips. now apply Hwatch.
  - intros H1 H2. unfold ws_command.
    destruct (decide (msg !! "action"%string = Some "watch"%string)) as [E|_];
      [rewrite H1 in E; discriminate|].
    destruct (decide (msg !! "action"%string = Some "unwatch"%string));
      [|contradiction].
    now rewrite H2.
  - cbn [ws_loop].
    destruct (ws_loop rest st) as [[st' out] status]. repeat split.
Qed.

(** A frame of a client that asks to watch WIF on bingx. *)
Definition watch_wif : gmap string string :=
  list_to_map [("action", "watch"); ("exchange", "bingx");
               ("symbol", "WIF-USDT")]%string.

Lemma ws_loop_unhandled_frames_witness :
  ws_loop [Received (Object (list_to_map
                               [("action", "watch");
                                ("exchange", "bingx")]%string));
           Received NotJson;
           Received (Object watch_wif)] empty_server
  = (empty_server, [], Left (Some JSONDecodeError)).
Proof.
  destruct (ws_loop_unhandled_frames
              (list_to_map [("action", "watch"); ("exchange", "bingx")]%string)
              [Received NotJson; Received (Object watch_wif)]
              empty_server) as (_ & _ & _ & Hwatch & _).
  destruct Hwatch as [_ E]; [reflexivity|reflexivity|].
  rewrite E.
  apply (ws_loop_unhandled_frames watch_wif [Received (Object watch_wif)]
           empty_server).
Defined.

(** X22.  A book update with an empty side reaches the engine and is
    reported as insufficient data: a started watcher raises nothing, its
    [last_signal] becomes the NEUTRAL result with the reason "Insufficient
    data", its engine (history and cumulative delta) stays as it was, the
    trade window is trimmed as on every book update, and the stats take the
    totals of the book. *)
Theorem one_sided_book_gives_insufficient_data :
  forall (exp : Q -> Q) (now : Q) (ob : BingX.OrderBook) (w : CoinWatcher),
    started w ->
    BingX.bids ob = [] \/ BingX.asks ob = [] ->
    let '(w', err) := _on_orderbook exp now ob w in
    err = None /\
    last_signal w'
    = Some (Signals.default_result [Text "Insufficient data"]) /\
    signal_engine w' = signal_engine w /\
    recent_trades w'
    = List.filter (fun x => Qlt_bool (now - 60) (snd x)) (recent_trades w) /\
    last_update w' = now /\
    exists st, stats w' = Some st /\
               Analyzer.bid_volume_usd st = BingX.bid_total_usd ob /\
               Analyzer.ask_volume_usd st = BingX.ask_total_usd ob /\
               Analyzer.spread_pct st = 0.
Proof.
  intros exp now ob w [[st Hst] [en Hen]] Hside.
  assert (Hsp : BingX.spread_pct ob = Ok 0).
  { unfold BingX.spread_pct. destruct Hside as [-> | ->]; [reflexivity|].
    destruct (BingX.bids ob); reflexivity. }
  unfold _on_orderbook. rewrite Hst, Hsp.
  cbn [store_book signal_engine recent_trades last_orderbook_bids
       last_orderbook_asks last_signal last_update].
  rewrite Hen.
  assert (Han : forall trades,
    Signals.analyze exp en
      (map (fun b => {| Signals.lvl_price := BingX.price b;
                        Signals.quantity := BingX.quantity b |})
           (BingX.bids ob))
      (map (fun a => {| Signals.lvl_price := BingX.price a;
                        Signals.quantity := BingX.quantity a |})
           (BingX.asks ob))
      trades
    = (en, Ok (Signals.default_result [Text "Insufficient data"]))).
  { intro trades. destruct Hside as [-> | ->]; cbn [map]; [reflexivity|].
    unfold Signals.analyze. destruct (map _ (BingX.bids ob)); reflexivity. }
  rewrite Han.
  cbn [store_analysis last_signal signal_engine recent_trades last_update
       stats].
  repeat split; try reflexivity.
  eexists. split; [reflexivity|]. repeat split.
Qed.

Lemma one_sided_book_gives_insufficient_data_witness :
  last_signal (fst (_on_orderbook Signals.exp_approx 5 bids_only_book
                      wif_watcher))
  = Some (Signals.default_result [Text "Insufficient data"]).
Proof.
  pose proof (one_sided_book_gives_insufficient_data Signals.exp_approx 5
                bids_only_book wif_watcher) as H.
  destruct (_on_orderbook Signals.exp_approx 5 bids_only_book wif_watcher)
    as [w' err].
  destruct H as (_ & H & _).
  - apply start_started. reflexivity.
  - right. reflexivity.
  - exact H.
Defined.
End ServerMore.

(** ** The contract catalog *)

Section DiscoveryMore.

Import Exchanges Discovery.

Lemma dict_get_set_eq (k : string) (v : PerpContract) (d : Dict) :
  dict_get k (dict_set k v d) = Some v.
Proof.
  induction d as [|[k0 v0] rest IH]; cbn [dict_set dict_get].
  - now rewrite String.eqb_refl.
  - destruct (String.eqb k0 k) eqn:E; cbn [dict_get]; rewrite E;
      [reflexivity|exact IH].
Qed.

Lemma dict_get_set_ne (k k' : string) (v : PerpContract) (d : Dict) :
  k <> k' -> dict_get k' (dict_set k v d) = dict_get k' d.
Proof.
  intro Hne. induction d as [|[k0 v0] rest IH]; cbn [dict_set dict_get].
  - apply String.eqb_neq in Hne. now rewrite Hne.
  - destruct (String.eqb k0 k) eqn:E; cbn [dict_get].
    + apply String.eqb_eq in E. subst k0.
      apply String.eqb_neq in Hne. now rewrite Hne.
    + destruct (String.eqb k0 k'); [reflexivity|exact IH].
Qed.

Lemma dict_get_In (k : string) (c : PerpContract) (d : Dict) :
  dict_get k d = Some c -> In (k, c) d.
Proof.
  induction d as [|[k0 v0] rest IH]; cbn [dict_get]; [discriminate|].
  destruct (String.eqb k0 k) eqn:E.
  - apply String.eqb_eq in E. intro H. inversion H; subst. left. reflexivity.
  - intro H. right. now apply IH.
Qed.

Lemma dict_set_keys (k : string) (v : PerpContract) (d : Dict) :
  List.NoDup (map fst d) ->
  List.NoDup (map fst (dict_set k v d)) /\
  forall k', In k' (map fst (dict_set k v d)) -> k' = k \/ In k' (map fst d).
Proof.
  induction d as [|[k0 v0] rest IH]; cbn [dict_set map fst]; intro Hnd.
  - split; [repeat constructor; intros []|]. intros k' [->|[]]. now left.
  - inversion Hnd as [|? ? Hnotin Hrest]; subst.
    destruct (String.eqb k0 k) eqn:E; cbn [map fst].
    + split; [exact Hnd|]. intros k' H. now right.
    + destruct (IH Hrest) as [IH1 IH2]. split.
      * constructor; [|exact IH1]. intro Hin.
        destruct (IH2 k0 Hin) as [->|H]; [|contradiction].
        now rewrite String.eqb_refl in E.
      * intros k' [->|H]; [right; now left|].
        destruct (IH2 k' H) as [->|H']; [now left|right; now right].
Qed.

(** The key [refresh] files a contract of a venue under. *)
Definition key_of (venue : string) (c : PerpContract) : string :=
  venue +:+ ":" +:+ symbol c.

Lemma merge_cons (venue : string) (c : PerpContract)
    (cs : list PerpContract) (d : Dict) :
  merge venue (c :: cs) d = merge venue cs (dict_set (key_of venue c) c d).
Proof. reflexivity. Qed.

Lemma merge_keys (venue : string) (cs : list PerpContract) (d : Dict) :
  List.NoDup (map fst d) -> List.NoDup (map fst (merge venue cs d)).
Proof.
  revert d. induction cs as [|c cs IH]; intros d H; [exact H|].
  rewrite merge_cons. apply IH. now apply dict_set_keys.
Qed.

(** A lookup after a merge finds what was there before, or a contract of
    the merged list filed under that key. *)
Lemma merge_get (venue : string) (cs : list PerpContract) (d : Dict)
    (k : string) :
  dict_get k (merge venue cs d) = dict_get k d \/
  exists c, In c cs /\ key_of venue c = k /\
            dict_get k (merge venue cs d) = Some c.
Proof.
  revert d. induction cs as [|c cs IH]; intro d; [now left|].
  rewrite merge_cons.
  destruct (IH (dict_set (key_of venue c) c d)) as [H|(c' & Hin & Hk & H)].
  - destruct (String.eqb_spec (key_of venue c) k) as [E|E].
    + right. exists c. split; [now left|]. split; [exact E|].
      rewrite H, <- E. apply dict_get_set_eq.
    + left. rewrite H. now apply dict_get_set_ne.
  - right. exists c'. split; [now right|]. split; assumption.
Qed.

Lemma merge_get_listed (venue : string) (cs : list PerpContract) (d : Dict)
    (c : PerpContract) :
  In c cs ->
  exists c', In c' cs /\ symbol c' = symbol c /\
             dict_get (key_of venue c) (merge venue cs d) = Some c'.
Proof.
  revert d. induction cs as [|c0 cs IH]; intros d Hin; [destruct Hin|].
  rewrite merge_cons. destruct Hin as [->|Hin].
  - destruct (merge_get venue cs (dict_set (key_of venue c) c d)
                (key_of venue c)) as [H|(c' & Hin' & Hk & H)].
    + exists c. split; [now left|]. split; [reflexivity|].
      rewrite H. apply dict_get_set_eq.
    + exists c'. split; [now right|]. split; [|exact H].
      unfold key_of in Hk.
      revert Hk. generalize (symbol c') (symbol c). clear.
      induction venue as [|a venue IH]; cbn; intros s s' H.
      * now inversion H.
      * inversion H. now apply IH.
  - destruct (IH (dict_set (key_of venue c0) c0 d) Hin)
      as (c' & Hin' & Hs & H).
    exists c'. split; [now right|]. split; assumption.
Qed.

(** The ordered dict and the lookup-only catalog of the server answer
    [get_contract] alike. *)
Lemma get_contract_catalog (self : ExchangeDiscovery) (exch sym : string) :
  get_contract self exch sym
  = Exchanges.get_contract (catalog_of self) exch sym.
Proof.
  unfold get_contract, Exchanges.get_contract, catalog_of, Catalog.
  generalize (exch +:+ ":" +:+ sym) as k. intro k.
  induction (contracts self) as [|[k0 v0] rest IH]; cbn [dict_get].
  - symmetry. apply lookup_empty.
  - rewrite list_to_map_cons.
    destruct (String.eqb_spec k0 k) as [->|Hne].
    + symmetry. apply lookup_insert_eq.
    + rewrite lookup_insert_ne by exact Hne. exact IH.
Qed.

Lemma merge_get_other (venue : string) (cs : list PerpContract) (d : Dict)
    (k : string) :
  (forall c, key_of venue c <> k) ->
  dict_get k (merge venue cs d) = dict_get k d.
Proof.
  intro Hne.
  destruct (merge_get venue cs d k) as [H|(c & _ & Hk & _)]; [exact H|].
  now destruct (Hne c).
Qed.

Lemma venue_keys_apart (c c' : PerpContract) :
  key_of "bingx" c <> key_of "blofin" c' /\
  key_of "bingx" c <> key_of "hyperliquid" c' /\
  key_of "blofin" c <> key_of "hyperliquid" c'.
Proof. unfold key_of. cbn. repeat split; discriminate. Qed.

(** The last contract of a fetched list that has a given symbol. *)
Definition last_fetched (sym : string) (cs : list PerpContract)
  : option PerpContract :=
  find (fun c => String.eqb (symbol c) sym) (rev cs).

Lemma find_snoc {A} (p : A -> bool) (xs : list A) (x : A) :
  find p (xs ++ [x])
  = match find p xs with
    | Some y => Some y
    | None => if p x then Some x else None
    end.
Proof.
  induction xs as [|y ys IH]; cbn [app find]; [reflexivity|].
  destruct (p y); [reflexivity|exact IH].
Qed.

Lemma venue_key_inj (venue s s' : string) :
  venue +:+ ":" +:+ s = venue +:+ ":" +:+ s' -> s = s'.
Proof.
  induction venue as [|a venue IH]; cbn; intro H.
  - now inversion H.
  - inversion H. now apply IH.
Qed.

(** A lookup under a venue after the merge loop of that venue: the last
    contract merged with that symbol, or what was there before when no
    contract has it. *)
Lemma merge_get_last (venue : string) (cs : list PerpContract) (d : Dict)
    (sym : string) :
  dict_get (venue +:+ ":" +:+ sym) (merge venue cs d)
  = match last_fetched sym cs with
    | Some c => Some c
    | None => dict_get (venue +:+ ":" +:+ sym) d
    end.
Proof.
  revert d. induction cs as [|c cs IH]; intro d; [reflexivity|].
  rewrite merge_cons, IH. unfold last_fetched. cbn [rev].
  rewrite find_snoc.
  destruct (find _ (rev cs)) as [c'|]; [reflexivity|].
  destruct (String.eqb_spec (symbol c) sym) as [E|E].
  - unfold key_of. rewrite E. apply dict_get_set_eq.
  - apply dict_get_set_ne. unfold key_of. intro H.
    apply E. exact (venue_key_inj _ _ _ H).
Qed.

Lemma venue_prefixes_apart (c : PerpContract) (sym : string) :
  key_of "bingx" c <> ("blofin" +:+ ":" +:+ sym)%string /\
  key_of "bingx" c <> ("hyperliquid" +:+ ":" +:+ sym)%string /\
  key_of "blofin" c <> ("bingx" +:+ ":" +:+ sym)%string /\
  key_of "blofin" c <> ("hyperliquid" +:+ ":" +:+ sym)%string /\
  key_of "hyperliquid" c <> ("bingx" +:+ ":" +:+ sym)%string /\
  key_of "hyperliquid" c <> ("blofin" +:+ ":" +:+ sym)%string.
Proof. unfold key_of. cbn. repeat split; discriminate. Qed.

(** What the three merge loops of [refresh] leave under each venue. *)
Lemma refresh_lookups (bx bf hl : list PerpContract) (sym : string) :
  let d := merge "hyperliquid" hl (merge "blofin" bf (merge "bingx" bx [])) in
  dict_get ("bingx" +:+ ":" +:+ sym) d = last_fetched sym bx /\
  dict_get ("blofin" +:+ ":" +:+ sym) d = last_fetched sym bf /\
  dict_get ("hyperliquid" +:+ ":" +:+ sym) d = last_fetched sym hl.
Proof.
  cbv zeta.
  assert (Hapart : forall venue venue' cs d,
            (forall c, key_of venue c <> (venue' +:+ ":" +:+ sym)%string) ->
            dict_get (venue' +:+ ":" +:+ sym) (merge venue cs d)
            = dict_get (venue' +:+ ":" +:+ sym) d).
  { intros venue venue' cs d H. now apply merge_get_other. }
  split; [|split].
  - rewrite (Hapart "hyperliquid" "bingx"), (Hapart "blofin" "bingx"),
      merge_get_last by (intro c; apply (venue_prefixes_apart c sym)).
    now destruct (last_fetched sym bx).
  - rewrite (Hapart "hyperliquid" "blofin"), merge_get_last
      by (intro c; apply (venue_prefixes_apart c sym)).
    destruct (last_fetched sym bf); [reflexivity|].
    rewrite (Hapart "bingx" "blofin")
      by (intro c; apply (venue_prefixes_apart c sym)).
    reflexivity.
  - rewrite merge_get_last. destruct (last_fetched sym hl); [reflexivity|].
    rewrite (Hapart "blofin" "hyperliquid"), (Hapart "bingx" "hyperliquid")
      by (intro c; apply (venue_prefixes_apart c sym)).
    reflexivity.
Qed.

(** Where an entry of the catalog comes from. *)
Definition fetched_as (bingx_contracts blofin_contracts hl_contracts
                         : list PerpContract)
    (k : string) (c : PerpContract) : Prop :=
  (In c bingx_contracts /\ k = key_of "bingx" c) \/
  (In c blofin_contracts /\ k = key_of "blofin" c) \/
  (In c hl_contracts /\ k = key_of "hyperliquid" c).

(** X23.  [refresh] rebuilds the catalog from what was fetched and from
    nothing else.  Every entry after it is a fetched contract filed under
    its venue and symbol; a lookup under a venue and a symbol finds the
    last contract that venue's fetch returned with that symbol, and
    nothing when it returned none; so every fetched contract can be looked
    up under its venue and symbol; the keys are distinct and the count
    returned is their number.  So a venue whose fetch returned nothing has
    no entry left, whatever the catalog held before. *)
Theorem refresh_rebuilds_catalog :
  forall (now : Q) (bx bf hl : list PerpContract) (self : ExchangeDiscovery),
    let '(self', n) := refresh now bx bf hl self in
    (forall k c, dict_get k (contracts self') = Some c ->
                 fetched_as bx bf hl k c) /\
    (forall sym,
        get_contract self' "bingx" sym = last_fetched sym bx /\
        get_contract self' "blofin" sym = last_fetched sym bf /\
        get_contract self' "hyperliquid" sym = last_fetched sym hl) /\
    (forall venue cs c,
        (venue, cs) = ("bingx"%string, bx) \/
        (venue, cs) = ("blofin"%string, bf) \/
        (venue, cs) = ("hyperliquid"%string, hl) ->
        In c cs ->
        exists c', In c' cs /\ symbol c' = symbol c /\
                   get_contract self' venue (symbol c) = Some c') /\
    List.NoDup (map fst (contracts self')) /\
    n = length (contracts self') /\
    last_refresh self' = now /\
    (bf = [] -> forall sym, get_contract self' "blofin" sym = None).
Proof.
  intros now bx bf hl self. unfold refresh. cbn [contracts last_refresh].
  set (d1 := merge "bingx" bx []).
  set (d2 := merge "blofin" bf d1).
  set (d3 := merge "hyperliquid" hl d2).
  assert (Hfrom : forall k c, dict_get k d3 = Some c -> fetched_as bx bf hl k c).
  { intros k c H. unfold d3 in H.
    destruct (merge_get "hyperliquid" hl d2 k) as [E|(c' & Hin & Hk & E)].
    - rewrite E in H. unfold d2 in H.
      destruct (merge_get "blofin" bf d1 k) as [E'|(c' & Hin & Hk & E')].
      + rewrite E' in H. unfold d1 in H.
        destruct (merge_get "bingx" bx [] k) as [E''|(c' & Hin & Hk & E'')].
        * rewrite E'' in H. discriminate H.
        * rewrite E'' in H. inversion H; subst c'. left. auto.
      + rewrite E' in H. inversion H; subst c'. right. left. auto.
    - rewrite E in H. inversion H; subst c'. right. right. auto. }
  split; [exact Hfrom|]. split; [|split; [|split; [|split; [|split]]]].
  - intro sym. unfold get_contract. cbn [contracts].
    exact (refresh_lookups bx bf hl sym).
  - intros venue cs c Hv Hin. unfold get_contract. cbn [contracts].
    fold (key_of venue c).
    destruct Hv as [Hv|[Hv|Hv]]; inversion Hv; subst venue cs; clear Hv.
    + destruct (merge_get_listed "bingx" bx [] c Hin) as (c' & H1 & H2 & H3).
      exists c'. split; [exact H1|]. split; [exact H2|].
      unfold d3, d2. rewrite !merge_get_other; [exact H3| |].
      * intros c0 E. now destruct (venue_keys_apart c c0) as [H _].
      * intros c0 E. now destruct (venue_keys_apart c c0) as (_ & H & _).
    + destruct (merge_get_listed "blofin" bf d1 c Hin) as (c' & H1 & H2 & H3).
      exists c'. split; [exact H1|]. split; [exact H2|].
      unfold d3. rewrite merge_get_other; [exact H3|].
      intros c0 E. now destruct (venue_keys_apart c c0) as (_ & _ & H).
    + destruct (merge_get_listed "hyperliquid" hl d2 c Hin)
        as (c' & H1 & H2 & H3).
      exists c'. split; [exact H1|]. split; [exact H2|exact H3].
  - unfold d3, d2, d1. repeat apply merge_keys. constructor.
  - reflexivity.
  - reflexivity.
  - intros -> sym. unfold get_contract. cbn [contracts].
    destruct (dict_get ("blofin" +:+ ":" +:+ sym) d3) as [c|] eqn:E;
      [|reflexivity].
    destruct (Hfrom _ _ E) as [[_ Hk]|[[[] _]|[_ Hk]]];
      unfold key_of in Hk; cbn in Hk; discriminate Hk.
Qed.

Definition bingx_wif : PerpContract := {|
  symbol := "WIF-USDT"; base_coin := "WIF"; quote_coin := "USDT";
  exchange := "bingx"; list_time := 1700000000000; max_leverage := 100;
  min_size := 1; api_enabled := true
|}.

Definition hl_wif : PerpContract := {|
  symbol := "WIF"; base_coin := "WIF"; quote_coin := "USD";
  exchange := "hyperliquid"; list_time := 1700000500000; max_leverage := 10;
  min_size := 0; api_enabled := true
|}.

(** A catalog that holds a blofin contract, as left by an earlier round. *)
Definition earlier_round : ExchangeDiscovery :=
  fst (refresh 0 [] [blofin_contract] [] new_discovery).

(** The same symbol as [bingx_wif], with another leverage. *)
Definition bingx_wif_again : PerpContract := {|
  symbol := "WIF-USDT"; base_coin := "WIF"; quote_coin := "USDT";
  exchange := "bingx"; list_time := 1700000000000; max_leverage := 50;
  min_size := 1; api_enabled := true
|}.

Lemma refresh_rebuilds_catalog_witness :
  get_contract earlier_round "blofin" "WIF-USDT" = Some blofin_contract /\
  get_contract
    (fst (refresh 300 [bingx_wif; bingx_wif_again] [] [hl_wif] earlier_round))
    "blofin" "WIF-USDT" = None /\
  get_contract
    (fst (refresh 300 [bingx_wif; bingx_wif_again] [] [hl_wif] earlier_round))
    "bingx" "WIF-USDT" = Some bingx_wif_again.
Proof.
  split; [reflexivity|].
  pose proof (refresh_rebuilds_catalog 300 [bingx_wif; bingx_wif_again] []
                [hl_wif] earlier_round) as H.
  destruct (refresh 300 [bingx_wif; bingx_wif_again] [] [hl_wif]
              earlier_round) as [self' n].
  destruct H as (_ & Hlast & _ & _ & _ & _ & H). cbn [fst].
  split; [now apply H|].
  destruct (Hlast "WIF-USDT"%string) as [E _]. exact E.
Defined.

Lemma insert_desc_perm {A} (key : A -> Q) (x : A) (xs : list A) :
  Permutation (insert_desc key x xs) (x :: xs).
Proof.
  induction xs as [|y ys IH]; cbn [insert_desc]; [reflexivity|].
  destruct (Qlt_bool _ _); [|reflexivity].
  rewrite IH. apply perm_swap.
Qed.

Lemma sort_desc_perm {A} (key : A -> Q) (xs : list A) :
  Permutation (sort_desc key xs) xs.
Proof.
  unfold sort_desc. induction xs as [|x xs IH]; cbn [fold_right];
    [reflexivity|].
  rewrite insert_desc_perm. now constructor.
Qed.

Lemma insert_asc_perm {A} (key : A -> string) (x : A) (xs : list A) :
  Permutation (insert_asc key x xs) (x :: xs).
Proof.
  induction xs as [|y ys IH]; cbn [insert_asc]; [reflexivity|].
  destruct (String.ltb _ _); [|reflexivity].
  rewrite IH. apply perm_swap.
Qed.

Lemma sort_asc_perm {A} (key : A -> string) (xs : list A) :
  Permutation (sort_asc key xs) xs.
Proof.
  unfold sort_asc. induction xs as [|x xs IH]; cbn [fold_right];
    [reflexivity|].
  rewrite insert_asc_perm. now constructor.
Qed.

Lemma filter_true {A} (xs : list A) : List.filter (fun _ => true) xs = xs.
Proof. induction xs as [|x xs IH]; cbn; congruence. Qed.

(** The venue test of [get_all]: no venue and the empty text select every
    contract. *)
Definition venue_selected (exch : option string) (c : PerpContract) : bool :=
  match exch with
  | None | Some EmptyString => true
  | Some e => String.eqb (exchange c) e
  end.

Section Queries.

Variable D : Type.
Variable to_dict : PerpContract -> D.

(** X24.  [get_all] lists each contract of the selected venue exactly once:
    the result renders a rearrangement of the catalog entries that pass the
    venue test (all entries for no venue or an empty one).  Sorted by
    "list_time" the newest listing comes first, by "leverage" the largest
    leverage; for a sort key it does not know the entries keep the order
    of the catalog. *)
Theorem get_all_lists_each_once :
  forall (sort_by : string) (exch : option string) (self : ExchangeDiscovery),
    exists cs,
      get_all D to_dict sort_by exch self = map to_dict cs /\
      Permutation cs (List.filter (venue_selected exch)
                                  (map snd (contracts self))) /\
      Forall (fun c => venue_selected exch c = true) cs /\
      (sort_by = "list_time"%string -> desc_sorted by_list_time cs) /\
      (sort_by = "leverage"%string -> desc_sorted by_leverage cs) /\
      (sort_by <> "list_time"%string -> sort_by <> "symbol"%string ->
       sort_by <> "leverage"%string ->
       cs = List.filter (venue_selected exch) (map snd (contracts self))).
Proof.
  intros sort_by exch self. unfold get_all.
  set (all := map snd (contracts self)).
  assert (Hsel : match exch with
                 | None | Some EmptyString => all
                 | Some e => List.filter (fun c => String.eqb (exchange c) e) all
                 end = List.filter (venue_selected exch) all).
  { destruct exch as [[|a e]|]; cbn [venue_selected];
      rewrite ?filter_true; reflexivity. }
  rewrite Hsel. set (sel := List.filter (venue_selected exch) all).
  assert (Hall : forall cs, Permutation cs sel ->
                            Forall (fun c => venue_selected exch c = true) cs).
  { intros cs Hp. apply Forall_forall. intros c Hc.
    apply list_elem_of_In in Hc.
    apply (Permutation_in _ Hp) in Hc. apply filter_In in Hc. apply Hc. }
  destruct (String.eqb_spec sort_by "list_time") as [E1|E1].
  { exists (sort_desc by_list_time sel). split; [reflexivity|].
    split; [apply sort_desc_perm|]. split; [apply Hall, sort_desc_perm|].
    split; [intros _; apply sort_desc_sorted|].
    split; [intro E; subst; discriminate|]. intros H; contradiction. }
  destruct (String.eqb_spec sort_by "symbol") as [E2|E2].
  { exists (sort_asc symbol sel). split; [reflexivity|].
    split; [apply sort_asc_perm|]. split; [apply Hall, sort_asc_perm|].
    split; [intro; contradiction|].
    split; [intro E; subst; discriminate|]. intros _ H; contradiction. }
  destruct (String.eqb_spec sort_by "leverage") as [E3|E3].
  { exists (sort_desc by_leverage sel). split; [reflexivity|].
    split; [apply sort_desc_perm|]. split; [apply Hall, sort_desc_perm|].
    split; [intro; contradiction|].
    split; [intros _; apply sort_desc_sorted|]. intros _ _ H; contradiction. }
  exists sel. split; [reflexivity|]. split; [reflexivity|].
  split; [now apply Hall|]. split; [intro; contradiction|].
  split; [intro; contradiction|]. reflexivity.
Qed.

Lemma contains_empty (s : string) : contains EmptyString s = true.
Proof. destruct s; reflexivity. Qed.

(** The test of [search]. *)
Definition matches (query : string) (c : PerpContract) : bool :=
  contains (py_upper query) (py_upper (symbol c))
  || contains (py_upper query) (py_upper (base_coin c)).

Lemma upper_ascii_idempotent (a : Ascii.ascii) :
  upper_ascii (upper_ascii a) = upper_ascii a.
Proof.
  destruct a as [[] [] [] [] [] [] [] []]; reflexivity.
Qed.

Lemma py_upper_idempotent (s : string) : py_upper (py_upper s) = py_upper s.
Proof.
  induction s as [|a s IH]; cbn [py_upper]; [reflexivity|].
  now rewrite upper_ascii_idempotent, IH.
Qed.

(** X25.  [search] returns exactly the contracts whose symbol or base coin
    contains the query, letter case aside, each once and newest listing
    first.  The case of the query does not matter, and the empty query
    returns the whole catalog. *)
Theorem search_finds_matches :
  forall (query : string) (self : ExchangeDiscovery),
    (exists cs,
        search D to_dict query self = map to_dict cs /\
        Permutation cs (List.filter (matches query)
                                    (map snd (contracts self))) /\
        desc_sorted by_list_time cs /\
        (forall c, In c cs <->
                   In c (map snd (contracts self)) /\ matches query c = true))
    /\ search D to_dict (py_upper query) self = search D to_dict query self
    /\ (exists cs,
           search D to_dict EmptyString self = map to_dict cs /\
           Permutation cs (map snd (contracts self))).
Proof.
  intros query self. split; [|split].
  - exists (sort_desc by_list_time
              (List.filter (matches query) (map snd (contracts self)))).
    split; [reflexivity|]. split; [apply sort_desc_perm|].
    split; [apply sort_desc_sorted|].
    intro c. rewrite <- filter_In. split; intro H.
    + now apply (Permutation_in _ (sort_desc_perm by_list_time _)).
    + apply (Permutation_in _ (Permutation_sym (sort_desc_perm by_list_time _))).
      exact H.
  - unfold search. now rewrite py_upper_idempotent.
  - exists (sort_desc by_list_time (map snd (contracts self))).
    split; [|apply sort_desc_perm].
    unfold search. cbn [py_upper].
    assert (E : List.filter
                  (fun c => contains EmptyString (py_upper (symbol c))
                            || contains EmptyString (py_upper (base_coin c)))
                  (map snd (contracts self))
                = map snd (contracts self)).
    { induction (map snd (contracts self)) as [|c cs IH]; cbn [List.filter];
        [reflexivity|].
      rewrite contains_empty. cbn [orb]. now rewrite IH. }
    now rewrite E.
Qed.

(** X26.  [get_new_listings(days)] returns the contracts listed after the
    cutoff of [days] days before now, newest first, and no others; a
    longer window never loses a contract a shorter one returns. *)
Theorem new_listings_within_window :
  forall (now : Q) (days : Z) (self : ExchangeDiscovery),
    (exists cs,
        get_new_listings D to_dict now days self = map to_dict cs /\
        desc_sorted by_list_time cs /\
        (forall c, In c cs <->
                   In c (map snd (contracts self)) /\
                   now - inject_Z (days * 86400)
                   < inject_Z (list_time c) / 1000)) /\
    (forall (more : Z) (x : D),
        (days <= more)%Z ->
        In x (get_new_listings D to_dict now days self) ->
        In x (get_new_listings D to_dict now more self)).
Proof.
  intros now days self.
  assert (Hin : forall d c,
    In c (sort_desc by_list_time
            (List.filter
               (fun c => Qlt_bool (now - inject_Z (d * 24 * 60 * 60))
                                  (inject_Z (list_time c) / 1000))
               (map snd (contracts self)))) <->
    In c (map snd (contracts self)) /\
    now - inject_Z (d * 86400) < inject_Z (list_time c) / 1000).
  { intros d c.
    replace (d * 24 * 60 * 60)%Z with (d * 86400)%Z by lia.
    rewrite <- (Qlt_bool_true (now - inject_Z (d * 86400))).
    rewrite <- (filter_In
                  (fun c => Qlt_bool (now - inject_Z (d * 86400))
                                     (inject_Z (list_time c) / 1000))).
    split; intro H.
    - now apply (Permutation_in _ (sort_desc_perm by_list_time _)).
    - now apply (Permutation_in _ (Permutation_sym (sort_desc_perm by_list_time _))). }
  split.
  - eexists. split; [reflexivity|]. split; [apply sort_desc_sorted|].
    apply Hin.
  - intros more x Hle Hx. unfold get_new_listings in *.
    apply in_map_iff in Hx. destruct Hx as (c & <- & Hc).
    apply in_map. apply Hin. apply Hin in Hc. destruct Hc as [H1 H2].
    split; [exact H1|].
    assert (inject_Z (days * 86400) <= inject_Z (more * 86400))
      by (rewrite <- Zle_Qle; lia).
    lra.
Qed.

End Queries.
End DiscoveryMore.
